(** * Fridge Pro: the recipe suggestion handler

    A shallow embedding of [GET /recipes/suggestions]
    (backend/src/routes/recipes.ts) and the properties of its result.

    JavaScript numbers are IEEE 754 binary64 values: they are modelled with
    the Standard Library's executable specification of floating-point
    arithmetic ([SpecFloat]) at precision 53 and maximal exponent 1024.
    The Prisma queries of the handler are modelled as list filters over a
    snapshot of the three tables the handler reads; rows come back in table
    order, recipe rows with their ingredient lines joined.  A payload keeps
    the recipe row it was copied from in place of the scalar fields the
    handler copies one by one. *)

From Stdlib Require Import List ZArith QArith Qround Qpower String Bool Lia Lqa.
From Stdlib Require Import Floats.SpecFloat.
From Stdlib Require Import Sorting.Sorted Permutation.
Import ListNotations.

Local Open Scope Z_scope.

(** ** JavaScript numbers *)

Module JsNumber.

Definition prec : Z := 53.
Definition emax : Z := 1024.

Definition number : Type := spec_float.

(** The Number that represents an integer (array lengths, literals). *)
Definition of_Z (z : Z) : number := binary_normalize prec emax z 0 false.
Definition of_nat (n : nat) : number := of_Z (Z.of_nat n).

Definition div : number -> number -> number := SFdiv prec emax.
Definition mul : number -> number -> number := SFmul prec emax.
Definition sub : number -> number -> number := SFsub prec emax.

(** [x > y] *)
Definition gt (x y : number) : bool := SFltb y x.

(** The rational a finite Number stands for. *)
Definition to_Q (x : number) : Q :=
  match x with
  | S754_finite s m e => (inject_Z (if s then Z.neg m else Z.pos m) * 2 ^ e)%Q
  | _ => 0%Q
  end.

(** [Math.round]: the integer closest to [x], ties going to +infinity,
    that is floor(x + 1/2).  The result is given as the integer itself;
    the scores of recipes are finite (see [score_is_score_value]), the
    other cases are mapped to 0. *)
Definition Math_round (x : number) : Z := Qfloor (to_Q x + (1 # 2)).

(** [Math.max] on the integers the handler applies it to. *)
Definition Math_max (x y : Z) : Z := Z.max x y.

End JsNumber.

Import JsNumber.

(** ** ECMAScript array operations used by the handler *)

Section Arrays.
Context {A : Type}.

(** [arr.slice(0, n)] *)
Definition slice0 (n : Z) (l : list A) : list A := firstn (Z.to_nat n) l.

(** [arr.sort(cmp)]: the sort is stable; an element [x] moves behind [y]
    exactly when the comparator answers a positive number for [(x, y)]. *)
Fixpoint sort_insert (cmp : A -> A -> number) (x : A) (l : list A) : list A :=
  match l with
  | [] => [x]
  | y :: l' =>
      if gt (cmp x y) (of_Z 0) then y :: sort_insert cmp x l'
      else x :: y :: l'
  end.

Definition Array_sort (cmp : A -> A -> number) (l : list A) : list A :=
  fold_right (sort_insert cmp) [] l.

End Arrays.

(** [ids.includes(x)] and [set.has(x)] on strings *)
Definition includes (ids : list string) (x : string) : bool :=
  existsb (String.eqb x) ids.

(** [new Set(ids)]: the distinct members, in insertion order. *)
Fixpoint Set_of (ids : list string) : list string :=
  match ids with
  | [] => []
  | x :: rest => x :: filter (fun y => negb (String.eqb x y)) (Set_of rest)
  end.

(** ** Data model (the rows the handler reads) *)

Record Category := { cat_id : string; cat_name : string }.

Record Ingredient := {
  ing_id : string;
  ing_name : string;
  ing_categoryId : option string;
  ing_category : option Category
}.

Record RecipeIngredient := {
  ri_id : string;
  ri_recipeId : string;
  ri_ingredientId : string;
  ri_quantity : number;
  ri_unit : string;
  ri_notes : option string;
  ri_ingredient : Ingredient
}.

Inductive Difficulty := easy | medium | hard.

Record Recipe := {
  r_id : string;
  r_title : string;
  r_description : option string;
  r_instructions : list string;
  r_prepTime : option Z;
  r_cookTime : option Z;
  r_servings : Z;
  r_difficulty : Difficulty;
  r_imageUrl : option string;
  r_createdAt : string;
  r_createdById : option string;
  r_createdBy : option (string * string);
  r_source : option string;
  r_ingredients : list RecipeIngredient
}.

Record FridgeItem := {
  fi_id : string;
  fi_userId : string;
  fi_ingredientId : string;
  fi_quantity : number;
  fi_unit : string;
  fi_expiryDate : option string;
  fi_notes : option string
}.

Record FavoriteRecipe := {
  fav_id : string;
  fav_userId : string;
  fav_recipeId : string
}.

(** The snapshot of the database one request sees. *)
Record DB := {
  tbl_fridgeItem : list FridgeItem;
  tbl_recipe : list Recipe;
  tbl_favoriteRecipe : list FavoriteRecipe
}.

(** ** Response payload *)

(** One ingredient line of a payload: the line and its [available] flag. *)

Record IngredientPayload := {
  ip_line : RecipeIngredient;
  ip_available : bool
}.

Record RecipePayload := {
  p_recipe : Recipe;
  p_ingredients : list IngredientPayload;
  isFavorite : bool;
  compatibilityScore : Z;
  missingIngredientsCount : nat
}.

Definition p_id (p : RecipePayload) : string := r_id (p_recipe p).

Record Response := {
  success : bool;
  data_suggestions : list RecipePayload
}.

Record ScoredRecipe := {
  sr_recipe : Recipe;
  sr_score : number;
  sr_missingIngredients : nat
}.

(** ** The handler *)

Section Handler.

Variable db : DB.
Variable userId : string.

(** [prisma.fridgeItem.findMany({ where: { userId } })] *)
Definition userFridgeItems : list FridgeItem :=
  filter (fun it => String.eqb (fi_userId it) userId) (tbl_fridgeItem db).

Definition availableIngredientIds : list string :=
  map fi_ingredientId userFridgeItems.

(** [prisma.favoriteRecipe.findMany({ where: { userId } })] *)
Definition favoriteRecipeIds : list FavoriteRecipe :=
  filter (fun f => String.eqb (fav_userId f) userId) (tbl_favoriteRecipe db).

Definition favoriteIdsSet : list string :=
  Set_of (map fav_recipeId favoriteRecipeIds).

(** [prisma.recipe.findMany({ where: { id: { in: [...] } } })] *)
Definition favoriteRecipes : list Recipe :=
  filter (fun r => includes favoriteIdsSet (r_id r)) (tbl_recipe db).

(** [prisma.recipe.findMany({})] *)
Definition allRecipes : list Recipe := tbl_recipe db.

(** the [favoriteRecipes] relation included with each recipe *)
Definition recipe_favoriteRecipes (r : Recipe) : list FavoriteRecipe :=
  filter (fun f => String.eqb (fav_userId f) userId
                   && String.eqb (fav_recipeId f) (r_id r))
         (tbl_favoriteRecipe db).

Definition totalIngredients (r : Recipe) : nat :=
  List.length (r_ingredients r).

Definition availableIngredients (r : Recipe) : nat :=
  List.length (filter (fun ri => includes availableIngredientIds (ri_ingredientId ri))
                 (r_ingredients r)).

Definition missingIngredients (r : Recipe) : nat :=
  List.length (filter (fun ri => negb (includes availableIngredientIds (ri_ingredientId ri)))
                 (r_ingredients r)).

Definition score (r : Recipe) : number :=
  if gt (of_nat (totalIngredients r)) (of_Z 0)
  then mul (div (of_nat (availableIngredients r)) (of_nat (totalIngredients r)))
           (of_Z 100)
  else of_Z 0.

Definition scoredRecipes : list ScoredRecipe :=
  map (fun r => {| sr_recipe := r;
                   sr_score := score r;
                   sr_missingIngredients := missingIngredients r |})
      allRecipes.

Definition ingredientsPayload (r : Recipe) : list IngredientPayload :=
  map (fun ri => {| ip_line := ri;
                    ip_available := includes availableIngredientIds (ri_ingredientId ri) |})
      (r_ingredients r).

Definition favoriteRecipesPayload : list RecipePayload :=
  map (fun r => {| p_recipe := r;
                   p_ingredients := ingredientsPayload r;
                   isFavorite := true;
                   compatibilityScore := 100;
                   missingIngredientsCount := 0 |})
      favoriteRecipes.

Definition suggestions : list RecipePayload :=
  map (fun s => {| p_recipe := sr_recipe s;
                   p_ingredients := ingredientsPayload (sr_recipe s);
                   isFavorite :=
                     negb (Nat.eqb (List.length (recipe_favoriteRecipes (sr_recipe s))) 0);
                   compatibilityScore := Math_round (sr_score s);
                   missingIngredientsCount := sr_missingIngredients s |})
      (slice0 (Math_max (10 - Z.of_nat (List.length favoriteRecipesPayload)) 0)
         (Array_sort (fun a b => sub (sr_score b) (sr_score a))
            (filter (fun s => gt (sr_score s) (of_Z 0)
                              && negb (includes favoriteIdsSet (r_id (sr_recipe s))))
                    scoredRecipes))).

Definition combinedSuggestions : list RecipePayload :=
  slice0 10 (favoriteRecipesPayload ++ suggestions).

(** The body of the response.  The handler answers at once when the user
    holds nothing; otherwise it sends [suggestions]. *)
Definition getSuggestions : Response :=
  if Nat.eqb (List.length availableIngredientIds) 0
  then {| success := true; data_suggestions := [] |}
  else {| success := true; data_suggestions := suggestions |}.

End Handler.

(** ** Building concrete snapshots *)

Module Fixtures.

Local Open Scope string_scope.

Definition mkLine (recipeId ingredientId : string) : RecipeIngredient :=
  {| ri_id := recipeId ++ "/" ++ ingredientId;
     ri_recipeId := recipeId;
     ri_ingredientId := ingredientId;
     ri_quantity := of_Z 1;
     ri_unit := "piece";
     ri_notes := None;
     ri_ingredient := {| ing_id := ingredientId; ing_name := ingredientId;
                         ing_categoryId := None; ing_category := None |} |}.

Definition mkRecipe (id : string) (ingredientIds : list string) : Recipe :=
  {| r_id := id; r_title := id; r_description := None;
     r_instructions := ["cook"]; r_prepTime := None; r_cookTime := None;
     r_servings := 4%Z; r_difficulty := medium; r_imageUrl := None;
     r_createdAt := "2024-01-01"; r_createdById := None; r_createdBy := None;
     r_source := None;
     r_ingredients := map (mkLine id) ingredientIds |}.

Definition mkFridgeItem (user ingredientId : string) (quantity : Z) : FridgeItem :=
  {| fi_id := user ++ "/" ++ ingredientId; fi_userId := user;
     fi_ingredientId := ingredientId; fi_quantity := of_Z quantity;
     fi_unit := "g"; fi_expiryDate := None; fi_notes := None |}.

Definition mkFavorite (user recipeId : string) : FavoriteRecipe :=
  {| fav_id := user ++ "/" ++ recipeId; fav_userId := user;
     fav_recipeId := recipeId |}.

(** the identifiers x1, x11, x111, ... ([n] of them) *)
Fixpoint names (prefix : string) (n : nat) : list string :=
  match n with
  | O => []
  | S n' => (prefix ++ "1") :: names (prefix ++ "1") n'
  end.

Definition with_amounts (it : FridgeItem) (quantity : Z) (unit : string)
    (expiry : option string) : FridgeItem :=
  {| fi_id := fi_id it; fi_userId := fi_userId it;
     fi_ingredientId := fi_ingredientId it; fi_quantity := of_Z quantity;
     fi_unit := unit; fi_expiryDate := expiry; fi_notes := fi_notes it |}.

Definition favorites_of (user : string) (recipes : list Recipe) : list FavoriteRecipe :=
  map (fun r => mkFavorite user (r_id r)) recipes.

(** User u holds tomato and onion; D is the only favorite. *)
Definition db_kitchen : DB :=
  {| tbl_fridgeItem := [mkFridgeItem "u" "tomato" 2; mkFridgeItem "u" "onion" 1;
                        mkFridgeItem "v" "garlic" 1];
     tbl_recipe := [mkRecipe "A" ["tomato"; "onion"; "garlic"];
                    mkRecipe "B" ["tomato"];
                    mkRecipe "C" ["garlic"; "leek"];
                    mkRecipe "D" ["chicken"];
                    mkRecipe "E" []];
     tbl_favoriteRecipe := [mkFavorite "u" "D"; mkFavorite "v" "A"] |}.

(** The same kitchen seen by a user who holds nothing. *)
Definition db_bare : DB :=
  {| tbl_fridgeItem := [mkFridgeItem "v" "garlic" 1];
     tbl_recipe := tbl_recipe db_kitchen;
     tbl_favoriteRecipe := tbl_favoriteRecipe db_kitchen |}.

(** User u holds tomato; the favorite D needs chicken only. *)
Definition db_favorite_chicken : DB :=
  {| tbl_fridgeItem := [mkFridgeItem "u" "tomato" 1];
     tbl_recipe := [mkRecipe "D" ["chicken"]];
     tbl_favoriteRecipe := [mkFavorite "u" "D"] |}.

(** [n] favorite recipes F1, F11, ... and one recipe B that is not. *)
Definition db_favorites (n : nat) : DB :=
  let favs := map (fun id => mkRecipe id ["chicken"]) (names "F" n) in
  {| tbl_fridgeItem := [mkFridgeItem "u" "tomato" 1];
     tbl_recipe := favs ++ [mkRecipe "B" ["tomato"]];
     tbl_favoriteRecipe := favorites_of "u" favs |}.

(** One recipe of [total] ingredients, of which user u holds the first [held]. *)
Definition db_single (held total : nat) : DB :=
  {| tbl_fridgeItem := map (fun i => mkFridgeItem "u" i 1) (names "i" held);
     tbl_recipe := [mkRecipe "R" (names "i" total)];
     tbl_favoriteRecipe := [] |}.

End Fixtures.

(** ** Reading the rounding algorithm of [SpecFloat]

    The predicates below state what the intermediate values of
    [binary_round_aux] mean: an exact quantity [X / D] (in units of the
    current exponent), the integer part kept so far, and where the quantity
    lies between two consecutive integers. *)

Definition loc_ok (R Dk : Z) (r s : bool) : Prop :=
  match r, s with
  | false, false => R = 0
  | false, true => 0 < R /\ 2 * R < Dk
  | true, false => 2 * R = Dk
  | true, true => Dk < 2 * R
  end.

Definition shr_inv (X D k : Z) (mrs : shr_record) : Prop :=
  0 <= shr_m mrs
  /\ shr_m mrs * (D * 2 ^ k) <= X < (shr_m mrs + 1) * (D * 2 ^ k)
  /\ loc_ok (X - shr_m mrs * (D * 2 ^ k)) (D * 2 ^ k) (shr_r mrs) (shr_s mrs).

Definition inbetween (m X D : Z) (l : location) : Prop :=
  m * D <= X < (m + 1) * D
  /\ match l with
     | loc_Exact => X = m * D
     | loc_Inexact Lt => m * D < X /\ 2 * (X - m * D) < D
     | loc_Inexact Eq => 2 * (X - m * D) = D
     | loc_Inexact Gt => D < 2 * (X - m * D)
     end.

(** [x] is the positive normal Number with mantissa [m] and exponent [e]. *)
Definition normal (x : number) (m : positive) (e : Z) : Prop :=
  x = S754_finite false m e /\ 2 ^ 52 <= Z.pos m < 2 ^ 53.

(** The unit roundoff of binary64. *)
Definition u53 : Q := 1 # (2 ^ 53).

(** The Number the handler computes for [a] available ingredients out of [t]. *)
Definition score_of (a t : Z) : number := mul (div (of_Z a) (of_Z t)) (of_Z 100).

(** A bound on the distance between a score and the exact percentage. *)
Definition delta : Q := 1 # (2 ^ 40).

(** The values a score can take: +0, or a positive normal Number. *)
Definition score_value (v : number) : Prop :=
  v = S754_zero false \/ exists m e, normal v m e /\ -200 <= e <= 100.

(** Descending order of a rational key. *)
Definition desc {A : Type} (key : A -> Q) (a b : A) : Prop := (key b <= key a)%Q.

(** ** Vocabulary of the properties *)

(** A JavaScript array holds fewer than 2^32 elements. *)
Definition array_ok {A : Type} (l : list A) : Prop :=
  Z.of_nat (List.length l) < 2 ^ 32.

Definition recipes_ok (db : DB) : Prop :=
  Forall (fun r => array_ok (r_ingredients r)) (tbl_recipe db).

(** How many entries of a result carry the recipe identifier [id]. *)
Definition count_id (id : string) (l : list RecipePayload) : nat :=
  List.length (filter (fun p => String.eqb (p_id p) id) l).

(** round(100 * available / total) on the exact quotient, halves going up
    as [Math.round] does. *)
Definition round_percent (available total : Z) : Z :=
  Qfloor (100 * (inject_Z available / inject_Z total) + (1 # 2)).

(** Two fridge rows that differ at most in quantity, unit and expiry date. *)
Definition same_but_amounts (i1 i2 : FridgeItem) : Prop :=
  fi_id i1 = fi_id i2 /\ fi_userId i1 = fi_userId i2
  /\ fi_ingredientId i1 = fi_ingredientId i2 /\ fi_notes i1 = fi_notes i2.

(** The order of the scores attached to the entries of a result. *)
Definition by_score_desc (p q : RecipePayload) : Prop :=
  compatibilityScore q <= compatibilityScore p.

(** 100 * available / total lies exactly halfway between two integers. *)
Definition halfway (available total : Z) : Prop :=
  (200 * available + total) mod (2 * total) = 0.

(** ** The properties as the specification words them

    Each is a statement about one snapshot and one user; those that the
    handler does not satisfy are refuted on a concrete snapshot below. *)

(** Every favorite recipe is listed exactly once in the response. *)
Definition favorites_listed_once (db : DB) (userId : string) : Prop :=
  availableIngredientIds db userId <> [] ->
  forall r, In r (tbl_recipe db) ->
    includes (favoriteIdsSet db userId) (r_id r) = true ->
    count_id (r_id r) (data_suggestions (getSuggestions db userId)) = 1%nat.

(** Every favorite entry carries its computed score and missing count. *)
Definition favorites_carry_computed_score (db : DB) (userId : string) : Prop :=
  forall p, In p (combinedSuggestions db userId) -> isFavorite p = true ->
    compatibilityScore p
    = round_percent (Z.of_nat (availableIngredients db userId (p_recipe p)))
                    (Z.of_nat (totalIngredients (p_recipe p)))
    /\ missingIngredientsCount p = missingIngredients db userId (p_recipe p).

(** The score attached to a recipe is round(100 * available / total),
    between 0 and 100. *)
Definition score_is_round_percent (db : DB) (userId : string) : Prop :=
  availableIngredientIds db userId <> [] ->
  forall r, In r (tbl_recipe db) -> (0 < totalIngredients r)%nat ->
    Math_round (score db userId r)
    = round_percent (Z.of_nat (availableIngredients db userId r))
                    (Z.of_nat (totalIngredients r))
    /\ 0 <= Math_round (score db userId r) <= 100.

(** No entry of the response that is not a favorite carries the score 0. *)
Definition no_zero_score_listed (db : DB) (userId : string) : Prop :=
  forall p, In p (data_suggestions (getSuggestions db userId)) ->
    isFavorite p = false -> compatibilityScore p <> 0.

(** ** Proof steps used on concrete snapshots *)

(** Membership in a list that computes to explicit elements. *)
Ltac in_computed_list := vm_compute; intuition reflexivity.

(** A non-empty list, by computing its head. *)
Ltac nonempty_by_computation := vm_compute; discriminate.

(** * The other handlers of routes/recipes.ts and the middleware they use *)

(** [Math.ceil] on a finite Number, given as the integer itself. *)
Definition Math_ceil (x : number) : Z := Qceiling (to_Q x).

Definition Difficulty_eqb (a b : Difficulty) : bool :=
  match a, b with
  | easy, easy | medium, medium | hard, hard => true
  | _, _ => false
  end.

(** ** GET /recipes: filtered, paginated listing *)

(** What [filterSchema.parse] hands to the handler: the schema makes
    [page], [limit] and [maxPrepTime] integers. *)
Record Filters := {
  f_search : option string;
  f_difficulty : option Difficulty;
  f_maxPrepTime : option Z;
  f_makeable : option bool;
  f_page : Z;
  f_limit : Z
}.

(** The bounds [filterSchema] enforces on a parsed query. *)
Definition filters_ok (f : Filters) : Prop :=
  1 <= f_page f /\ 1 <= f_limit f <= 50
  /\ match f_maxPrepTime f with Some m => 1 <= m | None => True end.

(** A value of [req.query] as Express hands it to the handler: a string,
    or an array or a nested object when the key is repeated or bracketed.
    No value of a query is a number or a boolean. *)
#[warnings="-register-all"]
Inductive QueryValue :=
| qv_string (s : string)
| qv_array (items : list QueryValue)
| qv_object (fields : list (string * QueryValue)).

(** The keys of [req.query] the schema reads; [z.object] strips the others. *)
Record Query := {
  q_search : option QueryValue;
  q_difficulty : option QueryValue;
  q_maxPrepTime : option QueryValue;
  q_makeable : option QueryValue;
  q_page : option QueryValue;
  q_limit : option QueryValue
}.

(** The checks of zod the schema is built from; [None] is a [ZodError]. *)
Definition z_string (v : QueryValue) : option string :=
  match v with
  | qv_string s => Some s
  | qv_array _ | qv_object _ => None
  end.

(** [z.number()] and [z.boolean()] do not coerce: they accept a value
    whose [typeof] is "number" or "boolean", which no query value is. *)
Definition z_number (v : QueryValue) : option Z :=
  match v with
  | qv_string _ | qv_array _ | qv_object _ => None
  end.

Definition z_boolean (v : QueryValue) : option bool :=
  match v with
  | qv_string _ | qv_array _ | qv_object _ => None
  end.

(** [z.enum(["easy", "medium", "hard"])] *)
Definition z_enum_difficulty (v : QueryValue) : option Difficulty :=
  match z_string v with
  | Some s =>
      if String.eqb s "easy" then Some easy
      else if String.eqb s "medium" then Some medium
      else if String.eqb s "hard" then Some hard
      else None
  | None => None
  end.

(** [z.number().int().positive()], with [.max(m)] when a bound is given. *)
Definition z_positive_int (max : option Z) (v : QueryValue) : option Z :=
  match z_number v with
  | Some n =>
      if (0 <? n) && match max with Some m => n <=? m | None => true end
      then Some n else None
  | None => None
  end.

(** [.optional()] and [.default(d)]: an absent key passes. *)
Definition z_optional {A : Type} (check : QueryValue -> option A)
    (v : option QueryValue) : option (option A) :=
  match v with
  | None => Some None
  | Some x => option_map Some (check x)
  end.

Definition z_default {A : Type} (d : A) (check : QueryValue -> option A)
    (v : option QueryValue) : option A :=
  match v with
  | None => Some d
  | Some x => check x
  end.

(** [filterSchema.parse(req.query)]: the parsed filters, or [None] when it
    throws a [ZodError]. *)
Definition filterSchema_parse (q : Query) : option Filters :=
  match z_optional z_string (q_search q),
        z_optional z_enum_difficulty (q_difficulty q),
        z_optional (z_positive_int None) (q_maxPrepTime q),
        z_optional z_boolean (q_makeable q),
        z_default 1 (z_positive_int None) (q_page q),
        z_default 20 (z_positive_int (Some 50)) (q_limit q) with
  | Some search, Some difficulty, Some maxPrepTime, Some makeable, Some page, Some limit =>
      Some {| f_search := search; f_difficulty := difficulty;
              f_maxPrepTime := maxPrepTime; f_makeable := makeable;
              f_page := page; f_limit := limit |}
  | _, _, _, _, _, _ => None
  end.

(** A recipe as the listing and the detail route format it. *)
Record ListedRecipe := {
  lr_recipe : Recipe;
  lr_isFavorite : bool
}.

Record Pagination := {
  pg_page : Z;
  pg_limit : Z;
  pg_total : nat;
  pg_totalPages : Z
}.

Record ListResponse := {
  ls_success : bool;
  ls_recipes : list ListedRecipe;
  ls_pagination : Pagination
}.

Section Listing.

(** The database's case-insensitive [contains] (haystack, needle) and its
    [orderBy: { createdAt: "desc" }] are taken as they come. *)
Variable icontains : string -> string -> bool.
Variable orderByCreatedAtDesc : list Recipe -> list Recipe.

Variable db : DB.
Variable userId : string.
Variable f : Filters.

(** [if (search) where.OR = ...]: an empty search string is no filter;
    a recipe without description matches on its title only. *)
Definition where_search (r : Recipe) : bool :=
  match f_search f with
  | None => true
  | Some EmptyString => true
  | Some s =>
      icontains (r_title r) s
      || match r_description r with Some d => icontains d s | None => false end
  end.

Definition where_difficulty (r : Recipe) : bool :=
  match f_difficulty f with
  | None => true
  | Some d => Difficulty_eqb (r_difficulty r) d
  end.

(** [if (maxPrepTime) where.prepTime = { lte: maxPrepTime }]: a recipe
    without preparation time does not satisfy the comparison. *)
Definition where_prepTime (r : Recipe) : bool :=
  match f_maxPrepTime f with
  | None => true
  | Some 0 => true
  | Some m => match r_prepTime r with Some t => t <=? m | None => false end
  end.

(** The clause built before [makeable] is looked at. *)
Definition where_base (r : Recipe) : bool :=
  where_search r && where_difficulty r && where_prepTime r.

(** [recipe.ingredients.every(ri => availableIngredientIds.includes(...))] *)
Definition all_ingredients_available (r : Recipe) : bool :=
  forallb (fun ri => includes (availableIngredientIds db userId) (ri_ingredientId ri))
          (r_ingredients r).

(** The identifiers collected for [where.id = { in: recipeIds }]. *)
Definition makeable_recipeIds : list string :=
  map r_id (filter all_ingredients_available (filter where_base (tbl_recipe db))).

Definition where_all (r : Recipe) : bool :=
  where_base r
  && match f_makeable f with
     | Some true => includes makeable_recipeIds (r_id r)
     | _ => true
     end.

(** All rows that satisfy [where], in the order of the query. *)
Definition listing_rows : list Recipe :=
  orderByCreatedAtDesc (filter where_all (tbl_recipe db)).

Definition formatRecipe (r : Recipe) : ListedRecipe :=
  {| lr_recipe := r;
     lr_isFavorite := negb (Nat.eqb (List.length (recipe_favoriteRecipes db userId r)) 0) |}.

(** [skip: (page - 1) * limit, take: limit] *)
Definition listing_page : list Recipe :=
  firstn (Z.to_nat (f_limit f))
         (skipn (Z.to_nat ((f_page f - 1) * f_limit f)) listing_rows).

(** [prisma.recipe.count({ where })] *)
Definition listing_total : nat := List.length (filter where_all (tbl_recipe db)).

(** The handler once the query is parsed: what it sends with [res.json]. *)
Definition listRecipes_with : ListResponse :=
  {| ls_success := true;
     ls_recipes := map formatRecipe listing_page;
     ls_pagination :=
       {| pg_page := f_page f;
          pg_limit := f_limit f;
          pg_total := listing_total;
          pg_totalPages := Math_ceil (div (of_nat listing_total) (of_Z (f_limit f))) |} |}.

End Listing.

(** What GET /recipes answers: the listing, or status 400 with
    [success: false] and the message of the first issue of the [ZodError]. *)
Inductive ListReply :=
| list_ok (resp : ListResponse)
| list_bad_request.

(** The handler of GET /recipes. *)
Definition listRecipes (icontains : string -> string -> bool)
    (orderByCreatedAtDesc : list Recipe -> list Recipe)
    (db : DB) (userId : string) (q : Query) : ListReply :=
  match filterSchema_parse q with
  | Some f => list_ok (listRecipes_with icontains orderByCreatedAtDesc db userId f)
  | None => list_bad_request
  end.

(** ** GET /recipes/:id *)

Record DetailResponse := {
  dt_status : Z;
  dt_success : bool;
  dt_recipe : option ListedRecipe
}.

(** [prisma.recipe.findUnique({ where: { id } })] *)
Definition findRecipe (db : DB) (id : string) : option Recipe :=
  find (fun r => String.eqb (r_id r) id) (tbl_recipe db).

Definition getRecipe (db : DB) (userId id : string) : DetailResponse :=
  match findRecipe db id with
  | None => {| dt_status := 404; dt_success := false; dt_recipe := None |}
  | Some r => {| dt_status := 200; dt_success := true;
                 dt_recipe := Some (formatRecipe db userId r) |}
  end.

(** ** POST and DELETE /recipes/:id/favorite, DELETE /recipes/:id *)

Record Reply := {
  rp_status : Z;
  rp_success : bool;
  rp_message : string
}.

(** [prisma.favoriteRecipe.findUnique({ where: { userId_recipeId } })] *)
Definition findFavorite (db : DB) (userId recipeId : string) : option FavoriteRecipe :=
  find (fun fv => String.eqb (fav_userId fv) userId && String.eqb (fav_recipeId fv) recipeId)
       (tbl_favoriteRecipe db).

(** The handler of POST /recipes/:id/favorite: the reply and the snapshot
    it leaves.  [rowId] is the identifier the database gives the new row. *)
Definition addFavorite (db : DB) (userId id rowId : string) : Reply * DB :=
  match findRecipe db id with
  | None =>
      ({| rp_status := 404; rp_success := false;
          rp_message := "Recette non trouvée" |}, db)
  | Some _ =>
      match findFavorite db userId id with
      | Some _ =>
          ({| rp_status := 400; rp_success := false;
              rp_message := "Cette recette est déjà dans vos favoris" |}, db)
      | None =>
          ({| rp_status := 200; rp_success := true;
              rp_message := "Recette ajoutée aux favoris" |},
           {| tbl_fridgeItem := tbl_fridgeItem db;
              tbl_recipe := tbl_recipe db;
              tbl_favoriteRecipe :=
                tbl_favoriteRecipe db
                ++ [{| fav_id := rowId; fav_userId := userId; fav_recipeId := id |}] |})
      end
  end.

(** The handler of DELETE /recipes/:id/favorite.  The pair (userId,
    recipeId) is a unique key of the table: deleting by it removes the rows
    that carry it. *)
Definition removeFavorite (db : DB) (userId id : string) : Reply * DB :=
  match findFavorite db userId id with
  | None =>
      ({| rp_status := 404; rp_success := false;
          rp_message := "Cette recette n'est pas dans vos favoris" |}, db)
  | Some _ =>
      ({| rp_status := 200; rp_success := true;
          rp_message := "Recette retirée des favoris" |},
       {| tbl_fridgeItem := tbl_fridgeItem db;
          tbl_recipe := tbl_recipe db;
          tbl_favoriteRecipe :=
            filter (fun fv => negb (String.eqb (fav_userId fv) userId
                                    && String.eqb (fav_recipeId fv) id))
                   (tbl_favoriteRecipe db) |})
  end.

(** The handler of DELETE /recipes/:id: the reply and, when it asks the
    database to delete a recipe, the identifier of that recipe. *)
Definition deleteRecipe (db : DB) (userId id : string) : Reply * option string :=
  match findRecipe db id with
  | None =>
      ({| rp_status := 404; rp_success := false;
          rp_message := "Recette non trouvée" |}, None)
  | Some r =>
      if negb (match r_createdById r with
               | Some c => String.eqb c userId
               | None => false
               end)
         || (negb (match r_source r with Some s => String.eqb s "ai_generated" | None => false end)
             && negb (match r_source r with Some s => String.eqb s "user" | None => false end))
      then ({| rp_status := 403; rp_success := false;
               rp_message := "Vous n'êtes pas autorisé à supprimer cette recette" |}, None)
      else ({| rp_status := 200; rp_success := true;
               rp_message := "Recette supprimée avec succès" |}, Some (r_id r))
  end.

(** ** middleware/auth.ts *)

Record User := {
  u_id : string;
  u_email : string;
  u_firstName : string;
  u_lastName : string
}.

(** The space character. *)
Definition space : Ascii.ascii := Ascii.ascii_of_nat 32.

(** [s.split(sep)] for a separator of one character. *)
Fixpoint split_on (sep : Ascii.ascii) (s : string) : list string :=
  match s with
  | EmptyString => [EmptyString]
  | String c s' =>
      if Ascii.eqb c sep then EmptyString :: split_on sep s'
      else match split_on sep s' with
           | w :: ws => String c w :: ws
           | [] => [String c EmptyString]
           end
  end.

Inductive AuthOutcome :=
| auth_next (userId : string) (user : User)
| auth_reply (status : Z) (message : string).

Section Auth.

(** [jwt.verify(token, secret)]: the [userId] of the payload, or [None]
    when it throws a [JsonWebTokenError]. *)
Variable jwt_verify : string -> option string.
Variable users : list User.

(** [authHeader && authHeader.split(" ")[1]] *)
Definition bearer_token (authorization : option string) : option string :=
  match authorization with
  | None => None
  | Some EmptyString => Some EmptyString
  | Some h => nth_error (split_on space h) 1
  end.

Definition authenticateToken (authorization : option string) : AuthOutcome :=
  match bearer_token authorization with
  | None | Some EmptyString => auth_reply 401 "Token d'accès manquant"
  | Some token =>
      match jwt_verify token with
      | None => auth_reply 401 "Token invalide"
      | Some uid =>
          match find (fun u => String.eqb (u_id u) uid) users with
          | None => auth_reply 401 "Token invalide"
          | Some u => auth_next (u_id u) u
          end
      end
  end.

End Auth.

(** ** Vocabulary of the further properties *)

(** The non-favorite recipes with at least one required ingredient on hand. *)
Definition candidates (db : DB) (userId : string) : list Recipe :=
  filter (fun r => negb (Nat.eqb (availableIngredients db userId r) 0)
                   && negb (includes (favoriteIdsSet db userId) (r_id r)))
         (tbl_recipe db).

(** No two favorite rows for the same user and recipe. *)
Definition favorites_unique (db : DB) : Prop :=
  NoDup (map (fun fv => (fav_userId fv, fav_recipeId fv)) (tbl_favoriteRecipe db)).

(** Every favorite row points to a recipe of the catalog. *)
Definition favorites_refer (db : DB) : Prop :=
  forall fv, In fv (tbl_favoriteRecipe db) -> findRecipe db (fav_recipeId fv) <> None.

(** The scored recipes that pass the filter of [suggestions], sorted. *)
Definition ranked (db : DB) (userId : string) : list ScoredRecipe :=
  Array_sort (fun a b => sub (sr_score b) (sr_score a))
    (filter (fun s => gt (sr_score s) (of_Z 0)
                      && negb (includes (favoriteIdsSet db userId) (r_id (sr_recipe s))))
            (scoredRecipes db userId)).

(** The entry [suggestions] builds from a scored recipe. *)
Definition suggestionPayload (db : DB) (userId : string) (s : ScoredRecipe) : RecipePayload :=
  {| p_recipe := sr_recipe s;
     p_ingredients := ingredientsPayload db userId (sr_recipe s);
     isFavorite := negb (Nat.eqb (List.length (recipe_favoriteRecipes db userId (sr_recipe s))) 0);
     compatibilityScore := Math_round (sr_score s);
     missingIngredientsCount := sr_missingIngredients s |}.

(** Descending order of the unrounded scores. *)
Definition raw_desc (a b : ScoredRecipe) : Prop :=
  (to_Q (sr_score b) <= to_Q (sr_score a))%Q.

(** ** Further snapshots *)

(** Nine favorites leave one slot; A (1 of 2) and B (1 of 1) compete for it. *)
Definition db_one_slot : DB :=
  let favs := map (fun id => Fixtures.mkRecipe id ["chicken"%string]) (Fixtures.names "F" 9) in
  {| tbl_fridgeItem := [Fixtures.mkFridgeItem "u" "tomato" 1];
     tbl_recipe := favs ++ [Fixtures.mkRecipe "A" ["tomato"; "garlic"]%string;
                            Fixtures.mkRecipe "B" ["tomato"%string]];
     tbl_favoriteRecipe := Fixtures.favorites_of "u" favs |}.

(** The kitchen after user u bought garlic. *)
Definition db_kitchen_restocked : DB :=
  {| tbl_fridgeItem := Fixtures.mkFridgeItem "u" "garlic" 3 :: tbl_fridgeItem Fixtures.db_kitchen;
     tbl_recipe := tbl_recipe Fixtures.db_kitchen;
     tbl_favoriteRecipe := tbl_favoriteRecipe Fixtures.db_kitchen |}.

(** ** GET /recipes/favorites *)

(** An entry of the favorites list: the recipe of the row, the constant
    flag, and the row the field [favoriteAddedAt] is read from. *)
Record FavoriteEntry := {
  fe_recipe : Recipe;
  fe_isFavorite : bool;
  fe_row : FavoriteRecipe
}.

Section Favorites.

(** The database's [orderBy: { addedAt: "desc" }] is taken as it comes. *)
Variable orderByAddedAtDesc : list FavoriteRecipe -> list FavoriteRecipe.

(** [include: { recipe }] joins each row with the recipe it points to; a
    row is stored only with such a recipe. *)
Definition getFavorites (db : DB) (userId : string) : list FavoriteEntry :=
  flat_map (fun fv => match findRecipe db (fav_recipeId fv) with
                      | Some r => [{| fe_recipe := r; fe_isFavorite := true; fe_row := fv |}]
                      | None => []
                      end)
           (orderByAddedAtDesc (favoriteRecipeIds db userId)).

End Favorites.

Definition latest_first (l : list FavoriteRecipe) : list FavoriteRecipe := rev l.

(** ** Vocabulary and examples for the middleware and the listing *)

(** A string without a space character. *)
Fixpoint space_free (s : string) : bool :=
  match s with
  | EmptyString => true
  | String c s' => negb (Ascii.eqb c space) && space_free s'
  end.

(** The registered users of the examples. *)
Definition users_demo : list User :=
  [{| u_id := "u"; u_email := "u@example.org"; u_firstName := "Ada"; u_lastName := "L" |};
   {| u_id := "v"; u_email := "v@example.org"; u_firstName := "Bob"; u_lastName := "M" |}].

(** A verifier that accepts the tokens tok-u, tok-v and tok-gone. *)
Definition jwt_demo (token : string) : option string :=
  if String.eqb token "tok-u" then Some "u"%string
  else if String.eqb token "tok-v" then Some "v"%string
  else if String.eqb token "tok-gone" then Some "gone"%string
  else None.

(** GET /recipes without a query string, with ?makeable=true and with
    ?page=2&limit=2. *)
Definition query_none : Query :=
  {| q_search := None; q_difficulty := None; q_maxPrepTime := None;
     q_makeable := None; q_page := None; q_limit := None |}.

Definition query_makeable : Query :=
  {| q_search := None; q_difficulty := None; q_maxPrepTime := None;
     q_makeable := Some (qv_string "true"); q_page := None; q_limit := None |}.

Definition query_page_two : Query :=
  {| q_search := None; q_difficulty := None; q_maxPrepTime := None;
     q_makeable := None; q_page := Some (qv_string "2"); q_limit := Some (qv_string "2") |}.

(** A database that matches every search and returns rows newest first,
    the catalog being stored oldest first. *)
Definition icontains_any (haystack needle : string) : bool := true.
Definition newest_first (l : list Recipe) : list Recipe := rev l.

Ltac nodup_by_computation :=
  vm_compute; repeat (constructor; [cbn [In]; intuition discriminate|]); constructor.
(** ** Binary64 rounding: what [div], [mul] and [sub] compute *)

Lemma digits2_pos_bounds (p : positive) :
  2 ^ (Z.pos (digits2_pos p) - 1) <= Z.pos p < 2 ^ Z.pos (digits2_pos p).
Proof.
  induction p as [p IH|p IH|]; simpl digits2_pos.
  - rewrite Pos2Z.inj_succ, Z.pow_succ_r by lia.
    replace (Z.succ (Z.pos (digits2_pos p)) - 1) with (Z.succ (Z.pos (digits2_pos p) - 1)) by lia.
    rewrite Z.pow_succ_r by lia. lia.
  - rewrite Pos2Z.inj_succ, Z.pow_succ_r by lia.
    replace (Z.succ (Z.pos (digits2_pos p)) - 1) with (Z.succ (Z.pos (digits2_pos p) - 1)) by lia.
    rewrite Z.pow_succ_r by lia. lia.
  - simpl. lia.
Qed.

Lemma digits2_pos_unique (p : positive) (d : Z) :
  2 ^ (d - 1) <= Z.pos p < 2 ^ d -> Z.pos (digits2_pos p) = d.
Proof.
  intros [Hlo Hhi]. pose proof (digits2_pos_bounds p) as [Blo Bhi].
  set (d' := Z.pos (digits2_pos p)) in *.
  assert (0 < d) by (destruct d; simpl in Hhi; lia).
  destruct (Z.lt_trichotomy d' d) as [L|[E|G]]; [exfalso| exact E | exfalso].
  - assert (2 ^ d' <= 2 ^ (d - 1)) by (apply Z.pow_le_mono_r; lia). lia.
  - assert (2 ^ d <= 2 ^ (d' - 1)) by (apply Z.pow_le_mono_r; lia). lia.
Qed.

Lemma shr_1_inv (X D k : Z) (mrs : shr_record) :
  0 < D -> 0 <= k -> shr_inv X D k mrs -> shr_inv X D (k + 1) (shr_1 mrs).
Proof.
  intros HD Hk. unfold shr_inv.
  rewrite Z.pow_add_r, Z.pow_1_r by lia.
  assert (0 < D * 2 ^ k) as HDk by (apply Z.mul_pos_pos; [lia | apply Z.pow_pos_nonneg; lia]).
  replace (D * (2 ^ k * 2)) with (2 * (D * 2 ^ k)) by ring.
  generalize dependent (D * 2 ^ k). intros Dk HDk.
  destruct mrs as [m r s]. simpl shr_m; simpl shr_r; simpl shr_s.
  intros (Hm & Hb & Hl).
  destruct m as [|[p|p|]|p]; cbn [shr_1 shr_m shr_r shr_s].
  all: destruct r, s; cbn [orb loc_ok] in *.
  all: try lia.
Qed.

Lemma iter_pos_shr_inv (X D : Z) (p : positive) :
  0 < D -> forall k mrs, 0 <= k -> shr_inv X D k mrs ->
  shr_inv X D (k + Z.pos p) (iter_pos shr_1 p mrs).
Proof.
  intro HD. induction p as [p IH|p IH|]; intros k mrs Hk H; cbn [iter_pos].
  - replace (k + Z.pos p~1) with (((k + 1) + Z.pos p) + Z.pos p) by lia.
    apply IH; [lia|]. apply IH; [lia|]. now apply shr_1_inv.
  - replace (k + Z.pos p~0) with ((k + Z.pos p) + Z.pos p) by lia.
    apply IH; [lia|]. now apply IH.
  - now apply shr_1_inv.
Qed.

Lemma shr_record_of_loc_inv (m X D : Z) (l : location) :
  0 <= m -> inbetween m X D l -> shr_inv X D 0 (shr_record_of_loc m l).
Proof.
  intros Hm [Hb Hl]. unfold shr_inv. rewrite Z.pow_0_r, Z.mul_1_r.
  destruct l as [|[| |]]; cbn [shr_record_of_loc shr_m shr_r shr_s loc_ok]; lia.
Qed.

Lemma shr_spec (X D : Z) (mrs : shr_record) (e n : Z) :
  0 < D -> 0 <= n -> shr_inv X D 0 mrs ->
  shr_inv X D n (fst (shr mrs e n)) /\ snd (shr mrs e n) = e + n.
Proof.
  intros HD Hn H. destruct n as [|p|p]; cbn [shr fst snd]; try lia.
  - split; [assumption | lia].
  - split; [|reflexivity]. now apply (iter_pos_shr_inv X D p HD 0 mrs).
Qed.

Lemma round_nearest_even_spec (X D k : Z) (mrs : shr_record) :
  shr_inv X D k mrs ->
  let mr := round_nearest_even (shr_m mrs) (loc_of_shr_record mrs) in
  (mr = shr_m mrs \/ mr = shr_m mrs + 1)
  /\ - (D * 2 ^ k) <= 2 * (X - mr * (D * 2 ^ k)) <= D * 2 ^ k.
Proof.
  unfold shr_inv. generalize (D * 2 ^ k). intros Dk (Hm & Hb & Hl).
  destruct mrs as [m r s]. cbn [shr_m shr_r shr_s] in *.
  destruct r, s; cbn [loc_of_shr_record round_nearest_even loc_ok] in *;
    try destruct (Z.even m); lia.
Qed.

Lemma fexp_normal (k : Z) : -1021 <= k -> fexp prec emax k = k - 53.
Proof. intro H. unfold fexp, emin, prec, emax. lia. Qed.

Lemma binary_round_aux_normal (sx : bool) (p : positive) (ex : Z) (lx : location) (X D : Z) :
  0 < D -> inbetween (Z.pos p) X D lx ->
  53 <= Z.pos (digits2_pos p) ->
  -1074 <= ex ->
  ex + Z.pos (digits2_pos p) <= 1023 ->
  exists m' e',
    binary_round_aux prec emax sx (Z.pos p) ex lx = S754_finite sx m' e'
    /\ 2 ^ 52 <= Z.pos m' < 2 ^ 53
    /\ (e' = ex + Z.pos (digits2_pos p) - 53 \/ e' = ex + Z.pos (digits2_pos p) - 52)
    /\ - (D * 2 ^ (e' - ex)) <= 2 * (X - Z.pos m' * (D * 2 ^ (e' - ex))) <= D * 2 ^ (e' - ex).
Proof.
  intros HD Hin Hd Hex Hmax.
  pose proof (digits2_pos_bounds p) as Hdig.
  set (d := Z.pos (digits2_pos p)) in *.
  unfold binary_round_aux, shr_fexp. cbn [Zdigits2]. fold d.
  rewrite fexp_normal by lia.
  replace (d + ex - 53 - ex) with (d - 53) by lia.
  assert (0 <= d - 53) as Hn by lia.
  assert (0 <= Z.pos p) as Hp by lia.
  destruct (shr_spec X D (shr_record_of_loc (Z.pos p) lx) ex (d - 53) HD Hn
              (shr_record_of_loc_inv _ _ _ _ Hp Hin)) as [Hinv He].
  destruct (shr (shr_record_of_loc (Z.pos p) lx) ex (d - 53)) as [mrs1 e1].
  cbn [fst snd] in Hinv, He. subst e1.
  pose proof (round_nearest_even_spec X D (d - 53) mrs1 Hinv) as Hr.
  cbv zeta in Hr.
  set (mr := round_nearest_even (shr_m mrs1) (loc_of_shr_record mrs1)) in *.
  destruct Hr as [Hmr Hbound].
  destruct Hinv as (Hm1 & Hb1 & _). destruct Hin as [Hin _].
  set (N := 2 ^ (d - 53)) in *.
  assert (0 < N) as HN by (apply Z.pow_pos_nonneg; lia).
  assert (2 ^ (d - 1) = 2 ^ 52 * N) as E1
    by (unfold N; rewrite <- Z.pow_add_r by lia; f_equal; lia).
  assert (2 ^ d = 2 ^ 53 * N) as E2
    by (unfold N; rewrite <- Z.pow_add_r by lia; f_equal; lia).
  assert (2 ^ 52 <= shr_m mrs1 < 2 ^ 53) as Hm1b.
  { set (m1 := shr_m mrs1) in *.
    assert (0 < D * N) as HDN by (apply Z.mul_pos_pos; lia).
    split.
    - assert (2 ^ 52 * (D * N) < (m1 + 1) * (D * N)) as L by nia.
      apply Z.mul_lt_mono_pos_r in L; lia.
    - assert (m1 * (D * N) < 2 ^ 53 * (D * N)) as L by nia.
      apply Z.mul_lt_mono_pos_r in L; lia. }
  clearbody mr. clear Hb1 Hm1.
  assert (2 ^ 52 <= mr <= 2 ^ 53) as Hmrb by lia.
  destruct (Z.eq_dec mr (2 ^ 53)) as [Etop|Ntop].
  - (* the rounding carried into a 54th digit *)
    subst mr. exists 4503599627370496%positive, (ex + d - 52).
    change (Zdigits2 (2 ^ 53)) with 54.
    rewrite fexp_normal by lia.
    replace (54 + (ex + (d - 53)) - 53 - (ex + (d - 53))) with 1 by lia.
    cbn [shr shr_record_of_loc iter_pos]. 
    change (shr_1 {| shr_m := 2 ^ 53; shr_r := false; shr_s := false |})
      with {| shr_m := 4503599627370496; shr_r := false; shr_s := false |}.
    cbn [shr_m].
    replace (ex + (d - 53) + 1 <=? emax - prec) with true
      by (symmetry; apply Z.leb_le; unfold emax, prec; lia).
    split; [f_equal; lia|].
    change (Z.pos 4503599627370496) with (2 ^ 52) in *.
    split; [lia|]. split; [right; reflexivity|].
    replace (ex + d - 52 - ex) with ((d - 53) + 1) by lia.
    rewrite Z.pow_add_r by lia. fold N. lia.
  - destruct mr as [|q|q]; try lia.
    exists q, (ex + d - 53).
    assert (Z.pos (digits2_pos q) = 53) as Dq
      by (apply digits2_pos_unique; change (53 - 1) with 52; lia).
    cbn [Zdigits2]. rewrite Dq.
    rewrite fexp_normal by lia.
    replace (53 + (ex + (d - 53)) - 53 - (ex + (d - 53))) with 0 by lia.
    cbn [shr shr_record_of_loc shr_m].
    replace (ex + (d - 53) <=? emax - prec) with true
      by (symmetry; apply Z.leb_le; unfold emax, prec; lia).
    split; [f_equal; lia|]. split; [lia|]. split; [left; reflexivity|].
    replace (ex + d - 53 - ex) with (d - 53) by lia. fold N. lia.
Qed.

Lemma binary_round_aux_exact (sx : bool) (p : positive) (ex : Z) :
  Z.pos (digits2_pos p) = 53 -> -1074 <= ex <= 971 ->
  binary_round_aux prec emax sx (Z.pos p) ex loc_Exact = S754_finite sx p ex.
Proof.
  intros Hd Hex. unfold binary_round_aux, shr_fexp. cbn [Zdigits2].
  rewrite Hd, fexp_normal by lia.
  replace (53 + ex - 53 - ex) with 0 by lia.
  cbn [shr shr_record_of_loc shr_m shr_r shr_s loc_of_shr_record round_nearest_even Zdigits2].
  rewrite Hd, fexp_normal by lia.
  replace (53 + ex - 53 - ex) with 0 by lia.
  cbn [shr shr_m].
  replace (ex <=? emax - prec) with true
    by (symmetry; apply Z.leb_le; unfold emax, prec; lia).
  reflexivity.
Qed.

Lemma new_location_inbetween (q r D : Z) :
  0 <= r < D -> inbetween q (q * D + r) D (new_location D r).
Proof.
  intros Hr. unfold inbetween. split; [lia|].
  unfold new_location, new_location_even, new_location_odd.
  destruct (Z.even D) eqn:Ev.
  - destruct (Z.eqb_spec r 0); [lia|].
    destruct (Z.compare_spec (2 * r) D); lia.
  - destruct (Z.eqb_spec r 0); [lia|].
    assert (Z.odd D = true) as Od by (rewrite <- Z.negb_even, Ev; reflexivity).
    apply Z.odd_spec in Od. destruct Od as [h Hh].
    destruct (Z.compare_spec (2 * r + 1) D); lia.
Qed.

Lemma iter_xO_value (p k : positive) :
  Z.pos (Pos.iter xO p k) = Z.pos p * 2 ^ Z.pos k.
Proof.
  induction k as [|k IH] using Pos.peano_ind.
  - cbn [Pos.iter]. lia.
  - rewrite Pos.iter_succ, Pos2Z.inj_xO, IH, Pos2Z.inj_succ, Z.pow_succ_r by lia. ring.
Qed.

Lemma shl_align_value (mx : positive) (ex ex' : Z) :
  ex' <= ex ->
  Z.pos (fst (shl_align mx ex ex')) = Z.pos mx * 2 ^ (ex - ex')
  /\ snd (shl_align mx ex ex') = ex'.
Proof.
  intro H. unfold shl_align.
  destruct (ex' - ex) as [|k|k] eqn:E; cbn [fst snd]; try lia.
  - replace (ex - ex') with 0 by lia. split; lia.
  - rewrite iter_xO_value. replace (ex - ex') with (Z.pos k) by lia. split; reflexivity.
Qed.

Lemma shl_align_keep (mx : positive) (ex ex' : Z) :
  ex <= ex' -> shl_align mx ex ex' = (mx, ex).
Proof.
  intro H. unfold shl_align. destruct (ex' - ex) eqn:E; try reflexivity. lia.
Qed.

(** Rounding an integer mantissa that is not too large is rounding in the
    normal range: the result is finite, with the sign given. *)
Lemma binary_round_normal (sx : bool) (p : positive) (ex : Z) :
  -1000 <= ex -> ex + Z.pos (digits2_pos p) <= 1000 ->
  exists m' e',
    binary_round prec emax sx p ex = S754_finite sx m' e'
    /\ 2 ^ 52 <= Z.pos m' < 2 ^ 53
    /\ (Z.pos (digits2_pos p) <= 53 ->
        e' = ex + Z.pos (digits2_pos p) - 53
        /\ Z.pos m' = Z.pos p * 2 ^ (53 - Z.pos (digits2_pos p))).
Proof.
  intros Hex Hmax. unfold binary_round.
  pose proof (digits2_pos_bounds p) as Hdig.
  set (d := Z.pos (digits2_pos p)) in *.
  assert (0 < d) by (unfold d; lia).
  rewrite fexp_normal by lia.
  destruct (Z.le_gt_cases d 53) as [Hle|Hgt].
  - destruct (shl_align_value p ex (d + ex - 53) ltac:(lia)) as [Hv He].
    destruct (shl_align p ex (d + ex - 53)) as [mz ez]. cbn [fst snd] in *. subst ez.
    replace (ex - (d + ex - 53)) with (53 - d) in Hv by lia.
    assert (2 ^ 52 <= Z.pos mz < 2 ^ 53) as Hb.
    { rewrite Hv.
      assert (2 ^ 52 = 2 ^ (d - 1) * 2 ^ (53 - d)) as ->
        by (rewrite <- Z.pow_add_r by lia; f_equal; lia).
      assert (2 ^ 53 = 2 ^ d * 2 ^ (53 - d)) as ->
        by (rewrite <- Z.pow_add_r by lia; f_equal; lia).
      assert (0 < 2 ^ (53 - d)) by (apply Z.pow_pos_nonneg; lia).
      split; [apply Z.mul_le_mono_nonneg_r | apply Z.mul_lt_mono_pos_r]; lia. }
    exists mz, (d + ex - 53). rewrite binary_round_aux_exact.
    + split; [reflexivity|]. split; [assumption|]. intros _. split; [lia | assumption].
    + apply digits2_pos_unique. change (53 - 1) with 52. assumption.
    + lia.
  - rewrite shl_align_keep by lia.
    destruct (binary_round_aux_normal sx p ex loc_Exact (Z.pos p) 1) as (m' & e' & E & Hb & _).
    + lia.
    + unfold inbetween. lia.
    + fold d. lia.
    + lia.
    + fold d. lia.
    + exists m', e'. split; [assumption|]. split; [assumption|]. lia.
Qed.

Lemma Qpow2_pos (e : Z) : (0 < 2 ^ e)%Q.
Proof. apply Qpower_0_lt. reflexivity. Qed.

Lemma Qpow2_add (a b : Z) : (2 ^ (a + b) == 2 ^ a * 2 ^ b)%Q.
Proof. apply Qpower_plus. discriminate. Qed.

Lemma Qpow2_inject (n : Z) : 0 <= n -> (2 ^ n == inject_Z (2 ^ n))%Q.
Proof. intro H. rewrite Zpower_Qpower by assumption. reflexivity. Qed.

Lemma rounded_rel_error (m' : positive) (e' e0 X : Z) (D : positive) :
  2 ^ 52 <= Z.pos m' -> e0 <= e' ->
  - (Z.pos D * 2 ^ (e' - e0)) <= 2 * (X - Z.pos m' * (Z.pos D * 2 ^ (e' - e0)))
     <= Z.pos D * 2 ^ (e' - e0) ->
  (- (u53 * to_Q (S754_finite false m' e'))
     <= to_Q (S754_finite false m' e') - (X # D) * 2 ^ e0
     <= u53 * to_Q (S754_finite false m' e'))%Q.
Proof.
  intros Hm He Hb. cbn [to_Q].
  replace e' with ((e' - e0) + e0) at 1 2 3 4 by lia.
  rewrite Qpow2_add, Qpow2_inject by lia.
  set (N := 2 ^ (e' - e0)) in *.
  assert (0 < N) as HN by (apply Z.pow_pos_nonneg; lia).
  pose proof (Qpow2_pos e0) as HP. set (P := (2 ^ e0)%Q) in *.
  assert (- (u53 * inject_Z (Z.pos m' * N)) <= inject_Z (Z.pos m' * N) - (X # D)
          <= u53 * inject_Z (Z.pos m' * N))%Q as [L U].
  { unfold u53, Qle, Qminus, Qplus, Qopp, Qmult, inject_Z. cbn [Qnum Qden].
    change (Z.pos (2 ^ 53)) with (2 ^ 53). rewrite !Pos2Z.inj_mul. 
    change (Z.pos (2 ^ 53)) with (2 ^ 53). change (2 ^ 52) with 4503599627370496 in Hm. change (2 ^ 53) with 9007199254740992. nia. }
  rewrite inject_Z_mult in *.
  split; nra.
Qed.

Lemma normal_digits (x : number) (m : positive) (e : Z) :
  normal x m e -> Z.pos (digits2_pos m) = 53.
Proof. intros [_ H]. apply digits2_pos_unique. change (53 - 1) with 52. exact H. Qed.

Lemma normal_to_Q (x : number) (m : positive) (e : Z) :
  normal x m e -> (to_Q x == inject_Z (Z.pos m) * 2 ^ e)%Q.
Proof. intros [-> _]. reflexivity. Qed.

Lemma normal_to_Q_pos (x : number) (m : positive) (e : Z) :
  normal x m e -> (0 < to_Q x)%Q.
Proof.
  intros [-> _]. cbn [to_Q]. pose proof (Qpow2_pos e).
  assert (0 < inject_Z (Z.pos m))%Q by (unfold Qlt; simpl; lia).
  nra.
Qed.

Lemma of_Z_spec (n : Z) :
  0 < n < 2 ^ 53 ->
  exists m e, normal (of_Z n) m e /\ -52 <= e <= 0 /\ (to_Q (of_Z n) == inject_Z n)%Q.
Proof.
  intros [Hlo Hhi]. destruct n as [|p|p]; try lia.
  unfold of_Z, binary_normalize.
  pose proof (digits2_pos_bounds p) as Hdig.
  assert (Z.pos (digits2_pos p) <= 53) as Hd.
  { destruct (Z.le_gt_cases (Z.pos (digits2_pos p)) 53) as [L|G]; [assumption|].
    assert (2 ^ 53 <= 2 ^ (Z.pos (digits2_pos p) - 1)) by (apply Z.pow_le_mono_r; lia). lia. }
  destruct (binary_round_normal false p 0) as (m & e & E & Hb & Hsh); try lia.
  destruct (Hsh Hd) as [He Hm].
  exists m, e. rewrite E.
  split; [split; [reflexivity | assumption]|]. split; [lia|].
  cbn [to_Q]. rewrite Hm, He, inject_Z_mult.
  rewrite <- Qpow2_inject by lia. rewrite <- Qmult_assoc, <- Qpow2_add.
  replace (53 - Z.pos (digits2_pos p) + (0 + Z.pos (digits2_pos p) - 53)) with 0 by lia.
  change (2 ^ 0)%Q with 1%Q. ring.
Qed.

Lemma mul_spec (x y : number) (mx my : positive) (ex ey : Z) :
  normal x mx ex -> normal y my ey ->
  -400 <= ex <= 400 -> -400 <= ey <= 400 ->
  exists m e,
    normal (mul x y) m e /\ ex + ey + 52 <= e <= ex + ey + 54
    /\ (- (u53 * to_Q (mul x y)) <= to_Q (mul x y) - to_Q x * to_Q y
        <= u53 * to_Q (mul x y))%Q.
Proof.
  intros Hx Hy Hex Hey.
  pose proof (normal_to_Q _ _ _ Hx) as Qx. pose proof (normal_to_Q _ _ _ Hy) as Qy.
  destruct Hx as [-> Bx], Hy as [-> By].
  unfold mul, SFmul. cbn [xorb].
  pose proof (digits2_pos_bounds (mx * my)) as Hdig.
  set (d := Z.pos (digits2_pos (mx * my))) in *.
  rewrite Pos2Z.inj_mul in Hdig.
  assert (2 ^ 104 <= Z.pos mx * Z.pos my < 2 ^ 106) as Hprod.
  { change (2 ^ 104) with (2 ^ 52 * 2 ^ 52). change (2 ^ 106) with (2 ^ 53 * 2 ^ 53).
    change (2 ^ 52) with 4503599627370496 in *. change (2 ^ 53) with 9007199254740992 in *. nia. }
  assert (105 <= d <= 106) as Hd.
  { split.
    - destruct (Z.le_gt_cases 105 d) as [L|G]; [assumption|].
      assert (2 ^ d <= 2 ^ 104) by (apply Z.pow_le_mono_r; lia). lia.
    - destruct (Z.le_gt_cases d 106) as [L|G]; [assumption|].
      assert (2 ^ 106 <= 2 ^ (d - 1)) by (apply Z.pow_le_mono_r; lia). lia. }
  destruct (binary_round_aux_normal false (mx * my) (ex + ey) loc_Exact
              (Z.pos mx * Z.pos my) 1) as (m & e & E & Hb & He & Hbound); fold d; try lia.
  { unfold inbetween. rewrite Pos2Z.inj_mul. lia. }
  exists m, e. rewrite E.
  split; [split; [reflexivity | assumption]|]. split; [lia|].
  pose proof (rounded_rel_error m e (ex + ey) (Z.pos mx * Z.pos my) 1 ltac:(lia) ltac:(lia)) as R.
  rewrite !Z.mul_1_l in R. rewrite !Z.mul_1_l in Hbound. specialize (R Hbound).
  assert (to_Q (S754_finite false mx ex) * to_Q (S754_finite false my ey)
          == (Z.pos mx * Z.pos my # 1) * 2 ^ (ex + ey))%Q as Eq.
  { rewrite Qx, Qy, Qpow2_add.
    change (Z.pos mx * Z.pos my # 1)%Q with (inject_Z (Z.pos mx * Z.pos my)).
    rewrite inject_Z_mult. ring. }
  rewrite Eq. exact R.
Qed.

Lemma div_spec (x y : number) (mx my : positive) (ex ey : Z) :
  normal x mx ex -> normal y my ey ->
  -400 <= ex <= 400 -> -400 <= ey <= 400 ->
  exists m e,
    normal (div x y) m e /\ ex - ey - 53 <= e <= ex - ey - 51
    /\ (- (u53 * to_Q (div x y)) <= to_Q (div x y) - to_Q x / to_Q y
        <= u53 * to_Q (div x y))%Q.
Proof.
  intros Hx Hy Hex Hey.
  pose proof (normal_to_Q _ _ _ Hx) as Qx. pose proof (normal_to_Q _ _ _ Hy) as Qy.
  pose proof (normal_digits _ _ _ Hx) as Dx. pose proof (normal_digits _ _ _ Hy) as Dy.
  destruct Hx as [-> Bx], Hy as [-> By].
  unfold div, SFdiv, SFdiv_core_binary. cbn [xorb Zdigits2].
  rewrite Dx, Dy.
  replace (53 + ex - (53 + ey)) with (ex - ey) by lia.
  rewrite fexp_normal by lia.
  rewrite Z.min_l by lia.
  replace (ex - ey - (ex - ey - 53)) with 53 by lia.
  rewrite Z.shiftl_mul_pow2 by lia.
  pose proof (Z_div_mod (Z.pos mx * 2 ^ 53) (Z.pos my) ltac:(lia)) as Hdm.
  destruct (Z.div_eucl (Z.pos mx * 2 ^ 53) (Z.pos my)) as [q r].
  destruct Hdm as [Eqr Hr].
  assert (2 ^ 52 <= q < 2 ^ 54) as Hq.
  { change (2 ^ 52) with 4503599627370496 in *. change (2 ^ 53) with 9007199254740992 in *.
    change (2 ^ 54) with 18014398509481984. nia. }
  destruct q as [|pq|pq]; try lia.
  pose proof (digits2_pos_bounds pq) as Hdig.
  set (d := Z.pos (digits2_pos pq)) in *.
  assert (53 <= d <= 54) as Hd.
  { split.
    - destruct (Z.le_gt_cases 53 d) as [L|G]; [assumption|].
      assert (2 ^ d <= 2 ^ 52) by (apply Z.pow_le_mono_r; lia). lia.
    - destruct (Z.le_gt_cases d 54) as [L|G]; [assumption|].
      assert (2 ^ 54 <= 2 ^ (d - 1)) by (apply Z.pow_le_mono_r; lia). lia. }
  destruct (binary_round_aux_normal false pq (ex - ey - 53) (new_location (Z.pos my) r)
              (Z.pos mx * 2 ^ 53) (Z.pos my)) as (m & e & E & Hb & He & Hbound);
    fold d; try lia.
  { rewrite Eqr. replace (Z.pos my * Z.pos pq + r) with (Z.pos pq * Z.pos my + r) by ring.
    apply new_location_inbetween. assumption. }
  exists m, e. rewrite E.
  split; [split; [reflexivity | assumption]|]. split; [lia|].
  pose proof (rounded_rel_error m e (ex - ey - 53) (Z.pos mx * 2 ^ 53) my
                ltac:(lia) ltac:(lia) Hbound) as R.
  assert (to_Q (S754_finite false mx ex) / to_Q (S754_finite false my ey)
          == (Z.pos mx * 2 ^ 53 # my) * 2 ^ (ex - ey - 53))%Q as Eq.
  { rewrite Qx, Qy.
    replace (ex - ey - 53) with (ex + (- ey + - (53))) by lia.
    rewrite !Qpow2_add, !Qpower_opp, (Qmake_Qdiv (Z.pos mx * 2 ^ 53) my), inject_Z_mult.
    rewrite <- (Qpow2_inject 53) by lia.
    pose proof (Qpow2_pos ey). pose proof (Qpow2_pos 53).
    assert (0 < inject_Z (Z.pos my))%Q by (unfold Qlt; simpl; lia).
    field. repeat split; lra. }
  rewrite Eq. exact R.
Qed.

Lemma Qfloor_unique (y : Q) (k : Z) :
  (inject_Z k <= y)%Q -> (y < inject_Z (k + 1))%Q -> Qfloor y = k.
Proof.
  intros Hlo Hhi.
  pose proof (Qfloor_le y) as F1. pose proof (Qlt_floor y) as F2.
  assert (inject_Z k < inject_Z (Qfloor y + 1))%Q as A by (eapply Qle_lt_trans; eassumption).
  assert (inject_Z (Qfloor y) < inject_Z (k + 1))%Q as B by (eapply Qle_lt_trans; eassumption).
  rewrite <- Zlt_Qlt in A, B. lia.
Qed.

Lemma score_of_close (a t : Z) :
  0 < a <= t -> t < 2 ^ 32 ->
  exists m e,
    normal (score_of a t) m e /\ -200 <= e <= 100
    /\ (- delta <= to_Q (score_of a t) - 100 * (inject_Z a / inject_Z t) <= delta)%Q.
Proof.
  intros Ha Ht.
  destruct (of_Z_spec a) as (ma & ea & Na & Ea & Qa); [lia|].
  destruct (of_Z_spec t) as (mt & et & Nt & Et & Qt); [lia|].
  destruct (of_Z_spec 100) as (mc & ec & Nc & Ec & Qc); [lia|].
  destruct (div_spec _ _ _ _ _ _ Na Nt) as (m1 & e1 & N1 & E1 & R1); try lia.
  destruct (mul_spec _ _ _ _ _ _ N1 Nc) as (m2 & e2 & N2 & E2 & R2); try lia.
  exists m2, e2. unfold score_of. split; [assumption|]. split; [lia|].
  rewrite Qa, Qt, Qc in *.
  assert (0 < inject_Z a / inject_Z t <= 1)%Q as Hx.
  { assert (0 < inject_Z t)%Q by (unfold Qlt; simpl; lia).
    assert (0 < inject_Z a)%Q by (unfold Qlt; simpl; lia).
    split.
    - apply Qlt_shift_div_l; [assumption|]. lra.
    - apply Qle_shift_div_r; [assumption|]. rewrite Qmult_1_l, <- Zle_Qle. lia. }
  set (x := (inject_Z a / inject_Z t)%Q) in *.
  set (q1 := to_Q (div (of_Z a) (of_Z t))) in *.
  set (s := to_Q (mul (div (of_Z a) (of_Z t)) (of_Z 100))) in *.
  change (inject_Z 100) with 100%Q in *.
  unfold u53, delta in *.
  change (1 # 2 ^ 53)%Q with (1 # 9007199254740992)%Q in *.
  change (1 # 2 ^ 40)%Q with (1 # 1099511627776)%Q.
  split; lra.
Qed.

Lemma round_exact_window (a t : Z) :
  0 < t < 2 ^ 32 -> 0 <= a -> (200 * a + t) mod (2 * t) <> 0 ->
  (inject_Z ((200 * a + t) / (2 * t)) + (1 # 2 ^ 33)
     <= 100 * (inject_Z a / inject_Z t) + (1 # 2)
     <= inject_Z ((200 * a + t) / (2 * t)) + 1 - (1 # 2 ^ 33))%Q.
Proof.
  intros Ht Ha Hr.
  pose proof (Z.div_mod (200 * a + t) (2 * t) ltac:(lia)) as Hdm.
  pose proof (Z.mod_pos_bound (200 * a + t) (2 * t) ltac:(lia)) as Hb.
  set (k := (200 * a + t) / (2 * t)) in *. set (r := (200 * a + t) mod (2 * t)) in *.
  destruct t as [|tp|tp]; try lia.
  rewrite <- (Qmake_Qdiv a tp).
  clearbody k r.
  cbv [Qle Qplus Qminus Qopp Qmult inject_Z Qnum Qden].
  rewrite !Pos2Z.inj_mul. change (Z.pos (2 ^ 33)) with 8589934592.
  change (2 ^ 32) with 4294967296 in Ht.
  split; nia.
Qed.

Lemma of_Z_0 : of_Z 0 = S754_zero false.
Proof. reflexivity. Qed.

Lemma score_of_0 (t : Z) : 0 < t < 2 ^ 53 -> score_of 0 t = S754_zero false.
Proof.
  intro Ht. destruct (of_Z_spec t Ht) as (m & e & [E _] & _).
  unfold score_of. rewrite E, of_Z_0. reflexivity.
Qed.

Lemma Math_round_score_of (a t : Z) :
  0 < a <= t -> t < 2 ^ 32 -> (200 * a + t) mod (2 * t) <> 0 ->
  Math_round (score_of a t) = (200 * a + t) / (2 * t).
Proof.
  intros Ha Ht Hr.
  destruct (score_of_close a t Ha Ht) as (m & e & _ & _ & Hc).
  pose proof (round_exact_window a t ltac:(lia) ltac:(lia) Hr) as Hw.
  unfold Math_round. apply Qfloor_unique.
  - unfold delta in Hc. change (1 # 2 ^ 40)%Q with (1 # 1099511627776)%Q in Hc.
    change (1 # 2 ^ 33)%Q with (1 # 8589934592)%Q in Hw. lra.
  - rewrite inject_Z_plus. change (inject_Z 1) with 1%Q.
    unfold delta in Hc. change (1 # 2 ^ 40)%Q with (1 # 1099511627776)%Q in Hc.
    change (1 # 2 ^ 33)%Q with (1 # 8589934592)%Q in Hw. lra.
Qed.

Lemma Math_round_score_of_range (a t : Z) :
  0 <= a <= t -> 0 < t < 2 ^ 32 -> 0 <= Math_round (score_of a t) <= 100.
Proof.
  intros Ha Ht. destruct (Z.eq_dec a 0) as [->|Na].
  - rewrite score_of_0 by lia. vm_compute. split; discriminate.
  - destruct (score_of_close a t ltac:(lia) ltac:(lia)) as (m & e & Hn & _ & Hc).
    pose proof (normal_to_Q_pos _ _ _ Hn) as Hpos.
    assert (inject_Z a / inject_Z t <= 1)%Q as Hx.
    { apply Qle_shift_div_r; [unfold Qlt; simpl; lia|]. rewrite Qmult_1_l, <- Zle_Qle. lia. }
    unfold Math_round. unfold delta in Hc. change (1 # 2 ^ 40)%Q with (1 # 1099511627776)%Q in Hc.
    split.
    + change 0 with (Qfloor 0). apply Qfloor_resp_le. lra.
    + assert (Qfloor (to_Q (score_of a t) + (1 # 2)) < 101); [|lia].
      rewrite Zlt_Qlt. eapply Qle_lt_trans; [apply Qfloor_le|].
      change (inject_Z 101) with 101%Q. lra.
Qed.

Lemma digits2_pos_le (p : positive) (K : Z) :
  Z.pos p < 2 ^ K -> Z.pos (digits2_pos p) <= K.
Proof.
  intro H. pose proof (digits2_pos_bounds p) as [Hlo _].
  destruct (Z.le_gt_cases (Z.pos (digits2_pos p)) K) as [L|G]; [assumption|].
  assert (2 ^ K <= 2 ^ (Z.pos (digits2_pos p) - 1)) by (apply Z.pow_le_mono_r; lia). lia.
Qed.

Lemma gt_zero_normal (v : number) (m : positive) (e : Z) :
  normal v m e -> gt v (of_Z 0) = true.
Proof. intros [-> _]. reflexivity. Qed.

Lemma normal_aligned (v : number) (m : positive) (e ez : Z) :
  normal v m e -> ez <= e -> (to_Q v == inject_Z (Z.pos m * 2 ^ (e - ez)) * 2 ^ ez)%Q.
Proof.
  intros Hn Hle. rewrite (normal_to_Q _ _ _ Hn), inject_Z_mult.
  rewrite <- Qpow2_inject by lia. rewrite <- Qmult_assoc, <- Qpow2_add.
  replace (e - ez + ez) with e by lia. reflexivity.
Qed.

Lemma sub_sign_normal (x y : number) (mx my : positive) (ex ey : Z) :
  normal x mx ex -> normal y my ey -> -200 <= ex <= 100 -> -200 <= ey <= 100 ->
  gt (sub y x) (of_Z 0) = true <-> (to_Q x < to_Q y)%Q.
Proof.
  intros Hx Hy Hex Hey.
  set (ez := Z.min ey ex).
  pose proof (normal_aligned _ _ _ ez Hx ltac:(lia)) as Qx.
  pose proof (normal_aligned _ _ _ ez Hy ltac:(lia)) as Qy.
  destruct (shl_align_value mx ex ez ltac:(lia)) as [Vx _].
  destruct (shl_align_value my ey ez ltac:(lia)) as [Vy _].
  assert (Z.pos mx * 2 ^ (ex - ez) < 2 ^ 354 /\ Z.pos my * 2 ^ (ey - ez) < 2 ^ 354) as [Bx By].
  { destruct Hx as [_ Bx], Hy as [_ By].
    assert (2 ^ (ex - ez) < 2 ^ 301) by (apply Z.pow_lt_mono_r; lia).
    assert (2 ^ (ey - ez) < 2 ^ 301) by (apply Z.pow_lt_mono_r; lia).
    assert (0 < 2 ^ (ex - ez)) by (apply Z.pow_pos_nonneg; lia).
    assert (0 < 2 ^ (ey - ez)) by (apply Z.pow_pos_nonneg; lia).
    change (2 ^ 354) with (2 ^ 53 * 2 ^ 301).
    split; apply Z.mul_lt_mono_nonneg; lia. }
  assert (forall P : Q, (0 < P)%Q -> forall a b : Z,
            (inject_Z a * P < inject_Z b * P)%Q <-> a < b) as Hcmp.
  { intros P HP a b. rewrite Zlt_Qlt. split; intro; nra. }
  rewrite Qx, Qy, (Hcmp _ (Qpow2_pos ez)).
  destruct Hx as [-> _], Hy as [-> _].
  unfold sub, SFsub. cbn [cond_Zopp]. fold ez. rewrite Vx, Vy.
  set (Ax := Z.pos mx * 2 ^ (ex - ez)) in *. set (Ay := Z.pos my * 2 ^ (ey - ez)) in *.
  unfold binary_normalize.
  destruct (Ay - Ax) as [|p|p] eqn:E.
  - split; [discriminate | lia].
  - destruct (binary_round_normal false p ez) as (m' & e' & R & _); [lia| |].
    + pose proof (digits2_pos_le p 354). lia.
    + rewrite R. split; [lia | reflexivity].
  - destruct (binary_round_normal true p ez) as (m' & e' & R & _); [lia| |].
    + pose proof (digits2_pos_le p 354). lia.
    + rewrite R. split; [discriminate | lia].
Qed.

Lemma sub_sign (x y : number) :
  score_value x -> score_value y ->
  gt (sub y x) (of_Z 0) = true <-> (to_Q x < to_Q y)%Q.
Proof.
  intros [->|(mx & ex & Hx & Ex)] [->|(my & ey & Hy & Ey)].
  - split; [discriminate | intro H; destruct (Qlt_irrefl _ H)].
  - pose proof (normal_to_Q_pos _ _ _ Hy). destruct Hy as [-> _]. split; [auto | reflexivity].
  - pose proof (normal_to_Q_pos _ _ _ Hx) as Hp. destruct Hx as [-> _]. 
    split; [discriminate|]. intro H. exfalso. change (to_Q (S754_zero false)) with 0%Q in H. lra.
  - now apply (sub_sign_normal x y mx my ex ey).
Qed.

(** ** Lists: slices, stable sort, membership *)

Section ArrayFacts.
Context {A : Type}.

Lemma slice0_length (n : Z) (l : list A) :
  (List.length (slice0 n l) <= Z.to_nat n)%nat.
Proof. unfold slice0. rewrite length_firstn. apply Nat.le_min_l. Qed.

Lemma slice0_incl (n : Z) (l : list A) (x : A) :
  In x (slice0 n l) -> In x l.
Proof. unfold slice0. rewrite <- (firstn_skipn (Z.to_nat n) l) at 2.
  intro H. apply in_or_app. now left. Qed.

Lemma sort_insert_perm (cmp : A -> A -> number) (x : A) (l : list A) :
  Permutation (x :: l) (sort_insert cmp x l).
Proof.
  induction l as [|y l IH]; cbn [sort_insert].
  - apply Permutation_refl.
  - destruct (gt (cmp x y) (of_Z 0)).
    + eapply perm_trans; [apply perm_swap|]. now apply perm_skip.
    + apply Permutation_refl.
Qed.

Lemma Array_sort_perm (cmp : A -> A -> number) (l : list A) :
  Permutation l (Array_sort cmp l).
Proof.
  induction l as [|x l IH]; cbn [Array_sort fold_right].
  - constructor.
  - eapply perm_trans; [|apply sort_insert_perm]. now apply perm_skip.
Qed.

Lemma Array_sort_In (cmp : A -> A -> number) (l : list A) (x : A) :
  In x (Array_sort cmp l) <-> In x l.
Proof.
  split; apply Permutation_in;
    [apply Permutation_sym|]; apply Array_sort_perm.
Qed.

End ArrayFacts.

Section SortFacts.
Context {A : Type}.
Variable cmp : A -> A -> number.
Variable key : A -> Q.
Variable P : A -> Prop.
Hypothesis cmp_key : forall x y, P x -> P y ->
  (gt (cmp x y) (of_Z 0) = true <-> (key x < key y)%Q).

Lemma sort_insert_sorted (x : A) (l : list A) :
  P x -> Forall P l -> StronglySorted (desc key) l ->
  StronglySorted (desc key) (sort_insert cmp x l).
Proof.
  intros Px Pl Hs. induction l as [|y l IH]; cbn [sort_insert].
  - repeat constructor.
  - inversion Pl as [|? ? Py Pl']; subst. inversion Hs as [|? ? Hs' Hy]; subst.
    destruct (gt (cmp x y) (of_Z 0)) eqn:E.
    + apply (cmp_key x y Px Py) in E. constructor; [now apply IH|].
      rewrite Forall_forall in *. intros z Hz.
      apply (Permutation_in _ (Permutation_sym (sort_insert_perm cmp x l))) in Hz.
      destruct Hz as [<-|Hz]; [unfold desc; lra | now apply Hy].
    + assert (~ (key x < key y)%Q) as N
        by (intro L; apply (cmp_key x y Px Py) in L; congruence).
      constructor; [assumption|].
      constructor; [unfold desc; lra|].
      rewrite Forall_forall in *. intros z Hz. specialize (Hy z Hz). unfold desc in *. lra.
Qed.

Lemma Array_sort_sorted (l : list A) :
  Forall P l -> StronglySorted (desc key) (Array_sort cmp l).
Proof.
  induction l as [|x l IH]; intro Pl; cbn [Array_sort fold_right].
  - constructor.
  - inversion Pl; subst. apply sort_insert_sorted; [assumption| |now apply IH].
    rewrite Forall_forall in *. intros z Hz. apply Array_sort_In in Hz. auto.
Qed.

End SortFacts.

Lemma includes_In (ids : list string) (x : string) :
  includes ids x = true <-> In x ids.
Proof.
  unfold includes. rewrite existsb_exists. split.
  - intros (y & Hy & E). apply String.eqb_eq in E. now subst.
  - intro H. exists x. split; [assumption | apply String.eqb_refl].
Qed.

Lemma Set_of_In (ids : list string) (x : string) :
  In x (Set_of ids) <-> In x ids.
Proof.
  induction ids as [|y ids IH]; simpl; [tauto|].
  rewrite filter_In, IH. destruct (String.eqb_spec y x) as [->|N]; simpl.
  - tauto.
  - split; [tauto|]. intros [E|H]; [congruence|]. right. now split.
Qed.

(** ** What the selected non-favorites look like *)

Section SuggestionFacts.

Variable db : DB.
Variable userId : string.

Lemma suggestions_origin (p : RecipePayload) :
  In p (suggestions db userId) ->
  exists r, In r (tbl_recipe db)
    /\ p_recipe p = r
    /\ compatibilityScore p = Math_round (score db userId r)
    /\ missingIngredientsCount p = missingIngredients db userId r
    /\ gt (score db userId r) (of_Z 0) = true
    /\ includes (favoriteIdsSet db userId) (r_id r) = false.
Proof.
  unfold suggestions. rewrite in_map_iff. intros (s & <- & Hs).
  apply slice0_incl, Array_sort_In, filter_In in Hs. destruct Hs as (Hs & Hf).
  unfold scoredRecipes, allRecipes in Hs. apply in_map_iff in Hs.
  destruct Hs as (r & <- & Hr). simpl in *.
  apply andb_prop in Hf. destruct Hf as (Hpos & Hfav).
  apply negb_true_iff in Hfav. exists r. repeat split; assumption.
Qed.

Lemma suggestions_length :
  (List.length (suggestions db userId)
   <= Z.to_nat (Math_max (10 - Z.of_nat (List.length (favoriteRecipesPayload db userId))) 0))%nat.
Proof. unfold suggestions. rewrite length_map. apply slice0_length. Qed.

Lemma response_incl (p : RecipePayload) :
  In p (data_suggestions (getSuggestions db userId)) ->
  In p (suggestions db userId).
Proof.
  unfold getSuggestions.
  destruct (Nat.eqb (List.length (availableIngredientIds db userId)) 0); simpl; tauto.
Qed.

Lemma response_nonempty_inventory :
  availableIngredientIds db userId <> [] ->
  data_suggestions (getSuggestions db userId) = suggestions db userId.
Proof.
  unfold getSuggestions. intro H.
  destruct (availableIngredientIds db userId); [congruence | reflexivity].
Qed.

End SuggestionFacts.

(** ** Scores of recipes *)

Lemma round_percent_eq (a t : Z) :
  0 < t -> round_percent a t = (200 * a + t) / (2 * t).
Proof.
  intro Ht. destruct t as [|tp|tp]; try lia. unfold round_percent.
  rewrite (Qfloor_comp _ ((200 * a + Z.pos tp) # (2 * tp))).
  - reflexivity.
  - rewrite <- (Qmake_Qdiv a tp). unfold Qeq, Qplus, Qmult. cbn [Qnum Qden].
    rewrite !Pos2Z.inj_mul. ring.
Qed.

Section ScoreFacts.
Variable db : DB.
Variable userId : string.

Lemma available_le_total (r : Recipe) :
  (availableIngredients db userId r <= totalIngredients r)%nat.
Proof. unfold availableIngredients, totalIngredients. apply filter_length_le. Qed.

Lemma missing_plus_available (r : Recipe) :
  (missingIngredients db userId r + availableIngredients db userId r
   = totalIngredients r)%nat.
Proof.
  unfold missingIngredients, availableIngredients, totalIngredients.
  induction (r_ingredients r) as [|ri l IH]; cbn [filter]; [reflexivity|].
  destruct (includes (availableIngredientIds db userId) (ri_ingredientId ri));
    cbn [negb List.length]; lia.
Qed.

Lemma score_empty (r : Recipe) :
  r_ingredients r = [] -> score db userId r = of_Z 0.
Proof. intro H. unfold score, totalIngredients. rewrite H. reflexivity. Qed.

Lemma score_nonempty (r : Recipe) :
  array_ok (r_ingredients r) -> r_ingredients r <> [] ->
  score db userId r
  = score_of (Z.of_nat (availableIngredients db userId r))
             (Z.of_nat (totalIngredients r)).
Proof.
  intros Hok Hne. unfold score, score_of, of_nat.
  assert (0 < Z.of_nat (totalIngredients r) < 2 ^ 53) as Ht.
  { unfold array_ok, totalIngredients in *.
    destruct (r_ingredients r); [congruence|]. cbn [List.length] in *.
    assert (2 ^ 32 < 2 ^ 53) by reflexivity. lia. }
  destruct (of_Z_spec _ Ht) as (m & e & Hn & _).
  rewrite (gt_zero_normal _ _ _ Hn). reflexivity.
Qed.

Lemma score_is_score_value (r : Recipe) :
  array_ok (r_ingredients r) -> score_value (score db userId r).
Proof.
  intro Hok. destruct (r_ingredients r) eqn:E.
  - left. now apply score_empty.
  - rewrite score_nonempty by (assumption || congruence).
    pose proof (available_le_total r) as Hle.
    assert (0 < Z.of_nat (totalIngredients r) < 2 ^ 32) as Ht.
    { unfold array_ok, totalIngredients in *. rewrite E in *. cbn [List.length] in *. lia. }
    destruct (Nat.eq_dec (availableIngredients db userId r) 0) as [Z0|NZ].
    + left. rewrite Z0. apply score_of_0. assert (2 ^ 32 < 2 ^ 53) by reflexivity. lia.
    + right. destruct (score_of_close (Z.of_nat (availableIngredients db userId r))
                         (Z.of_nat (totalIngredients r))) as (m & e & Hn & He & _); try lia.
      exists m, e. tauto.
Qed.

(** A positive score needs an ingredient on hand. *)
Lemma score_positive_available (r : Recipe) :
  gt (score db userId r) (of_Z 0) = true ->
  (0 < availableIngredients db userId r)%nat.
Proof.
  unfold score. intro H.
  destruct (gt (of_nat (totalIngredients r)) (of_Z 0)); [|discriminate].
  destruct (availableIngredients db userId r); [|lia].
  exfalso. change (of_nat 0) with (S754_zero false) in H.
  destruct (of_nat (totalIngredients r)) as [[]|[]| |[] ? ?]; discriminate.
Qed.

End ScoreFacts.

(** ** Structure of the two result lists *)

Lemma firstn_StronglySorted {A : Type} (R : A -> A -> Prop) (n : nat) (l : list A) :
  StronglySorted R l -> StronglySorted R (firstn n l).
Proof.
  intro H. revert n. induction H as [|x l Hs IH Hx]; intro n.
  - rewrite firstn_nil. constructor.
  - destruct n; cbn [firstn]; constructor; [apply IH|].
    rewrite Forall_forall in *. intros y Hy. apply Hx.
    rewrite <- (firstn_skipn n l). apply in_or_app. now left.
Qed.

Lemma map_StronglySorted {A B : Type} (R : A -> A -> Prop) (S : B -> B -> Prop)
      (f : A -> B) (l : list A) :
  (forall x y, R x y -> S (f x) (f y)) ->
  StronglySorted R l -> StronglySorted S (map f l).
Proof.
  intros HRS H. induction H as [|x l Hs IH Hx]; cbn [map]; constructor; [assumption|].
  rewrite Forall_forall in *. intros y Hy. apply in_map_iff in Hy.
  destruct Hy as (z & <- & Hz). auto.
Qed.

Lemma Math_round_mono (x y : number) :
  (to_Q x <= to_Q y)%Q -> Math_round x <= Math_round y.
Proof. intro H. unfold Math_round. apply Qfloor_resp_le. lra. Qed.

Lemma filter_id_NoDup (l : list Recipe) (r : Recipe) :
  NoDup (map r_id l) -> In r l ->
  List.length (filter (fun x => String.eqb (r_id x) (r_id r)) l) = 1%nat.
Proof.
  induction l as [|x l IH]; intros Hnd Hin; [destruct Hin|].
  cbn [map] in Hnd. inversion Hnd as [|? ? Hx Hnd']; subst.
  cbn [filter]. destruct (String.eqb_spec (r_id x) (r_id r)) as [E|N].
  - cbn [List.length]. f_equal.
    assert (filter (fun x0 => String.eqb (r_id x0) (r_id r)) l = []) as ->; [|reflexivity].
    destruct (filter (fun x0 => String.eqb (r_id x0) (r_id r)) l) as [|y ys] eqn:F; [reflexivity|].
    assert (In y (y :: ys)) as Hy by (now left). rewrite <- F in Hy.
    apply filter_In in Hy. destruct Hy as [Hy Ey]. apply String.eqb_eq in Ey.
    exfalso. apply Hx. rewrite E, <- Ey. now apply in_map.
  - destruct Hin as [->|Hin]; [congruence|]. now apply IH.
Qed.

Lemma NoDup_map_filter {A B : Type} (g : A -> B) (f : A -> bool) (l : list A) :
  NoDup (map g l) -> NoDup (map g (filter f l)).
Proof.
  induction l as [|x l IH]; cbn [map filter]; intro H; [constructor|].
  inversion H as [|? ? Hx Hnd]; subst.
  destruct (f x); cbn [map]; [constructor|]; auto.
  intro Hin. apply Hx. apply in_map_iff in Hin. destruct Hin as (y & E & Hy).
  apply filter_In in Hy. apply in_map_iff. exists y. tauto.
Qed.

Section HandlerFacts.
Variable db : DB.
Variable userId : string.

Lemma not_favorite_no_rows (r : Recipe) :
  includes (favoriteIdsSet db userId) (r_id r) = false ->
  recipe_favoriteRecipes db userId r = [].
Proof.
  intro H. unfold recipe_favoriteRecipes.
  destruct (filter _ (tbl_favoriteRecipe db)) as [|f fs] eqn:F; [reflexivity|].
  assert (In f (f :: fs)) as Hf by (now left). rewrite <- F in Hf.
  apply filter_In in Hf. destruct Hf as [Hf Hc]. apply andb_prop in Hc.
  destruct Hc as [Hu Hr]. apply String.eqb_eq in Hr.
  assert (includes (favoriteIdsSet db userId) (r_id r) = true); [|congruence].
  apply includes_In. unfold favoriteIdsSet. apply Set_of_In.
  rewrite <- Hr. apply in_map. unfold favoriteRecipeIds. apply filter_In. tauto.
Qed.

Lemma suggestions_not_favorite (p : RecipePayload) :
  In p (suggestions db userId) ->
  isFavorite p = false /\ includes (favoriteIdsSet db userId) (p_id p) = false.
Proof.
  intro Hp. destruct (suggestions_origin db userId p Hp) as (r & _ & Er & _ & _ & _ & Hf).
  unfold p_id. rewrite Er. split; [|assumption].
  unfold suggestions in Hp. apply in_map_iff in Hp. destruct Hp as (s & <- & _).
  cbn [isFavorite p_recipe] in *. subst r.
  rewrite (not_favorite_no_rows _ Hf). reflexivity.
Qed.

Lemma favoriteRecipesPayload_spec (p : RecipePayload) :
  In p (favoriteRecipesPayload db userId) ->
  isFavorite p = true /\ compatibilityScore p = 100 /\ missingIngredientsCount p = 0%nat
  /\ In (p_recipe p) (tbl_recipe db)
  /\ includes (favoriteIdsSet db userId) (p_id p) = true.
Proof.
  unfold favoriteRecipesPayload, favoriteRecipes. rewrite in_map_iff.
  intros (r & <- & Hr). apply filter_In in Hr. cbn. tauto.
Qed.

Lemma combined_split :
  combinedSuggestions db userId
  = firstn 10 (favoriteRecipesPayload db userId)
    ++ firstn (10 - List.length (favoriteRecipesPayload db userId)) (suggestions db userId).
Proof. unfold combinedSuggestions, slice0. change (Z.to_nat 10) with 10%nat. apply firstn_app. Qed.

Lemma combined_cases (p : RecipePayload) :
  In p (combinedSuggestions db userId) ->
  In p (favoriteRecipesPayload db userId) \/ In p (suggestions db userId).
Proof. intro H. apply slice0_incl in H. now apply in_app_or. Qed.

Lemma suggestions_sorted :
  recipes_ok db -> StronglySorted by_score_desc (suggestions db userId).
Proof.
  intro Hok. unfold suggestions, slice0.
  apply (map_StronglySorted (desc (fun s => to_Q (sr_score s)))).
  - intros x y H. unfold by_score_desc. cbn [compatibilityScore].
    now apply Math_round_mono.
  - apply firstn_StronglySorted.
    apply (Array_sort_sorted _ _ (fun s => score_value (sr_score s))).
    + intros x y Px Py. now apply sub_sign.
    + rewrite Forall_forall. intros s Hs. apply filter_In in Hs. destruct Hs as [Hs _].
      unfold scoredRecipes, allRecipes in Hs. apply in_map_iff in Hs.
      destruct Hs as (r & <- & Hr). cbn [sr_score]. apply score_is_score_value.
      unfold recipes_ok in Hok. rewrite Forall_forall in Hok. now apply Hok.
Qed.

End HandlerFacts.

Lemma filter_all {A : Type} (f : A -> bool) (l : list A) :
  (forall x, In x l -> f x = true) -> filter f l = l.
Proof.
  induction l as [|x l IH]; intro H; cbn [filter]; [reflexivity|].
  rewrite (H x (or_introl eq_refl)), IH; [reflexivity|]. intros y Hy. apply H. now right.
Qed.

Lemma filter_none {A : Type} (f : A -> bool) (l : list A) :
  (forall x, In x l -> f x = false) -> filter f l = [].
Proof.
  induction l as [|x l IH]; intro H; cbn [filter]; [reflexivity|].
  rewrite (H x (or_introl eq_refl)), IH; [reflexivity|]. intros y Hy. apply H. now right.
Qed.

Lemma firstn_In {A : Type} (n : nat) (l : list A) (x : A) :
  In x (firstn n l) -> In x l.
Proof. intro H. rewrite <- (firstn_skipn n l). apply in_or_app. now left. Qed.

Lemma count_id_app (id : string) (l1 l2 : list RecipePayload) :
  count_id id (l1 ++ l2) = (count_id id l1 + count_id id l2)%nat.
Proof. unfold count_id. now rewrite filter_app, length_app. Qed.

Lemma count_id_absent (id : string) (l : list RecipePayload) :
  (forall p, In p l -> p_id p <> id) -> count_id id l = 0%nat.
Proof.
  intro H. unfold count_id. rewrite filter_none; [reflexivity|].
  intros p Hp. apply String.eqb_neq. now apply H.
Qed.

Lemma gt_zero_to_Q (v : number) : gt v (of_Z 0) = true -> (0 <= to_Q v)%Q.
Proof.
  destruct v as [s|s| |s m e]; cbn [to_Q]; try (intros _; apply Qle_refl).
  destruct s; [discriminate|]. intros _.
  pose proof (Qpow2_pos e). assert (0 < inject_Z (Z.pos m))%Q by reflexivity. nra.
Qed.

Lemma count_id_map (id : string) (f : Recipe -> RecipePayload) (l : list Recipe) :
  (forall x, p_recipe (f x) = x) ->
  count_id id (map f l) = List.length (filter (fun x => String.eqb (r_id x) id) l).
Proof.
  intro Hf. unfold count_id. induction l as [|x l IH]; [reflexivity|].
  cbn [map filter]. unfold p_id at 1. rewrite Hf.
  destruct (String.eqb (r_id x) id); cbn [List.length]; now rewrite IH.
Qed.

Section ResultFacts.
Variable db : DB.
Variable userId : string.

Lemma count_id_favorites (r : Recipe) :
  NoDup (map r_id (tbl_recipe db)) -> In r (favoriteRecipes db userId) ->
  count_id (r_id r) (favoriteRecipesPayload db userId) = 1%nat.
Proof.
  intros Hnd Hin. unfold favoriteRecipesPayload.
  rewrite count_id_map by reflexivity.
  apply filter_id_NoDup; [|assumption].
  unfold favoriteRecipes. now apply NoDup_map_filter.
Qed.

Lemma nonfavorites_of_combined :
  filter (fun p => negb (isFavorite p)) (combinedSuggestions db userId)
  = firstn (10 - List.length (favoriteRecipesPayload db userId)) (suggestions db userId).
Proof.
  rewrite combined_split, filter_app, filter_none, filter_all; [reflexivity| |].
  - intros p Hp. apply firstn_In, suggestions_not_favorite in Hp.
    destruct Hp as [-> _]. reflexivity.
  - intros p Hp. apply firstn_In, favoriteRecipesPayload_spec in Hp.
    destruct Hp as [-> _]. reflexivity.
Qed.

End ResultFacts.

Lemma halfway_exact (a t : Z) :
  0 < t -> halfway a t ->
  (100 * (inject_Z a / inject_Z t) + (1 # 2) == inject_Z ((200 * a + t) / (2 * t)))%Q.
Proof.
  intros Ht Hh. unfold halfway in Hh.
  pose proof (Z.div_mod (200 * a + t) (2 * t) ltac:(lia)) as Hdm.
  rewrite Hh, Z.add_0_r in Hdm.
  set (k := (200 * a + t) / (2 * t)) in *. clearbody k.
  destruct t as [|tp|tp]; try lia.
  rewrite <- (Qmake_Qdiv a tp).
  cbv [Qeq Qplus Qmult inject_Z Qnum Qden].
  rewrite !Pos2Z.inj_mul. nia.
Qed.

Lemma Math_round_score_of_halfway (a t : Z) :
  0 < a <= t -> t < 2 ^ 32 -> halfway a t ->
  (200 * a + t) / (2 * t) - 1 <= Math_round (score_of a t) <= (200 * a + t) / (2 * t).
Proof.
  intros Ha Ht Hh.
  destruct (score_of_close a t Ha Ht) as (m & e & _ & _ & Hc).
  pose proof (halfway_exact a t ltac:(lia) Hh) as Hx.
  set (k := (200 * a + t) / (2 * t)) in *.
  unfold Math_round. unfold delta in Hc.
  change (1 # 2 ^ 40)%Q with (1 # 1099511627776)%Q in Hc.
  pose proof (Qfloor_le (to_Q (score_of a t) + (1 # 2))) as F1.
  pose proof (Qlt_floor (to_Q (score_of a t) + (1 # 2))) as F2.
  set (f := Qfloor (to_Q (score_of a t) + (1 # 2))) in *.
  rewrite inject_Z_plus in F2. change (inject_Z 1) with 1%Q in F2.
  assert (inject_Z k < inject_Z (f + 2))%Q as A
    by (rewrite inject_Z_plus; change (inject_Z 2) with 2%Q; lra).
  assert (inject_Z f < inject_Z (k + 1))%Q as B
    by (rewrite inject_Z_plus; change (inject_Z 1) with 1%Q; lra).
  rewrite <- Zlt_Qlt in A, B. lia.
Qed.

Local Open Scope string_scope.

(** ** The handler on the scenarios of the specification *)

(** Tomato and onion on hand: B (1 of 1) comes before A (2 of 3); C shares
    nothing with the inventory and is left out; the favorite D and the
    recipe E without ingredients are not in the response. *)
Example scenario_ranked :
  map (fun p => (p_id p, compatibilityScore p, missingIngredientsCount p))
      (data_suggestions (getSuggestions Fixtures.db_kitchen "u"))
  = [("B", 100, 0%nat); ("A", 67, 1%nat)].
Proof. vm_compute. reflexivity. Qed.

(** The combined list of the same request starts with the favorite. *)
Example scenario_combined :
  map (fun p => (p_id p, compatibilityScore p, isFavorite p))
      (combinedSuggestions Fixtures.db_kitchen "u")
  = [("D", 100, true); ("B", 100, false); ("A", 67, false)].
Proof. vm_compute. reflexivity. Qed.

(** (1 / 8) * 100 is exactly 12.5 and rounds up to 13. *)
Example scenario_exact_half :
  map compatibilityScore (data_suggestions (getSuggestions (Fixtures.db_single 1 8) "u"))
  = [13].
Proof. vm_compute. reflexivity. Qed.

(** * The claims *)

(** What the handler assembles and then leaves aside: when recipe
    identifiers are unique and the user has at most ten favorite recipes,
    every favorite recipe of the catalog occurs exactly once in the
    combined list, whatever its score. *)
Lemma combined_lists_each_favorite_once (db : DB) (userId : string) (r : Recipe) :
  NoDup (map r_id (tbl_recipe db)) ->
  (List.length (favoriteRecipes db userId) <= 10)%nat ->
  In r (tbl_recipe db) ->
  includes (favoriteIdsSet db userId) (r_id r) = true ->
  count_id (r_id r) (combinedSuggestions db userId) = 1%nat.
Proof.
  intros Hnd Hlen Hin Hfav.
  rewrite combined_split, count_id_app.
  rewrite firstn_all2 by (unfold favoriteRecipesPayload; rewrite length_map; exact Hlen).
  rewrite count_id_favorites;
    [|assumption | unfold favoriteRecipes; apply filter_In; now split].
  rewrite count_id_absent; [reflexivity|].
  intros p Hp E. apply firstn_In, suggestions_not_favorite in Hp.
  destruct Hp as [_ Hp]. rewrite E in Hp. congruence.
Qed.

(** What the handler sends instead: the list of the other recipes, in
    which no favorite recipe occurs. *)
Lemma response_lists_no_favorite (db : DB) (userId id : string) :
  includes (favoriteIdsSet db userId) id = true ->
  count_id id (data_suggestions (getSuggestions db userId)) = 0%nat.
Proof.
  intro Hfav. apply count_id_absent.
  intros p Hp E. apply response_incl, suggestions_not_favorite in Hp.
  destruct Hp as [_ Hp]. rewrite E in Hp. congruence.
Qed.

(** C1 fails on the code, already with one favorite.  User u holds tomato
    and onion and has the favorite D: the handler puts D once into the
    combined list it assembles, then answers with the list of the other
    recipes, where D does not occur. *)
Theorem C1_response_lists_no_favorite :
  availableIngredientIds Fixtures.db_kitchen "u" <> []
  /\ In (Fixtures.mkRecipe "D" ["chicken"]) (tbl_recipe Fixtures.db_kitchen)
  /\ includes (favoriteIdsSet Fixtures.db_kitchen "u") "D" = true
  /\ count_id "D" (combinedSuggestions Fixtures.db_kitchen "u") = 1%nat
  /\ count_id "D" (data_suggestions (getSuggestions Fixtures.db_kitchen "u")) = 0%nat
  /\ ~ favorites_listed_once Fixtures.db_kitchen "u".
Proof.
  assert (availableIngredientIds Fixtures.db_kitchen "u" <> []) as Hinv
    by nonempty_by_computation.
  assert (In (Fixtures.mkRecipe "D" ["chicken"]) (tbl_recipe Fixtures.db_kitchen)) as Hin
    by in_computed_list.
  assert (includes (favoriteIdsSet Fixtures.db_kitchen "u") "D" = true) as Hfav
    by reflexivity.
  pose proof (response_lists_no_favorite Fixtures.db_kitchen "u" "D" Hfav) as Hnone.
  split; [exact Hinv|]. split; [exact Hin|]. split; [exact Hfav|].
  split; [vm_compute; reflexivity|]. split; [exact Hnone|].
  intro H. specialize (H Hinv _ Hin Hfav).
  change (r_id (Fixtures.mkRecipe "D" ["chicken"])) with "D" in H.
  rewrite Hnone in H. discriminate H.
Qed.

(** C2, as worded, fails.  The favorite D needs chicken only and the user
    holds tomato: its entry carries 100 and 0, not the computed 0 and 1. *)
Lemma C2_counterexample :
  ~ favorites_carry_computed_score Fixtures.db_favorite_chicken "u".
Proof.
  intro H.
  assert (existsb (fun p => isFavorite p
                    && negb (Z.eqb (compatibilityScore p)
                       (round_percent
                          (Z.of_nat (availableIngredients Fixtures.db_favorite_chicken "u" (p_recipe p)))
                          (Z.of_nat (totalIngredients (p_recipe p))))))
                  (combinedSuggestions Fixtures.db_favorite_chicken "u") = true) as K
    by (vm_compute; reflexivity).
  apply existsb_exists in K. destruct K as (p & Hp & Hc).
  apply andb_prop in Hc. destruct Hc as [Hf Hc].
  destruct (H p Hp Hf) as [E _]. rewrite E, Z.eqb_refl in Hc. discriminate.
Qed.

(** C2, amended: every favorite entry of the combined list carries the
    compatibilityScore 100 and the missingIngredientsCount 0, whatever the
    score computed for its recipe. *)
Theorem C2_favorites_carry_100 (db : DB) (userId : string) (p : RecipePayload) :
  In p (combinedSuggestions db userId) -> isFavorite p = true ->
  compatibilityScore p = 100 /\ missingIngredientsCount p = 0%nat.
Proof.
  intros Hp Hf. destruct (combined_cases db userId p Hp) as [Hfav|Hsug].
  - apply favoriteRecipesPayload_spec in Hfav. tauto.
  - apply suggestions_not_favorite in Hsug. destruct Hsug as [Hn _]. congruence.
Qed.

Lemma C2_witness :
  exists p, In p (combinedSuggestions Fixtures.db_favorite_chicken "u")
    /\ isFavorite p = true
    /\ availableIngredients Fixtures.db_favorite_chicken "u" (p_recipe p) = 0%nat
    /\ compatibilityScore p = 100 /\ missingIngredientsCount p = 0%nat.
Proof.
  eexists. split; [vm_compute; left; reflexivity|].
  split; [reflexivity|]. split; [reflexivity|].
  apply (C2_favorites_carry_100 Fixtures.db_favorite_chicken "u").
  - vm_compute. left. reflexivity.
  - reflexivity.
Defined.

(** C3, as worded, fails.  A recipe of 40 ingredients with 23 on hand gets
    (23 / 40) * 100 = 57.49999999999999 in binary64, which [Math.round]
    turns into 57, while round(100 * 23 / 40) = round(57.5) = 58. *)
Lemma C3_counterexample :
  ~ score_is_round_percent (Fixtures.db_single 23 40) "u"
  /\ map compatibilityScore
         (data_suggestions (getSuggestions (Fixtures.db_single 23 40) "u")) = [57]
  /\ round_percent 23 40 = 58.
Proof.
  split; [|split; vm_compute; reflexivity].
  intro H.
  assert (availableIngredientIds (Fixtures.db_single 23 40) "u" <> []) as Hinv
    by nonempty_by_computation.
  specialize (H Hinv (Fixtures.mkRecipe "R" (Fixtures.names "i" 40))
                (or_introl eq_refl)).
  assert (0 < totalIngredients (Fixtures.mkRecipe "R" (Fixtures.names "i" 40)))%nat as Ht
    by (vm_compute; lia).
  destruct (H Ht) as [E _]. vm_compute in E. discriminate E.
Qed.

(** C3, amended: for a non-empty inventory and a catalog recipe with
    between 1 and 2^32 - 1 required ingredient lines (counted with
    repetitions), the score attached to it is [Math.round] of the binary64
    value (available / total) * 100; it lies between 0 and 100; it equals
    round(100 * available / total) whenever 100 * available / total is not
    exactly halfway between two integers, and is that value or one less
    when it is; every entry of the response for that recipe carries it. *)
Theorem C3_score_rounds_binary64 (db : DB) (userId : string) (r : Recipe) :
  availableIngredientIds db userId <> [] ->
  In r (tbl_recipe db) ->
  (0 < totalIngredients r)%nat ->
  array_ok (r_ingredients r) ->
  let a := Z.of_nat (availableIngredients db userId r) in
  let t := Z.of_nat (totalIngredients r) in
  Math_round (score db userId r) = Math_round (mul (div (of_Z a) (of_Z t)) (of_Z 100))
  /\ 0 <= Math_round (score db userId r) <= 100
  /\ (~ halfway a t -> Math_round (score db userId r) = round_percent a t)
  /\ round_percent a t - 1 <= Math_round (score db userId r) <= round_percent a t
  /\ (forall p, In p (data_suggestions (getSuggestions db userId)) ->
        p_recipe p = r -> compatibilityScore p = Math_round (score db userId r)).
Proof.
  intros _ Hin Ht Hok a t.
  assert (r_ingredients r <> []) as Hne
    by (unfold totalIngredients in Ht; destruct (r_ingredients r); cbn in Ht; [lia | discriminate]).
  pose proof (available_le_total db userId r) as Hle.
  assert (0 < t < 2 ^ 32) as Htb by (unfold t, array_ok, totalIngredients in *; lia).
  assert (0 <= a <= t) as Hab by (unfold a, t; lia).
  rewrite (score_nonempty db userId r Hok Hne). fold a t.
  assert (~ halfway a t -> Math_round (score_of a t) = round_percent a t) as Hexact.
  { intro Hh. rewrite round_percent_eq by lia. unfold halfway in Hh.
    destruct (Z.eq_dec a 0) as [E0|N0].
    - rewrite E0, score_of_0 by (assert (2 ^ 32 < 2 ^ 53) by reflexivity; lia).
      change (Math_round (S754_zero false)) with 0%Z.
      symmetry. apply Z.div_small. lia.
    - apply Math_round_score_of; lia. }
  split; [reflexivity|]. split; [now apply Math_round_score_of_range|].
  split; [exact Hexact|]. split.
  - destruct (Z.eq_dec ((200 * a + t) mod (2 * t)) 0) as [Hh|Hh].
    + rewrite round_percent_eq by lia. apply Math_round_score_of_halfway; [|lia|exact Hh].
      destruct (Z.eq_dec a 0) as [E0|N0]; [|lia].
      exfalso. rewrite E0 in Hh. rewrite Z.mod_small in Hh; lia.
    + rewrite (Hexact Hh). lia.
  - intros p Hp Er. apply response_incl, suggestions_origin in Hp.
    destruct Hp as (r' & _ & Er' & Es & _).
    rewrite Es. rewrite <- Er', Er.
    now rewrite (score_nonempty db userId r Hok Hne).
Qed.

Lemma C3_witness :
  availableIngredientIds Fixtures.db_kitchen "u" <> []
  /\ ~ halfway 2 3
  /\ Math_round (score Fixtures.db_kitchen "u"
                   (Fixtures.mkRecipe "A" ["tomato"; "onion"; "garlic"])) = 67
  /\ round_percent 2 3 = 67.
Proof.
  assert (availableIngredientIds Fixtures.db_kitchen "u" <> []) as Hinv
    by nonempty_by_computation.
  assert (~ halfway 2 3) as Hh by (vm_compute; discriminate).
  split; [exact Hinv|]. split; [exact Hh|]. split; [|vm_compute; reflexivity].
  destruct (C3_score_rounds_binary64 Fixtures.db_kitchen "u"
              (Fixtures.mkRecipe "A" ["tomato"; "onion"; "garlic"]) Hinv)
    as (_ & _ & Hr & _ & _).
  - in_computed_list.
  - vm_compute. lia.
  - vm_compute. reflexivity.
  - rewrite Hr; [vm_compute; reflexivity | exact Hh].
Defined.

(** C4: when the user's inventory is empty the response carries no
    suggestion, whatever the catalog and the favorites are. *)
Theorem C4_empty_inventory_empty_result (db : DB) (userId : string) :
  availableIngredientIds db userId = [] ->
  data_suggestions (getSuggestions db userId) = [].
Proof. intro H. unfold getSuggestions. rewrite H. reflexivity. Qed.

Lemma C4_witness :
  availableIngredientIds Fixtures.db_bare "u" = []
  /\ tbl_recipe Fixtures.db_bare <> []
  /\ favoriteIdsSet Fixtures.db_bare "u" <> []
  /\ data_suggestions (getSuggestions Fixtures.db_bare "u") = [].
Proof.
  split; [reflexivity|]. split; [discriminate|]. split; [vm_compute; discriminate|].
  apply (C4_empty_inventory_empty_result Fixtures.db_bare "u"). reflexivity.
Defined.

(** C5, as worded, fails.  A recipe of 201 ingredients of which one is on
    hand scores 0.4975..., passes the filter [score > 0] and is listed with
    the rounded compatibilityScore 0. *)
Lemma C5_counterexample :
  ~ no_zero_score_listed (Fixtures.db_single 1 201) "u".
Proof.
  intro H.
  assert (existsb (fun p => negb (isFavorite p) && Z.eqb (compatibilityScore p) 0)
                  (data_suggestions (getSuggestions (Fixtures.db_single 1 201) "u")) = true) as K
    by (vm_compute; reflexivity).
  apply existsb_exists in K. destruct K as (p & Hp & Hc).
  apply andb_prop in Hc. destruct Hc as [Hf Hz].
  apply negb_true_iff in Hf. apply Z.eqb_eq in Hz. exact (H p Hp Hf Hz).
Qed.

(** C5, amended: every entry of the response is a non-favorite whose
    recipe has at least one required ingredient on hand, that is, whose
    unrounded score is positive; the rounded compatibilityScore it carries
    is not negative (and may be 0). *)
Theorem C5_listed_have_positive_raw_score (db : DB) (userId : string) (p : RecipePayload) :
  In p (data_suggestions (getSuggestions db userId)) ->
  isFavorite p = false
  /\ (0 < availableIngredients db userId (p_recipe p))%nat
  /\ gt (score db userId (p_recipe p)) (of_Z 0) = true
  /\ 0 <= compatibilityScore p.
Proof.
  intro Hp. apply response_incl in Hp.
  destruct (suggestions_not_favorite db userId p Hp) as [Hf _].
  destruct (suggestions_origin db userId p Hp) as (r & _ & Er & Es & _ & Hgt & _).
  rewrite Er. split; [assumption|]. split; [now apply score_positive_available|].
  split; [assumption|]. rewrite Es. unfold Math_round.
  change 0%Z with (Qfloor 0). apply Qfloor_resp_le.
  pose proof (gt_zero_to_Q _ Hgt). lra.
Qed.

Lemma C5_witness :
  exists p, In p (data_suggestions (getSuggestions (Fixtures.db_single 1 201) "u"))
    /\ isFavorite p = false
    /\ (0 < availableIngredients (Fixtures.db_single 1 201) "u" (p_recipe p))%nat
    /\ gt (score (Fixtures.db_single 1 201) "u" (p_recipe p)) (of_Z 0) = true
    /\ 0 <= compatibilityScore p.
Proof.
  eexists. split; [vm_compute; left; reflexivity|].
  apply (C5_listed_have_positive_raw_score (Fixtures.db_single 1 201) "u").
  vm_compute. left. reflexivity.
Defined.

(** C6: neither the response nor the combined list holds more than ten
    entries. *)
Theorem C6_at_most_ten (db : DB) (userId : string) :
  (List.length (data_suggestions (getSuggestions db userId)) <= 10)%nat
  /\ (List.length (combinedSuggestions db userId) <= 10)%nat.
Proof.
  split.
  - unfold getSuggestions.
    destruct (Nat.eqb _ 0); cbn [data_suggestions List.length]; [lia|].
    pose proof (suggestions_length db userId) as H. unfold Math_max in H. lia.
  - unfold combinedSuggestions. pose proof (slice0_length 10 (favoriteRecipesPayload db userId ++ suggestions db userId)).
    change (Z.to_nat 10) with 10%nat in *. assumption.
Qed.

(** C7: when every recipe is a JavaScript array of ingredient lines (fewer
    than 2^32 of them), the entries of the response, none of which is a
    favorite, are in descending order of compatibilityScore: no entry
    carries a strictly higher score than one that precedes it.  The same
    holds for the non-favorite entries of the combined list. *)
Theorem C7_non_favorites_descending (db : DB) (userId : string) :
  recipes_ok db ->
  StronglySorted by_score_desc (data_suggestions (getSuggestions db userId))
  /\ (forall p, In p (data_suggestions (getSuggestions db userId)) -> isFavorite p = false)
  /\ StronglySorted by_score_desc
       (filter (fun p => negb (isFavorite p)) (combinedSuggestions db userId)).
Proof.
  intro Hok. pose proof (suggestions_sorted db userId Hok) as Hs.
  split; [|split].
  - unfold getSuggestions.
    destruct (Nat.eqb _ 0); cbn [data_suggestions]; [constructor | assumption].
  - intros p Hp. apply response_incl in Hp. now apply suggestions_not_favorite in Hp.
  - rewrite nonfavorites_of_combined. now apply firstn_StronglySorted.
Qed.

Lemma C7_witness :
  recipes_ok Fixtures.db_kitchen
  /\ map compatibilityScore (data_suggestions (getSuggestions Fixtures.db_kitchen "u"))
     = [100; 67]
  /\ StronglySorted by_score_desc (data_suggestions (getSuggestions Fixtures.db_kitchen "u")).
Proof.
  assert (recipes_ok Fixtures.db_kitchen) as Hok
    by (unfold recipes_ok; repeat constructor).
  split; [exact Hok|]. split; [vm_compute; reflexivity|].
  exact (proj1 (C7_non_favorites_descending Fixtures.db_kitchen "u" Hok)).
Defined.

(** C8: for a recipe without required ingredients the score is the literal
    0 of the guard (no quotient is formed), its rounding is 0, the recipe
    is in no entry of the response, and an entry of the combined list for
    it is a favorite. *)
Theorem C8_no_ingredients (db : DB) (userId : string) (r : Recipe) :
  r_ingredients r = [] ->
  score db userId r = of_Z 0
  /\ Math_round (score db userId r) = 0
  /\ (forall p, In p (data_suggestions (getSuggestions db userId)) -> p_recipe p <> r)
  /\ (forall p, In p (combinedSuggestions db userId) -> p_recipe p = r ->
        isFavorite p = true).
Proof.
  intro He. pose proof (score_empty db userId r He) as Hs.
  assert (forall p, In p (suggestions db userId) -> p_recipe p <> r) as Hno.
  { intros p Hp E. destruct (suggestions_origin db userId p Hp) as (r' & _ & Er & _ & _ & Hgt & _).
    rewrite <- Er, E, Hs in Hgt. discriminate Hgt. }
  split; [assumption|]. split; [rewrite Hs; reflexivity|]. split.
  - intros p Hp. apply Hno. now apply response_incl.
  - intros p Hp E. destruct (combined_cases db userId p Hp) as [Hf|Hsug].
    + apply favoriteRecipesPayload_spec in Hf. tauto.
    + destruct (Hno p Hsug E).
Qed.

Lemma C8_witness :
  In (Fixtures.mkRecipe "E" []) (tbl_recipe Fixtures.db_kitchen)
  /\ score Fixtures.db_kitchen "u" (Fixtures.mkRecipe "E" []) = of_Z 0
  /\ Math_round (score Fixtures.db_kitchen "u" (Fixtures.mkRecipe "E" [])) = 0.
Proof.
  split; [in_computed_list|].
  destruct (C8_no_ingredients Fixtures.db_kitchen "u" (Fixtures.mkRecipe "E" []) eq_refl)
    as (H1 & H2 & _).
  split; assumption.
Defined.

Lemma available_ids_same_but_amounts (fridge1 fridge2 : list FridgeItem)
      (recipes : list Recipe) (favorites : list FavoriteRecipe) (userId : string) :
  Forall2 same_but_amounts fridge1 fridge2 ->
  availableIngredientIds (Build_DB fridge1 recipes favorites) userId
  = availableIngredientIds (Build_DB fridge2 recipes favorites) userId.
Proof.
  unfold availableIngredientIds, userFridgeItems. cbn [tbl_fridgeItem].
  induction 1 as [|i1 i2 l1 l2 (_ & Hu & Hi & _) _ IH]; [reflexivity|].
  cbn [filter]. rewrite Hu. destruct (String.eqb (fi_userId i2) userId); cbn [map];
    [rewrite Hi; f_equal|]; exact IH.
Qed.

(** C9: two snapshots whose fridge rows differ at most in quantity, unit
    and expiry date (same rows otherwise, same recipes, same favorites)
    give the same response and the same combined list. *)
Theorem C9_amounts_do_not_matter (fridge1 fridge2 : list FridgeItem)
      (recipes : list Recipe) (favorites : list FavoriteRecipe) (userId : string) :
  Forall2 same_but_amounts fridge1 fridge2 ->
  getSuggestions (Build_DB fridge1 recipes favorites) userId
  = getSuggestions (Build_DB fridge2 recipes favorites) userId
  /\ combinedSuggestions (Build_DB fridge1 recipes favorites) userId
     = combinedSuggestions (Build_DB fridge2 recipes favorites) userId.
Proof.
  intro H.
  pose proof (available_ids_same_but_amounts _ _ recipes favorites userId H) as E.
  unfold getSuggestions, combinedSuggestions, suggestions, favoriteRecipesPayload,
    scoredRecipes, ingredientsPayload, score, availableIngredients, missingIngredients,
    favoriteRecipes, allRecipes, favoriteIdsSet, favoriteRecipeIds, recipe_favoriteRecipes.
  cbn [tbl_recipe tbl_favoriteRecipe]. rewrite E. split; reflexivity.
Qed.

Lemma C9_witness :
  let fridge1 := tbl_fridgeItem Fixtures.db_kitchen in
  let fridge2 := map (fun it => Fixtures.with_amounts it 500 "kg" (Some "2030-01-01")) fridge1 in
  Forall2 same_but_amounts fridge1 fridge2
  /\ map fi_quantity fridge1 <> map fi_quantity fridge2
  /\ getSuggestions (Build_DB fridge1 (tbl_recipe Fixtures.db_kitchen)
                       (tbl_favoriteRecipe Fixtures.db_kitchen)) "u"
     = getSuggestions (Build_DB fridge2 (tbl_recipe Fixtures.db_kitchen)
                       (tbl_favoriteRecipe Fixtures.db_kitchen)) "u".
Proof.
  intros fridge1 fridge2.
  assert (Forall2 same_but_amounts fridge1 fridge2) as H
    by (repeat constructor).
  split; [exact H|]. split; [vm_compute; discriminate|].
  exact (proj1 (C9_amounts_do_not_matter fridge1 fridge2 _ _ "u" H)).
Defined.

(** C10: when the inventory is not empty, the response holds at most
    max(10 - favoritesCount, 0) entries, none of them a favorite; with ten
    or more favorite recipes in the catalog it is empty. *)
Theorem C10_favorites_take_the_slots (db : DB) (userId : string) :
  availableIngredientIds db userId <> [] ->
  (List.length (data_suggestions (getSuggestions db userId))
   <= Z.to_nat (Math_max (10 - Z.of_nat (List.length (favoriteRecipes db userId))) 0))%nat
  /\ (forall p, In p (data_suggestions (getSuggestions db userId)) ->
        isFavorite p = false /\ includes (favoriteIdsSet db userId) (p_id p) = false)
  /\ ((10 <= List.length (favoriteRecipes db userId))%nat ->
        data_suggestions (getSuggestions db userId) = []).
Proof.
  intro Hinv. rewrite (response_nonempty_inventory db userId Hinv).
  pose proof (suggestions_length db userId) as Hlen.
  unfold favoriteRecipesPayload in Hlen. rewrite length_map in Hlen.
  split; [exact Hlen|]. split; [apply suggestions_not_favorite|].
  intro Hten. unfold Math_max in Hlen.
  destruct (suggestions db userId) as [|p l]; [reflexivity|].
  cbn [List.length] in Hlen. lia.
Qed.

Lemma C10_witness :
  availableIngredientIds (Fixtures.db_favorites 10) "u" <> []
  /\ (10 <= List.length (favoriteRecipes (Fixtures.db_favorites 10) "u"))%nat
  /\ gt (score (Fixtures.db_favorites 10) "u" (Fixtures.mkRecipe "B" ["tomato"])) (of_Z 0) = true
  /\ data_suggestions (getSuggestions (Fixtures.db_favorites 10) "u") = [].
Proof.
  assert (availableIngredientIds (Fixtures.db_favorites 10) "u" <> []) as Hinv
    by nonempty_by_computation.
  assert (10 <= List.length (favoriteRecipes (Fixtures.db_favorites 10) "u"))%nat as Hten
    by (vm_compute; lia).
  split; [exact Hinv|]. split; [exact Hten|]. split; [vm_compute; reflexivity|].
  exact (proj2 (proj2 (C10_favorites_take_the_slots (Fixtures.db_favorites 10) "u" Hinv)) Hten).
Defined.

(** * Further properties of the handlers *)

(** ** More on binary64 quotients *)

Lemma Qceiling_unique (y : Q) (k : Z) :
  (inject_Z (k - 1) < y)%Q -> (y <= inject_Z k)%Q -> Qceiling y = k.
Proof.
  intros Hlo Hhi.
  pose proof (Qle_ceiling y) as F1. pose proof (Qceiling_lt y) as F2.
  assert (inject_Z (k - 1) < inject_Z (Qceiling y))%Q as A by (eapply Qlt_le_trans; eassumption).
  assert (inject_Z (Qceiling y - 1) < inject_Z k)%Q as B by (eapply Qlt_le_trans; eassumption).
  rewrite <- Zlt_Qlt in A, B. lia.
Qed.

(** The quotient of two array-sized positive integers, rounded. *)
Lemma div_close (a b : Z) :
  0 < a < 2 ^ 32 -> 0 < b < 2 ^ 32 ->
  exists m e,
    normal (div (of_Z a) (of_Z b)) m e /\ -105 <= e <= 1
    /\ (- (u53 * to_Q (div (of_Z a) (of_Z b)))
          <= to_Q (div (of_Z a) (of_Z b)) - inject_Z a / inject_Z b
          <= u53 * to_Q (div (of_Z a) (of_Z b)))%Q.
Proof.
  intros Ha Hb.
  assert (2 ^ 32 < 2 ^ 53) as Hlt by reflexivity.
  destruct (of_Z_spec a) as (ma & ea & Na & Ea & Qa); [lia|].
  destruct (of_Z_spec b) as (mb & eb & Nb & Eb & Qb); [lia|].
  destruct (div_spec _ _ _ _ _ _ Na Nb) as (m & e & N & E & R); try lia.
  exists m, e. split; [assumption|]. split; [lia|].
  rewrite Qa, Qb in R. exact R.
Qed.

(** A rounded value that is within the relative error of an integer, at
    an exponent that is not positive, is that integer. *)
Lemma rounded_integer_exact (r : number) (m : positive) (e K : Z) :
  normal r m e -> e <= 0 ->
  (- (u53 * to_Q r) <= to_Q r - inject_Z K <= u53 * to_Q r)%Q ->
  (to_Q r == inject_Z K)%Q.
Proof.
  intros Hn He Hb. pose proof (normal_to_Q _ _ _ Hn) as Hq.
  destruct Hn as [_ Hm].
  set (P := 2 ^ (- e)). assert (0 < P) as HP by (apply Z.pow_pos_nonneg; lia).
  assert (2 ^ e * inject_Z P == 1)%Q as Hinv.
  { unfold P. rewrite <- Qpow2_inject by lia. rewrite <- Qpow2_add.
    replace (e + - e) with 0 by lia. reflexivity. }
  assert (0 < inject_Z P)%Q as HPq by (rewrite <- (Zlt_Qlt 0); exact HP).
  pose proof (Qpow2_pos e) as Hpe.
  set (x := inject_Z (Z.pos m)) in *. set (p := inject_Z P) in *. set (w := (2 ^ e)%Q) in *.
  set (k := inject_Z K) in *.
  assert (x < inject_Z (2 ^ 53))%Q as Hx by (unfold x; rewrite <- Zlt_Qlt; lia).
  assert (0 < x)%Q as Hx0 by (unfold x; rewrite <- (Zlt_Qlt 0); lia).
  change (inject_Z (2 ^ 53)) with 9007199254740992%Q in Hx.
  rewrite Hq in Hb. unfold u53 in Hb. change (1 # 2 ^ 53)%Q with (1 # 9007199254740992)%Q in Hb.
  destruct Hb as [L U].
  (* multiply the bounds by p *)
  assert (x - k * p < 1)%Q as A.
  { assert ((x * w - k) * p <= (1 # 9007199254740992) * (x * w) * p)%Q as T
      by (apply Qmult_le_compat_r; [exact U | apply Qlt_le_weak; exact HPq]).
    setoid_replace ((x * w - k) * p)%Q with (x * (w * p) - k * p)%Q in T by ring.
    setoid_replace ((1 # 9007199254740992) * (x * w) * p)%Q
      with ((1 # 9007199254740992) * x * (w * p))%Q in T by ring.
    rewrite Hinv in T. lra. }
  assert (-1 < x - k * p)%Q as B.
  { assert ((- ((1 # 9007199254740992) * (x * w))) * p <= (x * w - k) * p)%Q as T
      by (apply Qmult_le_compat_r; [exact L | apply Qlt_le_weak; exact HPq]).
    setoid_replace ((x * w - k) * p)%Q with (x * (w * p) - k * p)%Q in T by ring.
    setoid_replace ((- ((1 # 9007199254740992) * (x * w))) * p)%Q
      with (- ((1 # 9007199254740992) * x * (w * p)))%Q in T by ring.
    rewrite Hinv in T. lra. }
  assert (Z.pos m - K * P = 0) as Z0.
  { assert (inject_Z (Z.pos m - K * P) < inject_Z 1)%Q as A'
      by (unfold Z.sub; rewrite inject_Z_plus, inject_Z_opp, inject_Z_mult; exact A).
    assert (inject_Z (-1) < inject_Z (Z.pos m - K * P))%Q as B'
      by (unfold Z.sub at 1; rewrite inject_Z_plus, inject_Z_opp, inject_Z_mult; exact B).
    rewrite <- Zlt_Qlt in A', B'. lia. }
  rewrite Hq. fold x w.
  assert (x == k * p)%Q as Exk.
  { unfold x, k, p. rewrite <- inject_Z_mult. rewrite inject_Z_injective. lia. }
  rewrite Exk. rewrite <- Qmult_assoc, (Qmult_comm p w), Hinv. ring.
Qed.

Lemma div_of_Z_0 (b : Z) : 0 < b < 2 ^ 53 -> div (of_Z 0) (of_Z b) = S754_zero false.
Proof.
  intro Hb. destruct (of_Z_spec b Hb) as (m & e & [E _] & _).
  rewrite E, of_Z_0. reflexivity.
Qed.

(** [Math.ceil(total / limit)] is the exact ceiling for a page size of at
    most 50. *)
Lemma Math_ceil_div (total limit : Z) :
  0 <= total < 2 ^ 32 -> 1 <= limit <= 50 ->
  Math_ceil (div (of_Z total) (of_Z limit)) = (total + limit - 1) / limit.
Proof.
  intros Ht Hl.
  assert (2 ^ 32 < 2 ^ 53) as Hlt by reflexivity.
  destruct (Z.eq_dec total 0) as [->|Hnz].
  { rewrite div_of_Z_0 by lia. unfold Math_ceil. cbn [to_Q].
    change (Qceiling 0) with 0. symmetry. apply Z.div_small. lia. }
  assert (0 < limit < 2 ^ 32) as Hl32 by (change (2 ^ 32) with 4294967296; lia).
  destruct (div_close total limit ltac:(lia) Hl32) as (m & e & Hn & He & Hc).
  pose proof (normal_to_Q _ _ _ Hn) as Hq.
  pose proof (normal_to_Q_pos _ _ _ Hn) as Hpos.
  set (q := to_Q (div (of_Z total) (of_Z limit))) in *.
  pose proof (Z.div_mod total limit ltac:(lia)) as Hdm.
  pose proof (Z.mod_pos_bound total limit ltac:(lia)) as Hmb.
  set (K := total / limit) in *. set (r := total mod limit) in *.
  assert (0 <= K) as HK by (apply Z.div_pos; lia).
  assert (0 < inject_Z limit)%Q as Hlq by (rewrite <- (Zlt_Qlt 0); lia).
  (* the exact quotient between K and K + 1 *)
  assert (inject_Z total / inject_Z limit == inject_Z K + inject_Z r / inject_Z limit)%Q as Ex.
  { rewrite Hdm at 1. rewrite inject_Z_plus, inject_Z_mult. field. lra. }
  assert (inject_Z total / inject_Z limit <= 4294967296)%Q as Hxle.
  { apply Qle_shift_div_r; [exact Hlq|].
    assert (inject_Z total <= 4294967296)%Q
      by (change 4294967296%Q with (inject_Z 4294967296); rewrite <- Zle_Qle;
          change (2 ^ 32) with 4294967296 in Ht; lia).
    assert (1 <= inject_Z limit)%Q by (change 1%Q with (inject_Z 1); rewrite <- Zle_Qle; lia).
    nra. }
  unfold u53 in Hc. change (1 # 2 ^ 53)%Q with (1 # 9007199254740992)%Q in Hc.
  assert (q <= 8589934592)%Q as Hqle by lra.
  assert (e <= 0) as He0.
  { destruct (Z_le_gt_dec e 0) as [L|G]; [exact L|]. exfalso.
    assert (e = 1) by lia. subst e. destruct Hn as [_ Hm].
    assert (inject_Z (2 ^ 52) <= inject_Z (Z.pos m))%Q by (rewrite <- Zle_Qle; lia).
    change (inject_Z (2 ^ 52)) with 4503599627370496%Q in *.
    change (2 ^ 1)%Q with 2%Q in Hq. lra. }
  destruct (Z.eq_dec r 0) as [R0|RN].
  - (* limit divides total: the quotient is exact *)
    assert (inject_Z total / inject_Z limit == inject_Z K)%Q as ExK.
    { rewrite Ex, R0. change (inject_Z 0) with 0%Q. field. lra. }
    rewrite ExK in Hc.
    pose proof (rounded_integer_exact _ m e K Hn He0) as Hexact. fold q in Hexact.
    specialize (Hexact ltac:(unfold u53; change (1 # 2 ^ 53)%Q with (1 # 9007199254740992)%Q; exact Hc)).
    unfold Math_ceil. fold q. rewrite (Qceiling_comp _ _ Hexact), Qceiling_Z.
    replace (total + limit - 1) with (limit * K + (limit - 1)) by lia.
    symmetry. rewrite Z.mul_comm, Z.div_add_l by lia. rewrite Z.div_small by lia. lia.
  - (* otherwise it stays strictly between K and K + 1 *)
    assert (1 # 50 <= inject_Z r / inject_Z limit)%Q as G1.
    { apply Qle_shift_div_l; [exact Hlq|].
      assert (1 <= inject_Z r)%Q by (change 1%Q with (inject_Z 1); rewrite <- Zle_Qle; lia).
      assert (inject_Z limit <= 50)%Q by (change 50%Q with (inject_Z 50); rewrite <- Zle_Qle; lia).
      lra. }
    assert (inject_Z r / inject_Z limit <= 1 - (1 # 50))%Q as G2.
    { apply Qle_shift_div_r; [exact Hlq|].
      assert (inject_Z (r + 1) <= inject_Z limit)%Q as Hr1 by (rewrite <- Zle_Qle; lia).
      rewrite inject_Z_plus in Hr1. change (inject_Z 1) with 1%Q in Hr1.
      assert (inject_Z limit <= 50)%Q by (change 50%Q with (inject_Z 50); rewrite <- Zle_Qle; lia).
      lra. }
    unfold Math_ceil. fold q.
    replace ((total + limit - 1) / limit) with (K + 1).
    + apply Qceiling_unique.
      * replace (K + 1 - 1) with K by lia. lra.
      * rewrite inject_Z_plus. change (inject_Z 1) with 1%Q. lra.
    + replace (total + limit - 1) with (limit * (K + 1) + (r - 1)) by lia.
      rewrite Z.mul_comm, Z.div_add_l by lia. rewrite Z.div_small by lia. lia.
Qed.

(** More ingredients on hand never give a smaller score. *)
Lemma score_of_mono (a1 a2 t : Z) :
  0 <= a1 <= a2 -> a2 <= t -> 0 < t < 2 ^ 32 ->
  (to_Q (score_of a1 t) <= to_Q (score_of a2 t))%Q.
Proof.
  intros Ha Hle Ht.
  assert (2 ^ 32 < 2 ^ 53) as Hlt by reflexivity.
  destruct (Z.eq_dec a1 a2) as [->|Hne]; [apply Qle_refl|].
  destruct (score_of_close a2 t ltac:(lia) ltac:(lia)) as (m2 & e2 & Hn2 & _ & Hc2).
  pose proof (normal_to_Q_pos _ _ _ Hn2) as Hpos2.
  destruct (Z.eq_dec a1 0) as [->|Hnz].
  { rewrite score_of_0 by lia. cbn [to_Q]. lra. }
  destruct (score_of_close a1 t ltac:(lia) ltac:(lia)) as (m1 & e1 & _ & _ & Hc1).
  assert (inject_Z a1 / inject_Z t + (1 # 2 ^ 32) <= inject_Z a2 / inject_Z t)%Q as Hgap.
  { destruct t as [|tp|tp]; try lia.
    rewrite <- (Qmake_Qdiv a1 tp), <- (Qmake_Qdiv a2 tp).
    cbv [Qle Qplus Qnum Qden]. rewrite !Pos2Z.inj_mul.
    change (Z.pos (2 ^ 32)) with 4294967296. change (2 ^ 32) with 4294967296 in Ht. nia. }
  unfold delta in *. change (1 # 2 ^ 40)%Q with (1 # 1099511627776)%Q in *.
  change (1 # 2 ^ 32)%Q with (1 # 4294967296)%Q in Hgap. lra.
Qed.

(** With every ingredient on hand the score rounds to 100. *)
Lemma Math_round_score_of_full (t : Z) :
  0 < t < 2 ^ 32 -> Math_round (score_of t t) = 100.
Proof.
  intro Ht. destruct (score_of_close t t ltac:(lia) ltac:(lia)) as (m & e & _ & _ & Hc).
  assert (inject_Z t / inject_Z t == 1)%Q as E1.
  { assert (0 < inject_Z t)%Q by (rewrite <- (Zlt_Qlt 0); lia). field. lra. }
  rewrite E1 in Hc. unfold delta in Hc. change (1 # 2 ^ 40)%Q with (1 # 1099511627776)%Q in Hc.
  unfold Math_round. apply Qfloor_unique.
  - change (inject_Z 100) with 100%Q. lra.
  - change (inject_Z (100 + 1)) with 101%Q. lra.
Qed.

(** ** GET /recipes/suggestions: what the response holds *)

Lemma suggestions_ranked (db : DB) (userId : string) :
  suggestions db userId
  = map (suggestionPayload db userId)
        (slice0 (Math_max (10 - Z.of_nat (List.length (favoriteRecipesPayload db userId))) 0)
                (ranked db userId)).
Proof. reflexivity. Qed.

Lemma ranked_In (db : DB) (userId : string) (s : ScoredRecipe) :
  In s (ranked db userId) <->
  exists r, In r (tbl_recipe db)
    /\ s = {| sr_recipe := r; sr_score := score db userId r;
              sr_missingIngredients := missingIngredients db userId r |}
    /\ gt (score db userId r) (of_Z 0) = true
    /\ includes (favoriteIdsSet db userId) (r_id r) = false.
Proof.
  unfold ranked. rewrite Array_sort_In, filter_In. unfold scoredRecipes, allRecipes.
  rewrite in_map_iff. split.
  - intros ((r & <- & Hr) & Hf). cbn [sr_score sr_recipe] in Hf.
    apply andb_prop in Hf. destruct Hf as [Hg Hn]. apply negb_true_iff in Hn.
    exists r. tauto.
  - intros (r & Hr & -> & Hg & Hn). split; [exists r; tauto|].
    cbn [sr_score sr_recipe]. rewrite Hg, Hn. reflexivity.
Qed.

Lemma ranked_sorted (db : DB) (userId : string) :
  recipes_ok db -> StronglySorted raw_desc (ranked db userId).
Proof.
  intro Hok. unfold ranked.
  apply (Array_sort_sorted _ (fun s => to_Q (sr_score s)) (fun s => score_value (sr_score s))).
  - intros x y Px Py. now apply sub_sign.
  - rewrite Forall_forall. intros s Hs. apply filter_In in Hs. destruct Hs as [Hs _].
    unfold scoredRecipes, allRecipes in Hs. apply in_map_iff in Hs.
    destruct Hs as (r & <- & Hr). cbn [sr_score]. apply score_is_score_value.
    unfold recipes_ok in Hok. rewrite Forall_forall in Hok. now apply Hok.
Qed.

Lemma StronglySorted_cut {A : Type} (R : A -> A -> Prop) (k : nat) (l : list A) (x y : A) :
  StronglySorted R l -> In x (firstn k l) -> In y (skipn k l) -> R x y.
Proof.
  intro H. revert k. induction H as [|a l Hs IH Ha]; intros k Hx Hy.
  - rewrite firstn_nil in Hx. destruct Hx.
  - destruct k; cbn [firstn skipn] in *; [destruct Hx|].
    destruct Hx as [<-|Hx].
    + rewrite Forall_forall in Ha. apply Ha.
      rewrite <- (firstn_skipn k l). apply in_or_app. now right.
    + now apply (IH k).
Qed.

Lemma In_firstn_or_skipn {A : Type} (k : nat) (l : list A) (x : A) :
  In x l -> In x (firstn k l) \/ In x (skipn k l).
Proof. intro H. rewrite <- (firstn_skipn k l) in H. now apply in_app_or. Qed.

(** The score passes the filter exactly when an ingredient is on hand. *)
Lemma gt_score_available (db : DB) (userId : string) (r : Recipe) :
  array_ok (r_ingredients r) ->
  gt (score db userId r) (of_Z 0) = negb (Nat.eqb (availableIngredients db userId r) 0).
Proof.
  intro Hok. destruct (r_ingredients r) as [|ri l] eqn:E.
  - rewrite score_empty by assumption. unfold availableIngredients. rewrite E. reflexivity.
  - rewrite score_nonempty by (assumption || congruence).
    pose proof (available_le_total db userId r) as Hle.
    assert (0 < Z.of_nat (totalIngredients r) < 2 ^ 32) as Ht.
    { unfold array_ok, totalIngredients in *. rewrite E in *. cbn [List.length] in *. lia. }
    destruct (availableIngredients db userId r) as [|a] eqn:Ea.
    + rewrite score_of_0 by (assert (2 ^ 32 < 2 ^ 53) by reflexivity; lia). reflexivity.
    + destruct (score_of_close (Z.of_nat (S a)) (Z.of_nat (totalIngredients r)))
        as (m & e & Hn & _); try lia.
      rewrite (gt_zero_normal _ _ _ Hn). reflexivity.
Qed.

Lemma response_entry (db : DB) (userId : string) (p : RecipePayload) :
  In p (data_suggestions (getSuggestions db userId)) ->
  exists r, In r (tbl_recipe db)
    /\ p = suggestionPayload db userId
             {| sr_recipe := r; sr_score := score db userId r;
                sr_missingIngredients := missingIngredients db userId r |}
    /\ gt (score db userId r) (of_Z 0) = true
    /\ includes (favoriteIdsSet db userId) (r_id r) = false.
Proof.
  intro Hp. apply response_incl in Hp. rewrite suggestions_ranked in Hp.
  apply in_map_iff in Hp. destruct Hp as (s & <- & Hs).
  apply slice0_incl, ranked_In in Hs. destruct Hs as (r & Hr & -> & Hg & Hn).
  exists r. tauto.
Qed.

(** X1: in every entry of the response, missingIngredientsCount is the
    number of ingredient lines whose [available] flag is false; with the
    lines flagged available it adds up to the lines of the recipe. *)
Theorem missing_count_matches_flags (db : DB) (userId : string) (p : RecipePayload) :
  In p (data_suggestions (getSuggestions db userId)) ->
  missingIngredientsCount p
  = List.length (filter (fun ip => negb (ip_available ip)) (p_ingredients p))
  /\ (missingIngredientsCount p + List.length (filter ip_available (p_ingredients p))
      = List.length (r_ingredients (p_recipe p)))%nat
  /\ map ip_line (p_ingredients p) = r_ingredients (p_recipe p).
Proof.
  intro Hp. destruct (response_entry db userId p Hp) as (r & _ & -> & _ & _).
  cbn [suggestionPayload missingIngredientsCount p_ingredients p_recipe sr_recipe
       sr_missingIngredients].
  unfold ingredientsPayload.
  assert (forall l : list RecipeIngredient,
    List.length (filter (fun ri => negb (includes (availableIngredientIds db userId) (ri_ingredientId ri))) l)
    = List.length (filter (fun ip => negb (ip_available ip))
        (map (fun ri => {| ip_line := ri;
               ip_available := includes (availableIngredientIds db userId) (ri_ingredientId ri) |}) l))
    /\ List.length (filter (fun ri => includes (availableIngredientIds db userId) (ri_ingredientId ri)) l)
       = List.length (filter ip_available
        (map (fun ri => {| ip_line := ri;
               ip_available := includes (availableIngredientIds db userId) (ri_ingredientId ri) |}) l))
    /\ map ip_line (map (fun ri => {| ip_line := ri;
               ip_available := includes (availableIngredientIds db userId) (ri_ingredientId ri) |}) l) = l) as Hl.
  { induction l as [|ri l (IH1 & IH2 & IH3)]; [repeat split|].
    cbn [map filter ip_available ip_line].
    destruct (includes (availableIngredientIds db userId) (ri_ingredientId ri));
      cbn [negb List.length]; repeat split; congruence. }
  destruct (Hl (r_ingredients r)) as (H1 & H2 & H3).
  pose proof (missing_plus_available db userId r) as Hsum.
  unfold missingIngredients, availableIngredients, totalIngredients in *.
  split; [exact H1|]. split; [rewrite <- H2; exact Hsum | exact H3].
Qed.

Lemma missing_count_matches_flags_witness :
  exists p, In p (data_suggestions (getSuggestions Fixtures.db_kitchen "u"))
    /\ missingIngredientsCount p = 1%nat
    /\ missingIngredientsCount p
       = List.length (filter (fun ip => negb (ip_available ip)) (p_ingredients p)).
Proof.
  eexists. split; [vm_compute; right; left; reflexivity|]. split; [reflexivity|].
  apply (missing_count_matches_flags Fixtures.db_kitchen "u").
  vm_compute. right. left. reflexivity.
Defined.

Lemma NoDup_map_firstn {A B : Type} (g : A -> B) (n : nat) (l : list A) :
  NoDup (map g l) -> NoDup (map g (firstn n l)).
Proof.
  revert n. induction l as [|x l IH]; intros n H; [rewrite firstn_nil; constructor|].
  destruct n; cbn [firstn map]; [constructor|].
  cbn [map] in H. inversion H as [|? ? Hx Hnd]; subst. constructor; [|now apply IH].
  intro Hin. apply Hx. apply in_map_iff in Hin. destruct Hin as (y & E & Hy).
  apply in_map_iff. exists y. split; [assumption|]. now apply firstn_In in Hy.
Qed.

Lemma ranked_ids_NoDup (db : DB) (userId : string) :
  NoDup (map r_id (tbl_recipe db)) ->
  NoDup (map (fun s => r_id (sr_recipe s)) (ranked db userId)).
Proof.
  intro H. unfold ranked.
  eapply Permutation_NoDup; [apply Permutation_map, Array_sort_perm|].
  apply NoDup_map_filter. unfold scoredRecipes, allRecipes.
  rewrite map_map. cbn [sr_recipe]. exact H.
Qed.

(** X2: when recipe identifiers are unique, no recipe is listed twice,
    neither in the response nor in the combined list. *)
Theorem no_recipe_listed_twice (db : DB) (userId : string) :
  NoDup (map r_id (tbl_recipe db)) ->
  NoDup (map p_id (data_suggestions (getSuggestions db userId)))
  /\ NoDup (map p_id (combinedSuggestions db userId)).
Proof.
  intro Hnd.
  assert (NoDup (map p_id (suggestions db userId))) as Hs.
  { rewrite suggestions_ranked, map_map. unfold slice0.
    apply (NoDup_map_firstn (fun s => p_id (suggestionPayload db userId s))).
    now apply ranked_ids_NoDup. }
  split.
  - unfold getSuggestions. destruct (Nat.eqb _ 0); cbn [data_suggestions map];
      [constructor | exact Hs].
  - unfold combinedSuggestions, slice0.
    apply (NoDup_map_firstn p_id). rewrite map_app.
    apply NoDup_app; [| exact Hs |].
    + unfold favoriteRecipesPayload. rewrite map_map. unfold p_id. cbn [p_recipe].
      unfold favoriteRecipes. now apply NoDup_map_filter.
    + intros id Hf Hsg. apply in_map_iff in Hf. destruct Hf as (p & <- & Hp).
      apply in_map_iff in Hsg. destruct Hsg as (q & Eq & Hq).
      apply favoriteRecipesPayload_spec in Hp. apply suggestions_not_favorite in Hq.
      destruct Hp as (_ & _ & _ & _ & Hp). destruct Hq as [_ Hq].
      rewrite Eq in Hq. congruence.
Qed.

(** X3: the response keeps the best: a catalog recipe that is not a
    favorite and is in no entry of the response has neither a higher
    unrounded score nor a higher rounded score than any listed entry. *)
Theorem left_out_never_beats_listed (db : DB) (userId : string)
        (p : RecipePayload) (r : Recipe) :
  recipes_ok db ->
  In p (data_suggestions (getSuggestions db userId)) ->
  In r (tbl_recipe db) ->
  includes (favoriteIdsSet db userId) (r_id r) = false ->
  (forall q, In q (data_suggestions (getSuggestions db userId)) -> p_recipe q <> r) ->
  (to_Q (score db userId r) <= to_Q (score db userId (p_recipe p)))%Q
  /\ Math_round (score db userId r) <= compatibilityScore p.
Proof.
  intros Hok Hp Hr Hnf Hout.
  assert (availableIngredientIds db userId <> []) as Hinv.
  { intro E. unfold getSuggestions in Hp. rewrite E in Hp. destruct Hp. }
  rewrite (response_nonempty_inventory db userId Hinv) in *.
  rewrite suggestions_ranked in Hp, Hout.
  apply in_map_iff in Hp. destruct Hp as (sp & <- & Hsp).
  cbn [suggestionPayload p_recipe compatibilityScore].
  assert (sr_score sp = score db userId (sr_recipe sp)
          /\ gt (sr_score sp) (of_Z 0) = true) as [Esp Gsp].
  { apply slice0_incl, ranked_In in Hsp. destruct Hsp as (r' & _ & -> & Hg & _).
    cbn [sr_score sr_recipe]. tauto. }
  rewrite <- Esp.
  assert (to_Q (score db userId r) <= to_Q (sr_score sp))%Q as Hle.
  { destruct (gt (score db userId r) (of_Z 0)) eqn:Hg.
    - set (s := {| sr_recipe := r; sr_score := score db userId r;
                   sr_missingIngredients := missingIngredients db userId r |}).
      assert (In s (ranked db userId)) as Hs by (apply ranked_In; exists r; tauto).
      unfold slice0 in Hsp, Hout.
      destruct (In_firstn_or_skipn
                  (Z.to_nat (Math_max (10 - Z.of_nat (List.length (favoriteRecipesPayload db userId))) 0))
                  _ _ Hs) as [Hin|Hcut].
      + exfalso. apply (Hout (suggestionPayload db userId s)); [|reflexivity].
        apply in_map. exact Hin.
      + apply (StronglySorted_cut raw_desc _ _ sp s (ranked_sorted db userId Hok) Hsp Hcut).
    - assert (score_value (score db userId r)) as Hv.
      { apply score_is_score_value. unfold recipes_ok in Hok.
        rewrite Forall_forall in Hok. now apply Hok. }
      destruct Hv as [E|(m & e & Hn & _)].
      + rewrite E. cbn [to_Q]. now apply gt_zero_to_Q.
      + rewrite (gt_zero_normal _ _ _ Hn) in Hg. discriminate. }
  split; [exact Hle | now apply Math_round_mono].
Qed.

Lemma left_out_never_beats_listed_witness :
  recipes_ok db_one_slot
  /\ map p_id (data_suggestions (getSuggestions db_one_slot "u")) = ["B"]
  /\ exists p, In p (data_suggestions (getSuggestions db_one_slot "u"))
       /\ Math_round (score db_one_slot "u" (Fixtures.mkRecipe "A" ["tomato"; "garlic"]))
          <= compatibilityScore p.
Proof.
  assert (recipes_ok db_one_slot) as Hok by (unfold recipes_ok; repeat constructor).
  split; [exact Hok|]. split; [vm_compute; reflexivity|].
  eexists. split; [vm_compute; left; reflexivity|].
  refine (proj2 (left_out_never_beats_listed db_one_slot "u" _
                   (Fixtures.mkRecipe "A" ["tomato"; "garlic"]) Hok _ _ _ _)).
  - vm_compute. left. reflexivity.
  - in_computed_list.
  - vm_compute. reflexivity.
  - intros q Hq. vm_compute in Hq. destruct Hq as [<-|[]]. discriminate.
Defined.

Lemma map_filter_ext {A B : Type} (g : A -> B) (f : B -> bool) (h : A -> bool) (l : list A) :
  (forall x, In x l -> f (g x) = h x) ->
  filter f (map g l) = map g (filter h l).
Proof.
  induction l as [|x l IH]; intro H; [reflexivity|]. cbn [map filter].
  rewrite (H x (or_introl eq_refl)), IH by (intros y Hy; apply H; now right).
  destruct (h x); reflexivity.
Qed.

Lemma ranked_recipes (db : DB) (userId : string) :
  recipes_ok db ->
  Permutation (map sr_recipe (ranked db userId)) (candidates db userId).
Proof.
  intro Hok. unfold ranked.
  eapply perm_trans; [apply Permutation_sym, Permutation_map, Array_sort_perm|].
  unfold scoredRecipes, allRecipes, candidates.
  rewrite (map_filter_ext _ _
             (fun r => negb (Nat.eqb (availableIngredients db userId r) 0)
                       && negb (includes (favoriteIdsSet db userId) (r_id r)))).
  - rewrite map_map. cbn [sr_recipe]. rewrite map_id. apply Permutation_refl.
  - intros r Hr. cbn [sr_score sr_recipe]. rewrite gt_score_available; [reflexivity|].
    unfold recipes_ok in Hok. rewrite Forall_forall in Hok. now apply Hok.
Qed.

(** X4: when the inventory is not empty and the non-favorite recipes with
    an ingredient on hand fit into the slots the favorites leave, the
    response lists exactly those recipes, each once. *)
Theorem all_candidates_listed (db : DB) (userId : string) :
  recipes_ok db ->
  availableIngredientIds db userId <> [] ->
  (List.length (candidates db userId) + List.length (favoriteRecipes db userId) <= 10)%nat ->
  Permutation (map p_recipe (data_suggestions (getSuggestions db userId)))
              (candidates db userId).
Proof.
  intros Hok Hinv Hroom.
  rewrite (response_nonempty_inventory db userId Hinv), suggestions_ranked, map_map.
  cbn [suggestionPayload p_recipe].
  pose proof (ranked_recipes db userId Hok) as Hperm.
  unfold slice0. rewrite firstn_all2; [exact Hperm|].
  apply Permutation_length in Hperm. rewrite length_map in Hperm.
  unfold favoriteRecipesPayload, Math_max. rewrite length_map. lia.
Qed.

Lemma all_candidates_listed_witness :
  recipes_ok Fixtures.db_kitchen
  /\ availableIngredientIds Fixtures.db_kitchen "u" <> []
  /\ map r_id (candidates Fixtures.db_kitchen "u") = ["A"; "B"]
  /\ Permutation (map p_recipe (data_suggestions (getSuggestions Fixtures.db_kitchen "u")))
                 (candidates Fixtures.db_kitchen "u").
Proof.
  assert (recipes_ok Fixtures.db_kitchen) as Hok by (unfold recipes_ok; repeat constructor).
  assert (availableIngredientIds Fixtures.db_kitchen "u" <> []) as Hinv
    by nonempty_by_computation.
  split; [exact Hok|]. split; [exact Hinv|]. split; [vm_compute; reflexivity|].
  apply (all_candidates_listed Fixtures.db_kitchen "u" Hok Hinv). vm_compute. lia.
Defined.

Lemma filter_length_incl (l : list RecipeIngredient) (ids1 ids2 : list string) :
  incl ids1 ids2 ->
  (List.length (filter (fun ri => includes ids1 (ri_ingredientId ri)) l)
   <= List.length (filter (fun ri => includes ids2 (ri_ingredientId ri)) l))%nat.
Proof.
  intro H. induction l as [|ri l IH]; [apply Nat.le_refl|]. cbn [filter].
  destruct (includes ids1 (ri_ingredientId ri)) eqn:E1.
  - apply includes_In, H, includes_In in E1. rewrite E1. cbn [List.length]. lia.
  - destruct (includes ids2 (ri_ingredientId ri)); cbn [List.length]; lia.
Qed.

(** X5: holding more never hurts: when every ingredient held in one
    snapshot is held in the other, no recipe gets a lower score, rounded or
    not, and none misses more ingredients. *)
Theorem more_on_hand_never_lowers_score (db1 db2 : DB) (userId : string) (r : Recipe) :
  incl (availableIngredientIds db1 userId) (availableIngredientIds db2 userId) ->
  array_ok (r_ingredients r) ->
  (to_Q (score db1 userId r) <= to_Q (score db2 userId r))%Q
  /\ Math_round (score db1 userId r) <= Math_round (score db2 userId r)
  /\ (missingIngredients db2 userId r <= missingIngredients db1 userId r)%nat.
Proof.
  intros Hincl Hok.
  assert (availableIngredients db1 userId r <= availableIngredients db2 userId r)%nat as Ha
    by (apply filter_length_incl; exact Hincl).
  assert (to_Q (score db1 userId r) <= to_Q (score db2 userId r))%Q as Hle.
  { destruct (r_ingredients r) as [|ri l] eqn:E.
    - rewrite !score_empty by assumption. apply Qle_refl.
    - rewrite !score_nonempty by (assumption || congruence).
      pose proof (available_le_total db2 userId r).
      apply score_of_mono; try lia.
      unfold array_ok, totalIngredients in *. rewrite E in *. cbn [List.length] in *. lia. }
  split; [exact Hle|]. split; [now apply Math_round_mono|].
  pose proof (missing_plus_available db1 userId r).
  pose proof (missing_plus_available db2 userId r). lia.
Qed.

Lemma more_on_hand_never_lowers_score_witness :
  incl (availableIngredientIds Fixtures.db_kitchen "u")
       (availableIngredientIds db_kitchen_restocked "u")
  /\ Math_round (score Fixtures.db_kitchen "u"
                   (Fixtures.mkRecipe "A" ["tomato"; "onion"; "garlic"])) = 67
  /\ Math_round (score db_kitchen_restocked "u"
                   (Fixtures.mkRecipe "A" ["tomato"; "onion"; "garlic"])) = 100
  /\ Math_round (score Fixtures.db_kitchen "u"
                   (Fixtures.mkRecipe "A" ["tomato"; "onion"; "garlic"]))
     <= Math_round (score db_kitchen_restocked "u"
                   (Fixtures.mkRecipe "A" ["tomato"; "onion"; "garlic"])).
Proof.
  assert (incl (availableIngredientIds Fixtures.db_kitchen "u")
               (availableIngredientIds db_kitchen_restocked "u")) as Hincl
    by (intros x Hx; right; exact Hx).
  split; [exact Hincl|]. split; [vm_compute; reflexivity|]. split; [vm_compute; reflexivity|].
  apply (more_on_hand_never_lowers_score Fixtures.db_kitchen db_kitchen_restocked "u" _ Hincl).
  vm_compute. reflexivity.
Defined.

(** Nothing missing of a non-empty list of lines gives the score 100. *)
Lemma nothing_missing_scores_100 (db : DB) (userId : string) (r : Recipe) :
  r_ingredients r <> [] ->
  array_ok (r_ingredients r) ->
  missingIngredients db userId r = 0%nat ->
  Math_round (score db userId r) = 100.
Proof.
  intros Hne Hok Hm.
  pose proof (missing_plus_available db userId r) as Hsum.
  assert (0 < totalIngredients r)%nat as Hpos
    by (unfold totalIngredients; destruct (r_ingredients r); cbn; [congruence | lia]).
  assert (0 < Z.of_nat (totalIngredients r) < 2 ^ 32) as Ht
    by (unfold array_ok, totalIngredients in *; lia).
  rewrite (score_nonempty db userId r Hok Hne).
  replace (availableIngredients db userId r) with (totalIngredients r) by lia.
  now apply Math_round_score_of_full.
Qed.

(** X6: a recipe with at least one ingredient line gets the score 100 when
    nothing is missing, and, with fewer than 200 lines, only then. *)
Theorem score_100_iff_nothing_missing (db : DB) (userId : string) (r : Recipe) :
  r_ingredients r <> [] ->
  array_ok (r_ingredients r) ->
  (missingIngredients db userId r = 0%nat -> Math_round (score db userId r) = 100)
  /\ ((totalIngredients r < 200)%nat ->
      Math_round (score db userId r) = 100 -> missingIngredients db userId r = 0%nat).
Proof.
  intros Hne Hok.
  pose proof (missing_plus_available db userId r) as Hsum.
  pose proof (available_le_total db userId r) as Hle.
  assert (0 < totalIngredients r)%nat as Hpos
    by (unfold totalIngredients; destruct (r_ingredients r); cbn; [congruence | lia]).
  assert (0 < Z.of_nat (totalIngredients r) < 2 ^ 32) as Ht
    by (unfold array_ok, totalIngredients in *; lia).
  split; [now apply nothing_missing_scores_100|].
  rewrite (score_nonempty db userId r Hok Hne).
  intros Hsmall Hs.
  destruct (Nat.eq_dec (missingIngredients db userId r) 0) as [E|N]; [exact E|]. exfalso.
  set (a := Z.of_nat (availableIngredients db userId r)) in *.
  set (t := Z.of_nat (totalIngredients r)) in *.
  assert (0 <= a <= t - 1) as Ha by (unfold a, t; lia).
  assert (t < 200) as Ht200 by (unfold t; lia).
  assert (Math_round (score_of a t) <= (200 * a + t) / (2 * t)) as Hup.
  { destruct (Z.eq_dec a 0) as [E0|N0].
    - rewrite E0, score_of_0 by (assert (2 ^ 32 < 2 ^ 53) by reflexivity; lia).
      change (Math_round (S754_zero false)) with 0. apply Z.div_pos; lia.
    - destruct (Z.eq_dec ((200 * a + t) mod (2 * t)) 0) as [Hh|Hh].
      + apply Math_round_score_of_halfway; [lia | lia | exact Hh].
      + rewrite Math_round_score_of; [lia | lia | lia | exact Hh]. }
  assert ((200 * a + t) / (2 * t) < 100) as Hlt
    by (apply Z.div_lt_upper_bound; lia).
  lia.
Qed.

Lemma score_100_iff_nothing_missing_witness :
  missingIngredients Fixtures.db_kitchen "u" (Fixtures.mkRecipe "B" ["tomato"]) = 0%nat
  /\ Math_round (score Fixtures.db_kitchen "u" (Fixtures.mkRecipe "B" ["tomato"])) = 100.
Proof.
  split; [reflexivity|].
  apply (score_100_iff_nothing_missing Fixtures.db_kitchen "u" (Fixtures.mkRecipe "B" ["tomato"])).
  - discriminate.
  - vm_compute. reflexivity.
  - reflexivity.
Defined.

Lemma filter_andb {A : Type} (f g : A -> bool) (l : list A) :
  filter (fun x => f x && g x) l = filter g (filter f l).
Proof.
  induction l as [|x l IH]; [reflexivity|]. cbn [filter].
  destruct (f x); cbn [andb filter]; [destruct (g x)|]; now rewrite IH.
Qed.

Lemma recipe_favoriteRecipes_own_rows (db : DB) (userId : string) (r : Recipe) :
  recipe_favoriteRecipes db userId r
  = filter (fun fv => String.eqb (fav_recipeId fv) (r_id r)) (favoriteRecipeIds db userId).
Proof. unfold recipe_favoriteRecipes, favoriteRecipeIds. apply filter_andb. Qed.

(** What the handler reads of a snapshot: the recipes and the requesting
    user's own fridge and favorite rows. *)
Lemma getSuggestions_reads (db1 db2 : DB) (userId : string) :
  tbl_recipe db1 = tbl_recipe db2 ->
  availableIngredientIds db1 userId = availableIngredientIds db2 userId ->
  favoriteRecipeIds db1 userId = favoriteRecipeIds db2 userId ->
  getSuggestions db1 userId = getSuggestions db2 userId
  /\ combinedSuggestions db1 userId = combinedSuggestions db2 userId.
Proof.
  intros Hr Ha Hf.
  assert (forall r, recipe_favoriteRecipes db1 userId r = recipe_favoriteRecipes db2 userId r) as Hrel
    by (intro r; now rewrite !recipe_favoriteRecipes_own_rows, Hf).
  assert (favoriteIdsSet db1 userId = favoriteIdsSet db2 userId) as Hset
    by (unfold favoriteIdsSet; now rewrite Hf).
  assert (forall r, score db1 userId r = score db2 userId r) as Hscore
    by (intro r; unfold score, availableIngredients; now rewrite Ha).
  assert (forall r, ingredientsPayload db1 userId r = ingredientsPayload db2 userId r) as Hip
    by (intro r; unfold ingredientsPayload; now rewrite Ha).
  assert (favoriteRecipesPayload db1 userId = favoriteRecipesPayload db2 userId) as Hfp.
  { unfold favoriteRecipesPayload, favoriteRecipes. rewrite Hr, Hset.
    apply map_ext. intro r. now rewrite Hip. }
  assert (scoredRecipes db1 userId = scoredRecipes db2 userId) as Hsc.
  { unfold scoredRecipes, allRecipes. rewrite Hr. apply map_ext. intro r.
    rewrite Hscore. unfold missingIngredients. now rewrite Ha. }
  assert (suggestions db1 userId = suggestions db2 userId) as Hsg.
  { unfold suggestions. rewrite Hfp, Hsc, Hset. apply map_ext. intro s.
    now rewrite Hip, Hrel. }
  split.
  - unfold getSuggestions. now rewrite Ha, Hsg.
  - unfold combinedSuggestions. now rewrite Hfp, Hsg.
Qed.

(** X7: a user's suggestions depend on nobody else's rows: two snapshots
    with the same recipes and the same fridge and favorite rows of the
    requesting user give the same response. *)
Theorem suggestions_ignore_other_users (db1 db2 : DB) (userId : string) :
  tbl_recipe db1 = tbl_recipe db2 ->
  userFridgeItems db1 userId = userFridgeItems db2 userId ->
  favoriteRecipeIds db1 userId = favoriteRecipeIds db2 userId ->
  getSuggestions db1 userId = getSuggestions db2 userId.
Proof.
  intros Hr Hfr Hf. apply getSuggestions_reads; [assumption| |assumption].
  unfold availableIngredientIds. now rewrite Hfr.
Qed.

Lemma suggestions_ignore_other_users_witness :
  firstn 2 (tbl_fridgeItem Fixtures.db_kitchen) <> tbl_fridgeItem Fixtures.db_kitchen
  /\ getSuggestions
       {| tbl_fridgeItem := tbl_fridgeItem Fixtures.db_kitchen;
          tbl_recipe := tbl_recipe Fixtures.db_kitchen;
          tbl_favoriteRecipe := tbl_favoriteRecipe Fixtures.db_kitchen |} "u"
     = getSuggestions
       {| tbl_fridgeItem := firstn 2 (tbl_fridgeItem Fixtures.db_kitchen);
          tbl_recipe := tbl_recipe Fixtures.db_kitchen;
          tbl_favoriteRecipe := firstn 1 (tbl_favoriteRecipe Fixtures.db_kitchen) |} "u".
Proof.
  split; [discriminate|].
  apply suggestions_ignore_other_users; reflexivity.
Defined.

(** ** GET /recipes and GET /recipes/:id *)

Lemma find_recipe_In (db : DB) (id : string) (r : Recipe) :
  findRecipe db id = Some r -> In r (tbl_recipe db) /\ r_id r = id.
Proof.
  unfold findRecipe. intro H. apply find_some in H. destruct H as [H E].
  apply String.eqb_eq in E. tauto.
Qed.

(** The flag of the relation include agrees with the set of favorite ids. *)
Lemma favorite_flag_is_membership (db : DB) (userId : string) (r : Recipe) :
  negb (Nat.eqb (List.length (recipe_favoriteRecipes db userId r)) 0)
  = includes (favoriteIdsSet db userId) (r_id r).
Proof.
  destruct (includes (favoriteIdsSet db userId) (r_id r)) eqn:E.
  - apply includes_In in E. unfold favoriteIdsSet in E. apply Set_of_In, in_map_iff in E.
    destruct E as (fv & Eid & Hfv).
    rewrite recipe_favoriteRecipes_own_rows.
    destruct (filter _ (favoriteRecipeIds db userId)) as [|x xs] eqn:F; [|reflexivity].
    exfalso. assert (In fv []) as Hin; [|destruct Hin].
    rewrite <- F. apply filter_In. split; [assumption|]. rewrite Eid. apply String.eqb_refl.
  - rewrite (not_favorite_no_rows db userId r E). reflexivity.
Qed.

(** What [filterSchema] lets through of a query: [search] and [difficulty]
    only; the parsed filters are then those of the first page of twenty. *)
Lemma filterSchema_parse_ok (q : Query) (f : Filters) :
  filterSchema_parse q = Some f ->
  (q_maxPrepTime q = None /\ q_makeable q = None /\ q_page q = None /\ q_limit q = None)
  /\ (f_maxPrepTime f = None /\ f_makeable f = None /\ f_page f = 1 /\ f_limit f = 20)
  /\ filters_ok f.
Proof.
  unfold filterSchema_parse.
  destruct (z_optional z_string (q_search q)) as [search|]; [|discriminate].
  destruct (z_optional z_enum_difficulty (q_difficulty q)) as [difficulty|]; [|discriminate].
  destruct (q_maxPrepTime q) as [[]|]; cbn; try discriminate.
  destruct (q_makeable q) as [[]|]; cbn; try discriminate.
  destruct (q_page q) as [[]|]; cbn; try discriminate.
  destruct (q_limit q) as [[]|]; cbn; try discriminate.
  intro H. injection H as <-. unfold filters_ok. cbn. repeat split; lia.
Qed.

Lemma filterSchema_parse_refuses (q : Query) :
  q_maxPrepTime q <> None \/ q_makeable q <> None \/ q_page q <> None \/ q_limit q <> None ->
  filterSchema_parse q = None.
Proof.
  intro H. destruct (filterSchema_parse q) as [f|] eqn:P; [|reflexivity].
  apply filterSchema_parse_ok in P. destruct P as ((H1 & H2 & H3 & H4) & _). tauto.
Qed.

Section ListingFacts.

Variable icontains : string -> string -> bool.
Variable orderByCreatedAtDesc : list Recipe -> list Recipe.
Hypothesis orderBy_perm : forall l, Permutation l (orderByCreatedAtDesc l).

Variable db : DB.
Variable userId : string.

Lemma listing_rows_In (f : Filters) (r : Recipe) :
  In r (listing_rows icontains orderByCreatedAtDesc db userId f)
  <-> In r (tbl_recipe db) /\ where_all icontains db userId f r = true.
Proof.
  unfold listing_rows. rewrite <- filter_In. split; apply Permutation_in;
    [apply Permutation_sym|]; apply orderBy_perm.
Qed.

Lemma listing_rows_length (f : Filters) :
  List.length (listing_rows icontains orderByCreatedAtDesc db userId f)
  = listing_total icontains db userId f.
Proof.
  unfold listing_rows, listing_total. symmetry. apply Permutation_length, orderBy_perm.
Qed.

(** Without [makeable], the handler reads the recipes and the user's
    favorite rows only. *)
Lemma listRecipes_with_reads (db' : DB) (f : Filters) :
  f_makeable f = None ->
  tbl_recipe db' = tbl_recipe db ->
  tbl_favoriteRecipe db' = tbl_favoriteRecipe db ->
  listRecipes_with icontains orderByCreatedAtDesc db' userId f
  = listRecipes_with icontains orderByCreatedAtDesc db userId f.
Proof.
  intros Hmk Hrec Hfav.
  assert (forall r, where_all icontains db' userId f r = where_all icontains db userId f r) as Hw
    by (intro r; unfold where_all; now rewrite Hmk).
  assert (filter (where_all icontains db' userId f) (tbl_recipe db')
          = filter (where_all icontains db userId f) (tbl_recipe db)) as Hrows
    by (rewrite Hrec; apply filter_ext; exact Hw).
  assert (forall r, formatRecipe db' userId r = formatRecipe db userId r) as Hfmt
    by (intro r; unfold formatRecipe, recipe_favoriteRecipes; now rewrite Hfav).
  unfold listRecipes_with, listing_page, listing_rows, listing_total.
  rewrite Hrows. f_equal. apply map_ext. exact Hfmt.
Qed.

(** X8: GET /recipes never serves [makeable]: a request that names it,
    whatever the value, is answered 400, so the branch that reads the
    fridge never runs, and the answer to any request is the same on two
    snapshots that differ in their fridge rows only. *)
Theorem makeable_never_served (db' : DB) (q : Query) :
  tbl_recipe db' = tbl_recipe db ->
  tbl_favoriteRecipe db' = tbl_favoriteRecipe db ->
  (q_makeable q <> None ->
   listRecipes icontains orderByCreatedAtDesc db userId q = list_bad_request)
  /\ listRecipes icontains orderByCreatedAtDesc db' userId q
     = listRecipes icontains orderByCreatedAtDesc db userId q.
Proof.
  intros Hrec Hfav. unfold listRecipes. split.
  - intro H. rewrite filterSchema_parse_refuses; [reflexivity | tauto].
  - destruct (filterSchema_parse q) as [f|] eqn:P; [|reflexivity].
    apply filterSchema_parse_ok in P. destruct P as (_ & (_ & Hmk & _) & _).
    f_equal. now apply listRecipes_with_reads.
Qed.

(** X9: the listing and the detail route flag a recipe as favorite
    exactly when its identifier is in the set of favorite ids the
    suggestion handler uses: for the handler on any parsed filters, for
    the detail route, and so for every answer of GET /recipes. *)
Theorem favorite_flag_agrees (f : Filters) (id : string) :
  (forall e, In e (ls_recipes (listRecipes_with icontains orderByCreatedAtDesc db userId f)) ->
     lr_isFavorite e = includes (favoriteIdsSet db userId) (r_id (lr_recipe e)))
  /\ (forall e, dt_recipe (getRecipe db userId id) = Some e ->
        r_id (lr_recipe e) = id
        /\ lr_isFavorite e = includes (favoriteIdsSet db userId) id)
  /\ (forall q resp e,
        listRecipes icontains orderByCreatedAtDesc db userId q = list_ok resp ->
        In e (ls_recipes resp) ->
        lr_isFavorite e = includes (favoriteIdsSet db userId) (r_id (lr_recipe e))).
Proof.
  assert (forall f' e,
            In e (ls_recipes (listRecipes_with icontains orderByCreatedAtDesc db userId f')) ->
            lr_isFavorite e = includes (favoriteIdsSet db userId) (r_id (lr_recipe e))) as Hbody.
  { intros f' e He. cbn [listRecipes_with ls_recipes] in He. apply in_map_iff in He.
    destruct He as (r & <- & _). apply favorite_flag_is_membership. }
  split; [apply Hbody|]. split.
  - intros e He. unfold getRecipe in He. destruct (findRecipe db id) as [r|] eqn:F;
      cbn [dt_recipe] in He; [|discriminate].
    injection He as <-. apply find_recipe_In in F. destruct F as [_ <-].
    split; [reflexivity|]. apply favorite_flag_is_membership.
  - intros q resp e Hq. unfold listRecipes in Hq.
    destruct (filterSchema_parse q) as [f'|]; [|discriminate].
    injection Hq as <-. apply Hbody.
Qed.

(** X10: GET /recipes serves the first page of twenty only.  A request
    that names page, limit or maxPrepTime is answered 400.  Every other
    answer carries page 1 and limit 20 and holds the first twenty rows
    that satisfy the filters, in the order of the query; its total is the
    number of those rows and, with fewer than 2^32 recipes, its
    totalPages is the exact ceiling of total / 20. *)
Theorem only_first_page_served (q : Query) :
  array_ok (tbl_recipe db) ->
  (q_page q <> None \/ q_limit q <> None \/ q_maxPrepTime q <> None ->
   listRecipes icontains orderByCreatedAtDesc db userId q = list_bad_request)
  /\ forall resp,
       listRecipes icontains orderByCreatedAtDesc db userId q = list_ok resp ->
       exists f, filterSchema_parse q = Some f
         /\ ls_recipes resp
            = map (formatRecipe db userId)
                  (firstn 20 (listing_rows icontains orderByCreatedAtDesc db userId f))
         /\ (List.length (ls_recipes resp) <= 20)%nat
         /\ pg_page (ls_pagination resp) = 1
         /\ pg_limit (ls_pagination resp) = 20
         /\ pg_total (ls_pagination resp)
            = List.length (listing_rows icontains orderByCreatedAtDesc db userId f)
         /\ pg_totalPages (ls_pagination resp)
            = (Z.of_nat (pg_total (ls_pagination resp)) + 19) / 20.
Proof.
  intro Hok. unfold listRecipes. split.
  - intro H. rewrite filterSchema_parse_refuses; [reflexivity | tauto].
  - intros resp Hq. destruct (filterSchema_parse q) as [f|] eqn:P; [|discriminate].
    injection Hq as <-. exists f. split; [reflexivity|].
    apply filterSchema_parse_ok in P. destruct P as (_ & (_ & _ & Hpage & Hlimit) & _).
    assert (Z.of_nat (listing_total icontains db userId f) < 2 ^ 32) as Htot.
    { unfold listing_total. unfold array_ok in Hok.
      pose proof (List.filter_length_le (where_all icontains db userId f) (tbl_recipe db)).
      lia. }
    cbn [listRecipes_with ls_recipes ls_pagination pg_page pg_limit pg_total pg_totalPages].
    unfold listing_page. rewrite Hpage, Hlimit.
    change (Z.to_nat ((1 - 1) * 20)) with 0%nat. change (Z.to_nat 20) with 20%nat.
    cbn [skipn].
    split; [reflexivity|]. split; [rewrite length_map, length_firstn; apply Nat.le_min_l|].
    split; [reflexivity|]. split; [reflexivity|].
    split; [symmetry; apply listing_rows_length|].
    unfold of_nat. rewrite Math_ceil_div by lia. f_equal. lia.
Qed.

End ListingFacts.

(** ** POST and DELETE /recipes/:id/favorite, DELETE /recipes/:id *)

Lemma findFavorite_None (db : DB) (userId id : string) :
  findFavorite db userId id = None <->
  ~ In (userId, id) (map (fun fv => (fav_userId fv, fav_recipeId fv)) (tbl_favoriteRecipe db)).
Proof.
  unfold findFavorite. split.
  - intros H Hin. apply in_map_iff in Hin. destruct Hin as (fv & E & Hfv).
    injection E as Eu Er.
    apply (find_none _ _ H) in Hfv. rewrite Eu, Er, !String.eqb_refl in Hfv. discriminate.
  - intro H. destruct (find _ _) as [fv|] eqn:F; [|reflexivity].
    exfalso. apply H. apply find_some in F. destruct F as [Hin E].
    apply andb_prop in E. destruct E as [Eu Er].
    apply String.eqb_eq in Eu, Er. apply in_map_iff. exists fv. rewrite Eu, Er. tauto.
Qed.

Lemma addFavorite_cases (db : DB) (userId id rowId : string) :
  (findRecipe db id = None
   /\ addFavorite db userId id rowId
      = ({| rp_status := 404; rp_success := false; rp_message := "Recette non trouvée" |}, db))
  \/ (findRecipe db id <> None /\ findFavorite db userId id <> None
      /\ addFavorite db userId id rowId
         = ({| rp_status := 400; rp_success := false;
               rp_message := "Cette recette est déjà dans vos favoris" |}, db))
  \/ (findRecipe db id <> None /\ findFavorite db userId id = None
      /\ rp_status (fst (addFavorite db userId id rowId)) = 200
      /\ tbl_fridgeItem (snd (addFavorite db userId id rowId)) = tbl_fridgeItem db
      /\ tbl_recipe (snd (addFavorite db userId id rowId)) = tbl_recipe db
      /\ tbl_favoriteRecipe (snd (addFavorite db userId id rowId))
         = (tbl_favoriteRecipe db
            ++ [{| fav_id := rowId; fav_userId := userId; fav_recipeId := id |}])%list).
Proof.
  unfold addFavorite. destruct (findRecipe db id) as [r|]; [|left; tauto].
  right. destruct (findFavorite db userId id) as [fv|].
  - left. repeat split; discriminate.
  - right. cbn. repeat split; discriminate.
Qed.

Lemma removeFavorite_cases (db : DB) (userId id : string) :
  (findFavorite db userId id = None
   /\ removeFavorite db userId id
      = ({| rp_status := 404; rp_success := false;
            rp_message := "Cette recette n'est pas dans vos favoris" |}, db))
  \/ (findFavorite db userId id <> None
      /\ rp_status (fst (removeFavorite db userId id)) = 200
      /\ tbl_fridgeItem (snd (removeFavorite db userId id)) = tbl_fridgeItem db
      /\ tbl_recipe (snd (removeFavorite db userId id)) = tbl_recipe db
      /\ tbl_favoriteRecipe (snd (removeFavorite db userId id))
         = filter (fun fv => negb (String.eqb (fav_userId fv) userId
                                   && String.eqb (fav_recipeId fv) id))
                  (tbl_favoriteRecipe db)).
Proof.
  unfold removeFavorite. destruct (findFavorite db userId id) as [fv|]; [right|left; tauto].
  cbn. repeat split; discriminate.
Qed.

Lemma findRecipe_same_recipes (db db' : DB) (id : string) :
  tbl_recipe db' = tbl_recipe db -> findRecipe db' id = findRecipe db id.
Proof. unfold findRecipe. now intros ->. Qed.

(** X11: the two favorite handlers keep the table well formed: never two
    rows for the same user and recipe, and every row pointing to a recipe
    of the catalog. *)
Theorem favorite_handlers_keep_invariants (db : DB) (userId id rowId : string) :
  favorites_unique db -> favorites_refer db ->
  (favorites_unique (snd (addFavorite db userId id rowId))
   /\ favorites_refer (snd (addFavorite db userId id rowId)))
  /\ (favorites_unique (snd (removeFavorite db userId id))
      /\ favorites_refer (snd (removeFavorite db userId id))).
Proof.
  intros Hu Hr. split.
  - destruct (addFavorite_cases db userId id rowId)
      as [(_ & ->)|[(_ & _ & ->)|(Hrec & Hnone & _ & _ & Er & Ef)]]; try tauto.
    split.
    + unfold favorites_unique. rewrite Ef, map_app. cbn [map fav_userId fav_recipeId].
      apply NoDup_app; [exact Hu | repeat constructor; intros [] |].
      intros k Hk [<-|[]]. apply findFavorite_None in Hnone. contradiction.
    + intros fv Hfv. rewrite (findRecipe_same_recipes _ _ _ Er).
      rewrite Ef in Hfv. apply in_app_or in Hfv. destruct Hfv as [Hfv|[<-|[]]];
        [now apply Hr | exact Hrec].
  - destruct (removeFavorite_cases db userId id)
      as [(_ & ->)|(_ & _ & _ & Er & Ef)]; try tauto.
    split.
    + unfold favorites_unique. rewrite Ef. now apply NoDup_map_filter.
    + intros fv Hfv. rewrite (findRecipe_same_recipes _ _ _ Er).
      rewrite Ef in Hfv. apply filter_In in Hfv. now apply Hr.
Qed.

(** X12: a request the favorite handlers turn down changes nothing: a
    second POST for a recipe just added is answered 400 and a second
    DELETE for a recipe just removed is answered 404, both leaving the
    snapshot as it was. *)
Theorem favorite_twice_is_refused (db : DB) (userId id rowId rowId' : string) :
  (rp_status (fst (addFavorite db userId id rowId)) = 200 ->
   addFavorite (snd (addFavorite db userId id rowId)) userId id rowId'
   = ({| rp_status := 400; rp_success := false;
         rp_message := "Cette recette est déjà dans vos favoris" |},
      snd (addFavorite db userId id rowId)))
  /\ (rp_status (fst (removeFavorite db userId id)) = 200 ->
      removeFavorite (snd (removeFavorite db userId id)) userId id
      = ({| rp_status := 404; rp_success := false;
            rp_message := "Cette recette n'est pas dans vos favoris" |},
         snd (removeFavorite db userId id))).
Proof.
  split.
  - intro Hs. destruct (addFavorite_cases db userId id rowId)
      as [(_ & E)|[(_ & _ & E)|(Hrec & Hnone & _ & _ & Er & Ef)]];
      try (rewrite E in Hs; discriminate Hs).
    set (db' := snd (addFavorite db userId id rowId)) in *.
    destruct (addFavorite_cases db' userId id rowId')
      as [(Hn & _)|[(_ & _ & E)|(_ & Hnone' & _)]]; [| exact E |].
    + rewrite (findRecipe_same_recipes _ _ _ Er) in Hn. contradiction.
    + exfalso. apply findFavorite_None in Hnone'. apply Hnone'.
      rewrite Ef, map_app. apply in_or_app. right. now left.
  - intro Hs. destruct (removeFavorite_cases db userId id)
      as [(_ & E)|(Hsome & _ & _ & Er & Ef)]; [rewrite E in Hs; discriminate Hs|].
    set (db' := snd (removeFavorite db userId id)) in *.
    destruct (removeFavorite_cases db' userId id) as [(_ & E)|(Hsome' & _)]; [exact E|].
    exfalso. apply Hsome'. apply findFavorite_None. rewrite Ef. intro Hin.
    apply in_map_iff in Hin. destruct Hin as (fv & E & Hfv). injection E as Eu Ei.
    apply filter_In in Hfv. destruct Hfv as [_ Hfv].
    rewrite Eu, Ei, !String.eqb_refl in Hfv. discriminate.
Qed.

Lemma filter_absent_key (favs : list FavoriteRecipe) (userId id : string) :
  ~ In (userId, id) (map (fun fv => (fav_userId fv, fav_recipeId fv)) favs) ->
  filter (fun fv => negb (String.eqb (fav_userId fv) userId && String.eqb (fav_recipeId fv) id))
         favs = favs.
Proof.
  intro H. apply filter_all. intros fv Hfv. apply negb_true_iff.
  destruct (String.eqb_spec (fav_userId fv) userId) as [Eu|]; [|reflexivity].
  destruct (String.eqb_spec (fav_recipeId fv) id) as [Ei|]; [|reflexivity].
  exfalso. apply H. apply in_map_iff. exists fv. rewrite Eu, Ei. tauto.
Qed.

(** X13: adding a favorite and removing it again gives back the snapshot:
    after a POST answered 200, the DELETE for the same recipe is answered
    200 and leaves the three tables as they were before the POST. *)
Theorem favorite_add_then_remove (db : DB) (userId id rowId : string) :
  rp_status (fst (addFavorite db userId id rowId)) = 200 ->
  rp_status (fst (removeFavorite (snd (addFavorite db userId id rowId)) userId id)) = 200
  /\ snd (removeFavorite (snd (addFavorite db userId id rowId)) userId id) = db.
Proof.
  intro Hs. destruct (addFavorite_cases db userId id rowId)
    as [(_ & E)|[(_ & _ & E)|(Hrec & Hnone & _ & Efr & Er & Ef)]];
    try (rewrite E in Hs; discriminate Hs).
  set (db' := snd (addFavorite db userId id rowId)) in *.
  destruct (removeFavorite_cases db' userId id) as [(Hn & _)|(_ & Hst & Efr' & Er' & Ef')].
  - exfalso. apply findFavorite_None in Hn. apply Hn.
    rewrite Ef, map_app. apply in_or_app. right. now left.
  - split; [exact Hst|].
    apply findFavorite_None in Hnone. apply filter_absent_key in Hnone.
    destruct (snd (removeFavorite db' userId id)) as [fr rc fv]. cbn in Efr', Er', Ef'.
    subst fr rc fv. rewrite Efr, Er, Ef.
    rewrite filter_app. cbn [filter fav_userId fav_recipeId].
    rewrite !String.eqb_refl. cbn [andb negb].
    rewrite app_nil_r, Hnone. now destruct db.
Qed.

Lemma favoriteIdsSet_In (db : DB) (userId id : string) :
  In id (favoriteIdsSet db userId) <-> findFavorite db userId id <> None.
Proof.
  unfold favoriteIdsSet, favoriteRecipeIds. rewrite Set_of_In, in_map_iff. split.
  - intros (fv & E & Hfv) Hn. apply filter_In in Hfv. destruct Hfv as [Hfv Eu].
    apply String.eqb_eq in Eu. apply findFavorite_None in Hn. apply Hn.
    apply in_map_iff. exists fv. rewrite E, Eu. tauto.
  - intro H. unfold findFavorite in H.
    destruct (find _ (tbl_favoriteRecipe db)) as [fv|] eqn:F; [|contradiction].
    apply find_some in F. destruct F as [Hfv E]. apply andb_prop in E. destruct E as [Eu Ei].
    apply String.eqb_eq in Ei. exists fv. split; [assumption|].
    apply filter_In. tauto.
Qed.

Lemma findRecipe_id (db : DB) (id : string) (r : Recipe) :
  findRecipe db id = Some r -> r_id r = id.
Proof. intro H. apply find_some in H. now apply String.eqb_eq. Qed.

(** X14: what a favorite toggle changes for the user who made it: once the
    POST is answered 200 the detail route flags the recipe as favorite and
    the suggestions never list it; once the DELETE is answered 200 the
    detail route no longer flags it. *)
Theorem favorite_toggle_is_visible (db : DB) (userId id rowId : string) :
  (rp_status (fst (addFavorite db userId id rowId)) = 200 ->
   let db' := snd (addFavorite db userId id rowId) in
   (exists r, r_id r = id
              /\ dt_recipe (getRecipe db' userId id)
                 = Some {| lr_recipe := r; lr_isFavorite := true |})
   /\ forall p, In p (data_suggestions (getSuggestions db' userId)) -> p_id p <> id)
  /\ (rp_status (fst (removeFavorite db userId id)) = 200 ->
      forall l, dt_recipe (getRecipe (snd (removeFavorite db userId id)) userId id) = Some l ->
                lr_isFavorite l = false).
Proof.
  split.
  - intros Hs db'. subst db'.
    destruct (addFavorite_cases db userId id rowId)
      as [(_ & E)|[(_ & _ & E)|(Hrec & Hnone & _ & _ & Er & Ef)]];
      try (rewrite E in Hs; discriminate Hs).
    set (db' := snd (addFavorite db userId id rowId)) in *.
    assert (In id (favoriteIdsSet db' userId)) as Hin.
    { apply favoriteIdsSet_In. intro Hn. apply findFavorite_None in Hn. apply Hn.
      rewrite Ef, map_app. apply in_or_app. right. now left. }
    split.
    + unfold getRecipe. rewrite (findRecipe_same_recipes _ _ _ Er).
      destruct (findRecipe db id) as [r|] eqn:F; [|contradiction].
      exists r. pose proof (findRecipe_id _ _ _ F) as Eid. split; [assumption|].
      cbn [dt_recipe]. unfold formatRecipe. rewrite favorite_flag_is_membership, Eid.
      apply includes_In in Hin. now rewrite Hin.
    + intros p Hp Eid. apply response_incl, suggestions_not_favorite in Hp.
      destruct Hp as [_ Hp]. rewrite Eid in Hp. apply includes_In in Hin. congruence.
  - intros Hs l.
    destruct (removeFavorite_cases db userId id)
      as [(_ & E)|(Hsome & _ & _ & Er & Ef)]; [rewrite E in Hs; discriminate Hs|].
    set (db' := snd (removeFavorite db userId id)) in *.
    unfold getRecipe. destruct (findRecipe db' id) as [r|] eqn:F; [|discriminate].
    cbn [dt_recipe]. intro E. injection E as <-. cbn [lr_isFavorite].
    unfold formatRecipe. rewrite favorite_flag_is_membership, (findRecipe_id _ _ _ F).
    destruct (includes (favoriteIdsSet db' userId) id) eqn:I; [|reflexivity].
    exfalso. apply includes_In, favoriteIdsSet_In in I. apply I. apply findFavorite_None.
    rewrite Ef. intro Hin. apply in_map_iff in Hin. destruct Hin as (fv & E & Hfv).
    injection E as Eu Ei. apply filter_In in Hfv. destruct Hfv as [_ Hfv].
    rewrite Eu, Ei, !String.eqb_refl in Hfv. discriminate.
Qed.

Lemma filter_filter_weaker {A : Type} (f g : A -> bool) (l : list A) :
  (forall x, In x l -> g x = true -> f x = true) ->
  filter g (filter f l) = filter g l.
Proof.
  induction l as [|x l IH]; intro H; [reflexivity|]. cbn [filter].
  destruct (f x) eqn:Fx; cbn [filter].
  - rewrite IH; [reflexivity|]. intros y Hy. apply H. now right.
  - destruct (g x) eqn:Gx.
    + rewrite (H x (or_introl eq_refl) Gx) in Fx. discriminate.
    + apply IH. intros y Hy. apply H. now right.
Qed.

Lemma favorite_handlers_other_rows (db : DB) (userId other id rowId : string) :
  other <> userId ->
  favoriteRecipeIds (snd (addFavorite db userId id rowId)) other = favoriteRecipeIds db other
  /\ favoriteRecipeIds (snd (removeFavorite db userId id)) other = favoriteRecipeIds db other.
Proof.
  intro Hne. split.
  - destruct (addFavorite_cases db userId id rowId)
      as [(_ & ->)|[(_ & _ & ->)|(_ & _ & _ & _ & _ & Ef)]]; try reflexivity.
    unfold favoriteRecipeIds. rewrite Ef, filter_app. cbn [filter fav_userId].
    destruct (String.eqb_spec userId other) as [E|_]; [now subst|apply app_nil_r].
  - destruct (removeFavorite_cases db userId id)
      as [(_ & ->)|(_ & _ & _ & _ & Ef)]; try reflexivity.
    unfold favoriteRecipeIds. rewrite Ef. apply filter_filter_weaker.
    intros fv _ E. apply String.eqb_eq in E. rewrite E.
    destruct (String.eqb_spec other userId) as [|_]; [contradiction|reflexivity].
Qed.

Lemma favorite_handlers_keep_tables (db : DB) (userId id rowId : string) :
  (tbl_fridgeItem (snd (addFavorite db userId id rowId)) = tbl_fridgeItem db
   /\ tbl_recipe (snd (addFavorite db userId id rowId)) = tbl_recipe db)
  /\ (tbl_fridgeItem (snd (removeFavorite db userId id)) = tbl_fridgeItem db
      /\ tbl_recipe (snd (removeFavorite db userId id)) = tbl_recipe db).
Proof.
  split.
  - destruct (addFavorite_cases db userId id rowId)
      as [(_ & ->)|[(_ & _ & ->)|(_ & _ & _ & E1 & E2 & _)]]; tauto.
  - destruct (removeFavorite_cases db userId id) as [(_ & ->)|(_ & _ & E1 & E2 & _)]; tauto.
Qed.

(** X15: a favorite toggle of one user is invisible to the others: their
    suggestions and the favorite flag of every recipe they look up are the
    same before and after, whatever the handler answered. *)
Theorem favorite_toggle_is_private (db : DB) (userId other id rowId : string) :
  other <> userId ->
  forall db', db' = snd (addFavorite db userId id rowId)
              \/ db' = snd (removeFavorite db userId id) ->
  getSuggestions db' other = getSuggestions db other
  /\ forall id', getRecipe db' other id' = getRecipe db other id'.
Proof.
  intros Hne db' Hdb'.
  destruct (favorite_handlers_other_rows db userId other id rowId Hne) as [Ha Hr].
  destruct (favorite_handlers_keep_tables db userId id rowId) as [[Fa Ra] [Fr Rr]].
  assert (tbl_fridgeItem db' = tbl_fridgeItem db /\ tbl_recipe db' = tbl_recipe db
          /\ favoriteRecipeIds db' other = favoriteRecipeIds db other) as (Hf & Hrec & Hfav)
    by (destruct Hdb' as [-> | ->]; tauto).
  split.
  - apply getSuggestions_reads; [assumption| |assumption].
    unfold availableIngredientIds, userFridgeItems. now rewrite Hf.
  - intro id'. unfold getRecipe. rewrite (findRecipe_same_recipes _ _ _ Hrec).
    destruct (findRecipe db id'); [|reflexivity].
    unfold formatRecipe. now rewrite !recipe_favoriteRecipes_own_rows, Hfav.
Qed.

Lemma favorite_toggle_is_private_witness :
  rp_status (fst (addFavorite Fixtures.db_kitchen "v" "B" "row")) = 200
  /\ getSuggestions (snd (addFavorite Fixtures.db_kitchen "v" "B" "row")) "u"
     = getSuggestions Fixtures.db_kitchen "u".
Proof.
  split; [reflexivity|].
  apply (favorite_toggle_is_private Fixtures.db_kitchen "v" "u" "B" "row");
    [discriminate | now left].
Defined.

Lemma filter_length_le {A : Type} (f g : A -> bool) (l : list A) :
  (forall x, In x l -> f x = true -> g x = true) ->
  (List.length (filter f l) <= List.length (filter g l))%nat.
Proof.
  induction l as [|x l IH]; intro H; [apply Nat.le_refl|]. cbn [filter].
  assert (List.length (filter f l) <= List.length (filter g l))%nat as IH'
    by (apply IH; intros y Hy; apply H; now right).
  destruct (f x) eqn:Fx.
  - rewrite (H x (or_introl eq_refl) Fx). cbn [List.length]. lia.
  - destruct (g x); cbn [List.length]; lia.
Qed.

(** With the same recipes and the same inventory, more favorites mean at
    most as many suggestions. *)
Lemma suggestions_length_antitone (db1 db2 : DB) (userId : string) :
  tbl_recipe db1 = tbl_recipe db2 ->
  availableIngredientIds db1 userId = availableIngredientIds db2 userId ->
  (forall id, In id (favoriteIdsSet db1 userId) -> In id (favoriteIdsSet db2 userId)) ->
  (List.length (data_suggestions (getSuggestions db2 userId))
   <= List.length (data_suggestions (getSuggestions db1 userId)))%nat.
Proof.
  intros Hr Ha Hsub.
  assert (forall id, includes (favoriteIdsSet db1 userId) id = true ->
                     includes (favoriteIdsSet db2 userId) id = true) as Hinc
    by (intros id H; apply includes_In; apply Hsub; now apply includes_In).
  assert (scoredRecipes db1 userId = scoredRecipes db2 userId) as Hsc.
  { unfold scoredRecipes, allRecipes. rewrite Hr. apply map_ext. intro r.
    unfold score, missingIngredients, availableIngredients. now rewrite Ha. }
  unfold getSuggestions. rewrite Ha.
  destruct (Nat.eqb (List.length (availableIngredientIds db2 userId)) 0);
    [apply Nat.le_refl|]. cbn [data_suggestions].
  unfold suggestions. rewrite !length_map. unfold slice0. rewrite !length_firstn.
  rewrite <- !(Permutation_length (Array_sort_perm _ _)).
  unfold favoriteRecipesPayload. rewrite !length_map. unfold favoriteRecipes.
  rewrite Hsc, Hr.
  pose proof (filter_length_le (fun r => includes (favoriteIdsSet db1 userId) (r_id r))
                (fun r => includes (favoriteIdsSet db2 userId) (r_id r)) (tbl_recipe db2)
                (fun r _ => Hinc (r_id r))) as Hfav.
  pose proof (filter_length_le
                (fun s => gt (sr_score s) (of_Z 0)
                          && negb (includes (favoriteIdsSet db2 userId) (r_id (sr_recipe s))))
                (fun s => gt (sr_score s) (of_Z 0)
                          && negb (includes (favoriteIdsSet db1 userId) (r_id (sr_recipe s))))
                (scoredRecipes db2 userId)) as Hcand.
  unfold Math_max.
  assert (Z.to_nat (Z.max (10 - Z.of_nat (List.length
            (filter (fun r => includes (favoriteIdsSet db2 userId) (r_id r)) (tbl_recipe db2)))) 0)
          <= Z.to_nat (Z.max (10 - Z.of_nat (List.length
            (filter (fun r => includes (favoriteIdsSet db1 userId) (r_id r)) (tbl_recipe db2)))) 0))%nat
    as Hk by lia.
  assert (List.length (filter (fun s => gt (sr_score s) (of_Z 0)
                          && negb (includes (favoriteIdsSet db2 userId) (r_id (sr_recipe s))))
                        (scoredRecipes db2 userId))
          <= List.length (filter (fun s => gt (sr_score s) (of_Z 0)
                          && negb (includes (favoriteIdsSet db1 userId) (r_id (sr_recipe s))))
                        (scoredRecipes db2 userId)))%nat as Hc.
  { apply Hcand. intros s _ H. apply andb_prop in H. destruct H as [H1 H2].
    rewrite H1. cbn [andb]. apply negb_true_iff in H2. apply negb_true_iff.
    destruct (includes (favoriteIdsSet db1 userId) (r_id (sr_recipe s))) eqn:E; [|reflexivity].
    apply Hinc in E. congruence. }
  lia.
Qed.

(** X16: marking a recipe as favorite never lengthens the list of
    suggestions the user gets, and dropping a favorite never shortens it,
    whatever the two handlers answer. *)
Theorem favorites_crowd_out_suggestions (db : DB) (userId id rowId : string) :
  (List.length (data_suggestions (getSuggestions (snd (addFavorite db userId id rowId)) userId))
   <= List.length (data_suggestions (getSuggestions db userId)))%nat
  /\ (List.length (data_suggestions (getSuggestions db userId))
      <= List.length (data_suggestions
                        (getSuggestions (snd (removeFavorite db userId id)) userId)))%nat.
Proof.
  destruct (favorite_handlers_keep_tables db userId id rowId) as [[Fa Ra] [Fr Rr]].
  split.
  - apply suggestions_length_antitone; [now rewrite Ra | |].
    + unfold availableIngredientIds, userFridgeItems. now rewrite Fa.
    + intros i Hi. destruct (addFavorite_cases db userId id rowId)
        as [(_ & ->)|[(_ & _ & ->)|(_ & _ & _ & _ & _ & Ef)]]; try assumption.
      unfold favoriteIdsSet, favoriteRecipeIds in *. rewrite Set_of_In in *.
      rewrite Ef, filter_app, map_app. apply in_or_app. now left.
  - apply suggestions_length_antitone; [now rewrite Rr | |].
    + unfold availableIngredientIds, userFridgeItems. now rewrite Fr.
    + intros i Hi. destruct (removeFavorite_cases db userId id)
        as [(_ & E)|(_ & _ & _ & _ & Ef)]; [now rewrite E in Hi|].
      unfold favoriteIdsSet, favoriteRecipeIds in *. rewrite Set_of_In in *.
      rewrite Ef in Hi. apply in_map_iff in Hi. destruct Hi as (fv & E & Hfv).
      apply in_map_iff. exists fv. split; [assumption|].
      apply filter_In in Hfv. destruct Hfv as [Hfv Hu]. apply filter_In in Hfv.
      apply filter_In. tauto.
Qed.

Lemma deleteRecipe_cases (db : DB) (userId id : string) :
  (findRecipe db id = None
   /\ deleteRecipe db userId id
      = ({| rp_status := 404; rp_success := false; rp_message := "Recette non trouvée" |}, None))
  \/ (exists r, findRecipe db id = Some r
        /\ ~ (r_createdById r = Some userId
              /\ (r_source r = Some "user" \/ r_source r = Some "ai_generated"))
        /\ deleteRecipe db userId id
           = ({| rp_status := 403; rp_success := false;
                 rp_message := "Vous n'êtes pas autorisé à supprimer cette recette" |}, None))
  \/ (exists r, findRecipe db id = Some r
        /\ (r_createdById r = Some userId
            /\ (r_source r = Some "user" \/ r_source r = Some "ai_generated"))
        /\ deleteRecipe db userId id
           = ({| rp_status := 200; rp_success := true;
                 rp_message := "Recette supprimée avec succès" |}, Some id)).
Proof.
  unfold deleteRecipe. destruct (findRecipe db id) as [r|] eqn:F; [right|left; tauto].
  pose proof (findRecipe_id _ _ _ F) as Eid.
  destruct (r_createdById r) as [c|] eqn:Ec;
    [destruct (String.eqb_spec c userId) as [->|Hc]|]; cbn [negb orb].
  - destruct (r_source r) as [s|] eqn:Es.
    + destruct (String.eqb_spec s "ai_generated") as [->|Hai]; cbn [negb andb].
      * right. exists r. rewrite Eid. intuition reflexivity.
      * destruct (String.eqb_spec s "user") as [->|Hus]; cbn [negb].
        -- right. exists r. rewrite Eid. intuition reflexivity.
        -- left. exists r. repeat split. intros [_ [H|H]]; congruence.
    + left. exists r. repeat split. intros [_ [H|H]]; congruence.
  - left. exists r. repeat split. intros [H _]. congruence.
  - left. exists r. repeat split. intros [H _]. congruence.
Qed.

(** X17: DELETE /recipes/:id asks the database to delete a recipe exactly
    when the recipe exists, was created by the requesting user and has
    source "user" or "ai_generated"; the recipe deleted is then the one
    requested and the answer is 200; otherwise the answer is 404 or 403. *)
Theorem delete_only_own_recipes (db : DB) (userId id : string) :
  (forall d, snd (deleteRecipe db userId id) = Some d <->
     d = id /\ exists r, findRecipe db id = Some r
                         /\ r_createdById r = Some userId
                         /\ (r_source r = Some "user" \/ r_source r = Some "ai_generated"))
  /\ (rp_status (fst (deleteRecipe db userId id)) = 200 <->
      snd (deleteRecipe db userId id) <> None)
  /\ (snd (deleteRecipe db userId id) = None ->
      rp_status (fst (deleteRecipe db userId id)) = 404 /\ findRecipe db id = None
      \/ rp_status (fst (deleteRecipe db userId id)) = 403 /\ findRecipe db id <> None).
Proof.
  destruct (deleteRecipe_cases db userId id)
    as [(F & ->)|[(r & F & Hno & ->)|(r & F & Hyes & ->)]]; cbn [fst snd rp_status].
  - split; [|split].
    + intro d. split; [discriminate|]. intros [_ (r & E & _)]. congruence.
    + split; [discriminate|]. intro H. now contradiction H.
    + intros _. left. tauto.
  - split; [|split].
    + intro d. split; [discriminate|]. intros [_ (r' & E & H)].
      rewrite F in E. injection E as <-. tauto.
    + split; [discriminate|]. intro H. now contradiction H.
    + intros _. right. split; [reflexivity|]. congruence.
  - split; [|split].
    + intro d. split.
      * intro E. injection E as <-. split; [reflexivity|]. exists r. tauto.
      * now intros [-> _].
    + split; [discriminate|reflexivity].
    + discriminate.
Qed.

(** ** middleware/auth.ts *)

Lemma split_on_nonempty (sep : Ascii.ascii) (s : string) : split_on sep s <> [].
Proof.
  destruct s as [|c s]; cbn [split_on]; [discriminate|].
  destruct (Ascii.eqb c sep); [discriminate|]. destruct (split_on sep s); discriminate.
Qed.

Lemma split_on_word (w rest : string) :
  space_free w = true ->
  split_on space (w ++ String space rest) = w :: split_on space rest.
Proof.
  induction w as [|c w IH]; intro H.
  - cbn [append split_on]. now rewrite Ascii.eqb_refl.
  - cbn [space_free] in H. apply andb_prop in H. destruct H as [Hc Hw].
    apply negb_true_iff in Hc. cbn [append split_on]. rewrite Hc, (IH Hw). reflexivity.
Qed.

Lemma split_on_single (w : string) :
  space_free w = true -> split_on space w = [w].
Proof.
  induction w as [|c w IH]; intro H; [reflexivity|].
  cbn [space_free] in H. apply andb_prop in H. destruct H as [Hc Hw].
  apply negb_true_iff in Hc. cbn [split_on]. rewrite Hc, (IH Hw). reflexivity.
Qed.

(** Reading a split back: the first field has no space, and what follows
    it in the string is a space and the string the other fields come from. *)
Lemma split_on_head (s : string) :
  exists w ws, split_on space s = w :: ws /\ space_free w = true
    /\ (ws = [] -> s = w)
    /\ (ws <> [] -> exists rest, s = w ++ String space rest /\ split_on space rest = ws).
Proof.
  induction s as [|c s (w & ws & E & Hw & Hnil & Hcons)].
  - exists "", []. split; [reflexivity|]. split; [reflexivity|]. split; [reflexivity|].
    intro H. now contradiction H.
  - cbn [split_on]. destruct (Ascii.eqb c space) eqn:Ec.
    + apply Ascii.eqb_eq in Ec. subst c. exists "", (split_on space s).
      split; [reflexivity|]. split; [reflexivity|]. split.
      * intro H. now apply split_on_nonempty in H.
      * intros _. exists s. split; reflexivity.
    + rewrite E. exists (String c w), ws.
      split; [reflexivity|]. split; [|split].
      * cbn [space_free]. now rewrite Ec, Hw.
      * intro H. now rewrite <- (Hnil H).
      * intro H. destruct (Hcons H) as (rest & -> & Er). exists rest.
        split; [reflexivity|assumption].
Qed.

Lemma second_field (h token : string) :
  nth_error (split_on space h) 1 = Some token ->
  exists scheme, space_free scheme = true /\ space_free token = true
    /\ (h = scheme ++ String space token
        \/ exists rest, h = scheme ++ String space (token ++ String space rest)).
Proof.
  intro H. destruct (split_on_head h) as (w & ws & E & Hw & _ & Hcons).
  rewrite E in H. cbn [nth_error] in H.
  destruct ws as [|t ws]; [discriminate|]. cbn [nth_error] in H. injection H as ->.
  destruct (Hcons ltac:(discriminate)) as (rest & -> & Er).
  destruct (split_on_head rest) as (t & ts & E' & Ht & Hnil' & Hcons').
  rewrite E' in Er. injection Er as -> ->.
  exists w. repeat split; [assumption..|].
  destruct ws as [|x ws].
  - left. now rewrite (Hnil' eq_refl).
  - right. destruct (Hcons' ltac:(discriminate)) as (rest' & -> & _). now exists rest'.
Qed.

Section AuthFacts.

Variable jwt_verify : string -> option string.
Variable users : list User.

(** X18: the middleware lets a request through only for a registered
    user named by a verified token, and that token is the second
    space-separated field of the Authorization header; every other
    request is answered 401. *)
Theorem authenticated_means_verified (authorization : option string) :
  match authenticateToken jwt_verify users authorization with
  | auth_next uid user =>
      In user users /\ u_id user = uid
      /\ exists scheme token,
           space_free scheme = true /\ space_free token = true /\ token <> ""
           /\ jwt_verify token = Some uid
           /\ (authorization = Some (scheme ++ String space token)
               \/ exists rest,
                    authorization = Some (scheme ++ String space (token ++ String space rest)))
  | auth_reply status message =>
      status = 401 /\ (message = "Token d'accès manquant" \/ message = "Token invalide")
  end.
Proof.
  unfold authenticateToken.
  destruct (bearer_token authorization) as [[|c token]|] eqn:B; [tauto| |tauto].
  destruct (jwt_verify (String c token)) as [uid|] eqn:V; [|tauto].
  destruct (find _ users) as [u|] eqn:F; [|tauto].
  apply find_some in F. destruct F as [Hin Eu]. apply String.eqb_eq in Eu.
  split; [assumption|]. split; [reflexivity|].
  destruct authorization as [[|c0 h]|]; [discriminate| |discriminate].
  cbn [bearer_token] in B. apply second_field in B.
  destruct B as (scheme & Hs & Ht & Hh). exists scheme, (String c token).
  split; [assumption|]. split; [assumption|]. split; [discriminate|].
  split; [now rewrite Eu|].
  destruct Hh as [->|(rest & ->)]; [now left|right; now exists rest].
Qed.

(** X19: only the second field of the header counts: the word before the
    first space and everything after the second space change nothing. *)
Theorem only_second_field_counts (scheme scheme' token rest : string) :
  space_free scheme = true -> space_free scheme' = true -> space_free token = true ->
  authenticateToken jwt_verify users
    (Some (scheme ++ String space (token ++ String space rest)))
  = authenticateToken jwt_verify users (Some (scheme' ++ String space token)).
Proof.
  intros Hs Hs' Ht. unfold authenticateToken.
  assert (forall w tail, space_free w = true ->
            bearer_token (Some (w ++ String space tail)) = nth_error (split_on space tail) 0) as Hb.
  { intros w tail Hw. change (nth_error (split_on space tail) 0)
      with (nth_error (w :: split_on space tail) 1).
    rewrite <- (split_on_word w tail Hw).
    unfold bearer_token. now destruct w. }
  rewrite !Hb by assumption. now rewrite (split_on_word token rest Ht), (split_on_single token Ht).
Qed.

(** X20: without a second field there is no token: an absent header, a
    header of one word, and a header whose first space is followed by
    nothing or by another space are answered 401 with the message of the
    missing token, whatever the verifier accepts. *)
Theorem no_second_field_no_token (word rest : string) :
  space_free word = true ->
  let missing := auth_reply 401 "Token d'accès manquant" in
  authenticateToken jwt_verify users None = missing
  /\ authenticateToken jwt_verify users (Some word) = missing
  /\ authenticateToken jwt_verify users (Some (word ++ String space "")) = missing
  /\ authenticateToken jwt_verify users
       (Some (word ++ String space (String space rest))) = missing.
Proof.
  intros Hw missing. unfold authenticateToken.
  assert (forall tail, bearer_token (Some (word ++ String space tail))
                       = nth_error (split_on space tail) 0) as Hb.
  { intro tail. change (nth_error (split_on space tail) 0)
      with (nth_error (word :: split_on space tail) 1).
    rewrite <- (split_on_word word tail Hw).
    unfold bearer_token. now destruct word. }
  repeat split.
  - unfold bearer_token. destruct word as [|c w]; [reflexivity|].
    now rewrite (split_on_single _ Hw).
  - now rewrite Hb.
  - rewrite Hb. cbn [split_on]. now rewrite Ascii.eqb_refl.
Qed.

End AuthFacts.

Lemma only_second_field_counts_witness :
  authenticateToken jwt_demo users_demo (Some "Basic tok-u and more")
  = authenticateToken jwt_demo users_demo (Some "Bearer tok-u").
Proof.
  apply (only_second_field_counts jwt_demo users_demo "Basic" "Bearer" "tok-u" "and more");
    reflexivity.
Defined.

Lemma no_second_field_no_token_witness :
  authenticateToken jwt_demo users_demo (Some "tok-u")
  = auth_reply 401 "Token d'accès manquant".
Proof.
  apply (no_second_field_no_token jwt_demo users_demo "tok-u" "" eq_refl).
Defined.

(** ** The listing and the favorite handlers on the kitchen *)

Lemma newest_first_perm (l : list Recipe) : Permutation l (newest_first l).
Proof. apply Permutation_rev. Qed.

Lemma no_recipe_listed_twice_witness :
  NoDup (map p_id (data_suggestions (getSuggestions Fixtures.db_kitchen "u")))
  /\ NoDup (map p_id (combinedSuggestions Fixtures.db_kitchen "u")).
Proof.
  apply (no_recipe_listed_twice Fixtures.db_kitchen "u"). nodup_by_computation.
Defined.

Lemma makeable_never_served_witness :
  tbl_fridgeItem Fixtures.db_bare <> tbl_fridgeItem Fixtures.db_kitchen
  /\ listRecipes icontains_any newest_first Fixtures.db_kitchen "u" query_makeable
     = list_bad_request
  /\ listRecipes icontains_any newest_first Fixtures.db_bare "u" query_none
     = listRecipes icontains_any newest_first Fixtures.db_kitchen "u" query_none.
Proof.
  split; [discriminate|]. split.
  - apply (proj1 (makeable_never_served icontains_any newest_first
                    Fixtures.db_kitchen "u" Fixtures.db_bare query_makeable eq_refl eq_refl)).
    discriminate.
  - exact (proj2 (makeable_never_served icontains_any newest_first
                    Fixtures.db_kitchen "u" Fixtures.db_bare query_none eq_refl eq_refl)).
Defined.

Lemma only_first_page_served_witness :
  listRecipes icontains_any newest_first Fixtures.db_kitchen "u" query_page_two
  = list_bad_request.
Proof.
  assert (array_ok (tbl_recipe Fixtures.db_kitchen)) as Hok by (vm_compute; reflexivity).
  apply (proj1 (only_first_page_served icontains_any newest_first newest_first_perm
                  Fixtures.db_kitchen "u" query_page_two Hok)).
  left. discriminate.
Defined.

Lemma favorite_handlers_keep_invariants_witness :
  favorites_unique (snd (addFavorite Fixtures.db_kitchen "u" "B" "row"))
  /\ favorites_refer (snd (addFavorite Fixtures.db_kitchen "u" "B" "row")).
Proof.
  assert (favorites_unique Fixtures.db_kitchen) as Hu by (unfold favorites_unique; nodup_by_computation).
  assert (favorites_refer Fixtures.db_kitchen) as Hr
    by (intros fv [<-|[<-|[]]]; discriminate).
  exact (proj1 (favorite_handlers_keep_invariants Fixtures.db_kitchen "u" "B" "row" Hu Hr)).
Defined.

Lemma favorite_twice_is_refused_witness :
  rp_status (fst (addFavorite (snd (addFavorite Fixtures.db_kitchen "u" "B" "row"))
                    "u" "B" "row2")) = 400.
Proof.
  rewrite (proj1 (favorite_twice_is_refused Fixtures.db_kitchen "u" "B" "row" "row2") eq_refl).
  reflexivity.
Defined.

Lemma favorite_add_then_remove_witness :
  snd (removeFavorite (snd (addFavorite Fixtures.db_kitchen "u" "B" "row")) "u" "B")
  = Fixtures.db_kitchen.
Proof.
  exact (proj2 (favorite_add_then_remove Fixtures.db_kitchen "u" "B" "row" eq_refl)).
Defined.

Lemma favorite_toggle_is_visible_witness :
  In "B" (map p_id (data_suggestions (getSuggestions Fixtures.db_kitchen "u")))
  /\ ~ In "B" (map p_id (data_suggestions
                           (getSuggestions (snd (addFavorite Fixtures.db_kitchen "u" "B" "row")) "u"))).
Proof.
  split; [vm_compute; intuition reflexivity|].
  intro H. apply in_map_iff in H. destruct H as (p & E & Hp).
  exact (proj2 (proj1 (favorite_toggle_is_visible Fixtures.db_kitchen "u" "B" "row") eq_refl)
           p Hp E).
Defined.

(** ** GET /recipes/favorites *)

Section FavoritesFacts.

Variable orderByAddedAtDesc : list FavoriteRecipe -> list FavoriteRecipe.
Hypothesis orderBy_perm : forall l, Permutation l (orderByAddedAtDesc l).

Variable db : DB.
Variable userId : string.

Lemma getFavorites_In (e : FavoriteEntry) :
  In e (getFavorites orderByAddedAtDesc db userId) <->
  In (fe_row e) (favoriteRecipeIds db userId)
  /\ findRecipe db (fav_recipeId (fe_row e)) = Some (fe_recipe e)
  /\ fe_isFavorite e = true.
Proof.
  unfold getFavorites. rewrite in_flat_map. split.
  - intros (fv & Hfv & He). apply (Permutation_in _ (Permutation_sym (orderBy_perm _))) in Hfv.
    destruct (findRecipe db (fav_recipeId fv)) as [r|] eqn:F; [|destruct He].
    destruct He as [<-|[]]. cbn [fe_row fe_recipe fe_isFavorite]. tauto.
  - intros (Hrow & F & Hflag). exists (fe_row e). split.
    + now apply (Permutation_in _ (orderBy_perm _)).
    + rewrite F. left. destruct e as [r b fv]. cbn in *. now subst b.
Qed.

(** X21: the favorites list agrees with the other routes: its recipes
    are those of the favorite ids the suggestion handler sets aside, one
    entry per stored row; the detail route flags each of them, and the
    suggestions list none of them. *)
Theorem favorites_list_agrees :
  favorites_refer db ->
  (forall id, In id (map (fun e => r_id (fe_recipe e)) (getFavorites orderByAddedAtDesc db userId))
              <-> In id (favoriteIdsSet db userId))
  /\ List.length (getFavorites orderByAddedAtDesc db userId)
     = List.length (favoriteRecipeIds db userId)
  /\ forall e, In e (getFavorites orderByAddedAtDesc db userId) ->
       dt_recipe (getRecipe db userId (r_id (fe_recipe e)))
       = Some {| lr_recipe := fe_recipe e; lr_isFavorite := true |}
       /\ forall p, In p (data_suggestions (getSuggestions db userId)) ->
                    p_id p <> r_id (fe_recipe e).
Proof.
  intro Href.
  assert (forall e, In e (getFavorites orderByAddedAtDesc db userId) ->
            In (r_id (fe_recipe e)) (favoriteIdsSet db userId)
            /\ fav_recipeId (fe_row e) = r_id (fe_recipe e)) as Hset.
  { intros e He. apply getFavorites_In in He. destruct He as (Hrow & F & _).
    pose proof (findRecipe_id _ _ _ F) as Eid. split; [|now rewrite Eid].
    unfold favoriteIdsSet. apply Set_of_In. rewrite Eid. now apply in_map. }
  split; [|split].
  - intro id. split.
    + intro H. apply in_map_iff in H. destruct H as (e & <- & He). now apply Hset.
    + intro H. unfold favoriteIdsSet in H. apply Set_of_In, in_map_iff in H.
      destruct H as (fv & <- & Hfv).
      assert (In fv (tbl_favoriteRecipe db)) as Hin
        by (unfold favoriteRecipeIds in Hfv; now apply filter_In in Hfv).
      destruct (findRecipe db (fav_recipeId fv)) as [r|] eqn:F; [|now apply Href in Hin].
      apply in_map_iff. exists {| fe_recipe := r; fe_isFavorite := true; fe_row := fv |}.
      cbn [fe_recipe]. split; [now apply findRecipe_id in F|].
      apply getFavorites_In. cbn [fe_row fe_recipe fe_isFavorite]. tauto.
  - unfold getFavorites. rewrite (Permutation_length (orderBy_perm (favoriteRecipeIds db userId))).
    assert (forall fv, In fv (orderByAddedAtDesc (favoriteRecipeIds db userId)) ->
              findRecipe db (fav_recipeId fv) <> None) as Hall.
    { intros fv Hfv. apply Href.
      apply (Permutation_in _ (Permutation_sym (orderBy_perm _))) in Hfv.
      unfold favoriteRecipeIds in Hfv. now apply filter_In in Hfv. }
    induction (orderByAddedAtDesc (favoriteRecipeIds db userId)) as [|fv l IH];
      [reflexivity|]. cbn [flat_map]. rewrite length_app, IH by (intros x Hx; apply Hall; now right).
    specialize (Hall fv (or_introl eq_refl)).
    destruct (findRecipe db (fav_recipeId fv)); [reflexivity|contradiction].
  - intros e He. destruct (Hset e He) as [Hin Eid]. split.
    + apply getFavorites_In in He. destruct He as (_ & F & _). rewrite Eid in F.
      unfold getRecipe. rewrite F. cbn [dt_recipe]. unfold formatRecipe.
      rewrite favorite_flag_is_membership. apply includes_In in Hin. now rewrite Hin.
    + intros p Hp E. apply response_incl, suggestions_not_favorite in Hp.
      destruct Hp as [_ Hp]. rewrite E in Hp. apply includes_In in Hin. congruence.
Qed.

End FavoritesFacts.

Lemma favorites_list_agrees_witness :
  List.length (getFavorites latest_first Fixtures.db_kitchen "u") = 1%nat.
Proof.
  assert (favorites_refer Fixtures.db_kitchen) as Hr
    by (intros fv [<-|[<-|[]]]; discriminate).
  exact (proj1 (proj2 (favorites_list_agrees latest_first (fun l => Permutation_rev l)
                         Fixtures.db_kitchen "u" Hr))).
Defined.
